(** * Abi7Grid

    A shallow embedding of the windowed masonry grid (classes
    [abi7_grid_item] and [abi7_grid_custom]): the geometry calculator, the
    position solver, the layout store, paging, the build-state machine and
    the public operations, followed by the properties checked against it.

    Conventions of the embedding.
    - Pixel quantities of the configuration and of the DOM ([clientWidth],
      [clientHeight]) are integers ([Z]).  The left offset of the grid is
      halved by the code and is a rational ([Q]).  A vertical coordinate is
      a JavaScript number that may be [NaN] (type [num]): a layout entry
      whose height was never assigned has [undefined] height and a [NaN]
      bottom.
    - A JavaScript array of data records is a heap cell holding a list, and
      the grid keeps a reference to it; the layout array [storage.items] is
      a list of optional entries, [None] being a hole.
    - The code is written in continuation style.  A callback that runs
      synchronously is run in place; a callback handed to [setTimeout] or to
      a promise is queued as a [Timer] and run by [fire].
    - What the code only paints (styles, classes, scroll offset) is left
      out; handlers of the event bus are reduced to the trace they leave. *)

From Stdlib Require Import ZArith QArith Qround Lia Lqa.
From stdpp Require Import base option list gmap strings.

Local Open Scope Z_scope.

(** ** JavaScript values *)

(** A number that may be [NaN]. *)
Inductive num :=
| Num (z : Z)
| NaN.

Definition num_add (a b : num) : num :=
  match a, b with
  | Num x, Num y => Num (x + y)
  | _, _ => NaN
  end.

Definition num_sub (a b : num) : num :=
  match a, b with
  | Num x, Num y => Num (x - y)
  | _, _ => NaN
  end.

(** [top + obj.height] where the height may be [undefined]. *)
Definition num_add_height (t : num) (h : option Z) : num :=
  match h with
  | Some z => num_add t (Num z)
  | None => NaN
  end.

(** An object used as a data record: the two layout hints the grid reads,
    and an opaque payload. *)
Record Rec := {
  abi7height : option Z;
  abi7aspectRatio : option Q;
  payload : nat
}.

(** The values a caller can pass to a public operation or keep in a
    dataset.  An array is a reference into the heap. *)
Inductive JsVal :=
| VUndefined
| VNull
| VBool (b : bool)
| VNumber (z : Z)
| VString (s : string)
| VObject (r : Rec)
| VArray (ref : nat)
| VFunction (tag : nat).

Inductive JsType :=
| TyUndefined | TyObject | TyBoolean | TyNumber | TyString | TyFunction.

Definition typeof (v : JsVal) : JsType :=
  match v with
  | VUndefined => TyUndefined
  | VNull => TyObject
  | VBool _ => TyBoolean
  | VNumber _ => TyNumber
  | VString _ => TyString
  | VObject _ => TyObject
  | VArray _ => TyObject
  | VFunction _ => TyFunction
  end.

Definition JsType_eqb (a b : JsType) : bool :=
  match a, b with
  | TyUndefined, TyUndefined | TyObject, TyObject | TyBoolean, TyBoolean
  | TyNumber, TyNumber | TyString, TyString | TyFunction, TyFunction => true
  | _, _ => false
  end.

Definition isArray (v : JsVal) : option nat :=
  match v with
  | VArray r => Some r
  | _ => None
  end.

(** ** Results of running code: a value, or a thrown exception *)

Inductive Exn :=
| ThrowString (msg : string)
| TypeError (what : string).

Inductive outcome (A : Type) :=
| Ret (a : A)
| Throw (e : Exn).
Arguments Ret {A} a.
Arguments Throw {A} e.

(** Reading a property of a record: [null] and [undefined] throw, a
    primitive or an array has no such property. *)
Definition get_abi7height (v : JsVal) : outcome (option Z) :=
  match v with
  | VUndefined | VNull => Throw (TypeError "Cannot read properties of null or undefined")
  | VObject r => Ret (abi7height r)
  | _ => Ret None
  end.

Definition get_abi7aspectRatio (v : JsVal) : outcome (option Q) :=
  match v with
  | VUndefined | VNull => Throw (TypeError "Cannot read properties of null or undefined")
  | VObject r => Ret (abi7aspectRatio r)
  | _ => Ret None
  end.

(** [Math.round] of a rational: the nearest integer, halves going up. *)
Definition Math_round (q : Q) : Z := Qfloor (q + (1 # 2))%Q.

(** ** Configuration *)

Record Padding := {
  pad_top : Z;
  pad_left : Z;
  pad_right : Z;
  pad_bottom : Z
}.

Record Space := {
  cols : Z;
  rows : Z
}.

Record ItemsConfig := {
  aspectRatio : option Q;   (* [false] or a number *)
  height : option Z;        (* [false] or an integer *)
  minWidth : Z;
  maxWidth : Z
}.

Record Animation := {
  enable : bool;
  duration : Z
}.

(** What a data source hands back: an array, a promise of an array, or
    something else. *)
Inductive FetchResult :=
| FetchArray (data : list JsVal)
| FetchPromise (data : list JsVal)
| FetchOther.

(** The handlers of [config.events]: [true] when the handler is a
    function. *)
Record Events := {
  onDataLoadStart : bool;
  onDataLoadEnd : bool;
  onItemDelete : bool;
  onItemInsert : bool;
  onReady : bool;
  onSizeCalc : bool
}.

Record Config := {
  cfg_itemsCount : Z;
  cfg_dataBlockSize : Z;
  padding : Padding;
  space : Space;
  items_cfg : ItemsConfig;
  animation_cfg : Animation;
  maxColumns : Z;
  (* (self, start, count) -> records *)
  funcLoadData : option (Z -> Z -> FetchResult);
  (* the content binder, reduced to the client height of the filled
     element: (item width, record) -> height *)
  funcItemLoad : option (Z -> JsVal -> Z);
  (* the height resolver: (x, y, column, width, record) -> height *)
  funcItemCalc : option (Q -> num -> Z -> Z -> JsVal -> Z);
  events : Events
}.

Definition default_events : Events :=
  {| onDataLoadStart := false; onDataLoadEnd := false; onItemDelete := false;
     onItemInsert := false; onReady := false; onSizeCalc := false |}.

(** [abi7_grid_custom.defaults]. *)
Definition defaults : Config :=
  {| cfg_itemsCount := 0;
     cfg_dataBlockSize := 0;
     padding := {| pad_top := 0; pad_left := 0; pad_right := 0; pad_bottom := 0 |};
     space := {| cols := 5; rows := 5 |};
     items_cfg := {| aspectRatio := None; height := None;
                     minWidth := 150; maxWidth := 250 |};
     animation_cfg := {| enable := true; duration := 400 |};
     maxColumns := 3;
     funcLoadData := None;
     funcItemLoad := None;
     funcItemCalc := None;
     events := default_events |}.

(** ** Geometry calculator: [initSizingParams] *)

Record Sizing := {
  g_left : Q;
  column_count : Z;
  item_width : Z;
  grid_width : Z;
  calc_width : Z;
  item_aspectRatio : option Q;
  item_height : option Z;
  itemsCount : Z;
  dataBlockSize : Z
}.

(** The inner loop: [while (item_width < maxWidth)], widening by one pixel
    until the row would reach the available width.  [n] counts the pixels
    left below [maxWidth].  Returns the width and the last [calc_width]. *)
Fixpoint grow_item_width (n : nat) (cfg : Config) (width column_count item_width calc_width : Z)
  : Z * Z :=
  match n with
  | O => (item_width, calc_width)
  | S n' =>
      let calc_width := (item_width + 1) * column_count
                        + cols (space cfg) * (column_count - 1) in
      if calc_width >=? width then (item_width, calc_width)
      else grow_item_width n' cfg width column_count (item_width + 1) calc_width
  end.

(** The outer loop: [while (column_count > 1)], dropping a column until
    the minimal row fits.  [n] counts the columns left above one.  Returns
    column count, item width and the last [calc_width]. *)
Fixpoint shrink_columns (n : nat) (cfg : Config) (width column_count item_width calc_width : Z)
  : Z * Z * Z :=
  match n with
  | O => (column_count, item_width, calc_width)
  | S n' =>
      let calc_width := minWidth (items_cfg cfg) * column_count
                        + cols (space cfg) * (column_count - 1) in
      if calc_width <=? width then
        let item_width := minWidth (items_cfg cfg) in
        let '(iw, cw) :=
          grow_item_width (Z.to_nat (maxWidth (items_cfg cfg) - item_width))
                          cfg width column_count item_width calc_width in
        (column_count, iw, cw)
      else shrink_columns n' cfg width (column_count - 1) item_width calc_width
  end.

Definition Qmax (a b : Q) : Q := if Qle_bool a b then b else a.

(** The values [initSizingParams] stores on the grid, from the
    configuration and the client width of the container. *)
Definition sizing_of (cfg : Config) (width_full : Z) : Sizing :=
  let width := width_full - (pad_left (padding cfg) + pad_right (padding cfg)) in
  let item_width := Z.min width (maxWidth (items_cfg cfg)) in
  let column_count := if 0 <? maxColumns cfg then maxColumns cfg else 16 in
  let '(column_count, item_width, calc_width) :=
    shrink_columns (Z.to_nat (column_count - 1)) cfg width column_count item_width 0 in
  let aspect :=
    match aspectRatio (items_cfg cfg) with
    | Some r => if Qle_bool r 0 then None else Some r
    | None => None
    end in
  let fixed :=
    match height (items_cfg cfg) with
    | Some h => if 0 <? h then Some h else None
    | None => None
    end in
  {| g_left := Qmax (inject_Z (pad_left (padding cfg)))
                 (inject_Z (width_full
                            - ((cols (space cfg) + item_width) * column_count
                               - cols (space cfg))) / 2)%Q;
     column_count := column_count;
     item_width := item_width;
     grid_width := width_full;
     calc_width := calc_width;
     item_aspectRatio := aspect;
     item_height :=
       match aspect with
       | Some r => Some (Math_round (inject_Z item_width / r)%Q)
       | None => fixed
       end;
     itemsCount :=
       if cfg_itemsCount cfg =? 0 then Z.max 20 (column_count * 20)
       else cfg_itemsCount cfg;
     dataBlockSize :=
       if cfg_dataBlockSize cfg =? 0 then Z.max 100 (column_count * 40)
       else cfg_dataBlockSize cfg |}.

(** The scenario of the geometry calculator: the default configuration
    with column spacing 10 and a given column cap. *)
Definition scenario_config (cap : Z) : Config :=
  {| cfg_itemsCount := 0;
     cfg_dataBlockSize := 0;
     padding := {| pad_top := 0; pad_left := 0; pad_right := 0; pad_bottom := 0 |};
     space := {| cols := 10; rows := 5 |};
     items_cfg := {| aspectRatio := None; height := None;
                     minWidth := 150; maxWidth := 250 |};
     animation_cfg := {| enable := true; duration := 400 |};
     maxColumns := cap;
     funcLoadData := None;
     funcItemLoad := None;
     funcItemCalc := None;
     events := default_events |}.

(** ** The layout store and the item pool *)

(** A layout entry of [storage.items]. *)
Record Entry := {
  e_left : Q;
  e_top : num;
  e_height : option Z;   (* [None]: never assigned, [undefined] *)
  e_bottom : num;
  e_column : Z
}.

(** What [findNextPos] returns. *)
Record Pos := {
  pos_left : Q;
  pos_top : num;
  pos_column : Z
}.

(** An item object of the pool ([abi7_grid_item]). *)
Record ItemView := {
  item_index : Z;
  loadIndex : Z;
  item_x : Q;
  item_y : num;
  item_column : Z;
  valHeight : Z;
  valWidth : Z
}.

(** [self.buffer] is either the array [self.items] itself or an array of
    its own. *)
Inductive Buffer :=
| BufferIsItems
| BufferOwn (l : list nat).

Inductive GridState :=
| ABI7_GRID_STATE_NORMAL
| ABI7_GRID_STATE_BUILD
| ABI7_GRID_STATE_DISABLED
| ABI7_GRID_STATE_HIDDEN.

Definition GridState_eqb (a b : GridState) : bool :=
  match a, b with
  | ABI7_GRID_STATE_NORMAL, ABI7_GRID_STATE_NORMAL
  | ABI7_GRID_STATE_BUILD, ABI7_GRID_STATE_BUILD
  | ABI7_GRID_STATE_DISABLED, ABI7_GRID_STATE_DISABLED
  | ABI7_GRID_STATE_HIDDEN, ABI7_GRID_STATE_HIDDEN => true
  | _, _ => false
  end.

(** The closures the code passes as completion callbacks. *)
Inductive Callback :=
| CbUndefined
| CbUser (tag : nat)
    (* a function supplied by the caller *)
| CbItemDelete (data : list JsVal) (index : Z)
    (* remove: () => events.onItemDelete(owner, data, index) *)
| CbRecalcItemsDone (fdone : Callback)
    (* recalcItems: func_done *)
| CbUpdateItemsPositionDone (fdone : Callback)
    (* updateItemsPosition: () => { setBuildState(false); fdone() } *)
| CbRefreshDone (fdone : Callback)
    (* refresh: () => { setBuildState(false); checkItems(...) } *)
| CbInitLoadData (fdone : Callback)
    (* initLoadData: the closure given to loadData *)
| CbDataLoaded (fdone : Callback)
    (* data: the closure given to initLoadData *)
| CbItemInsertLoaded (data : JsVal) (fdone : Callback)
    (* itemInsert: the closure given to loadData *)
| CbItemInsertMoved (data : JsVal) (fdone : Callback).
    (* itemInsert: the closure given to updateItemsPosition *)

Record LoadOptions := {
  setX : bool;
  setY : bool;
  reset : bool
}.

Inductive Timer :=
| TimerAnimation (fdone : Callback)
    (* animation: setTimeout(func, duration + 50) *)
| TimerItemInsert (data : JsVal) (fdone : Callback)
    (* itemInsert: setTimeout(() => updateItemsPosition(...), 50) *)
| TimerPromise (data : list JsVal) (start count : Z) (cfg : LoadOptions) (fdone : Callback).
    (* loadData: res.then(func), resolving with [data] *)

(** The argument a handler receives for a record or for an array of
    records. *)
Inductive Payload :=
| PValue (v : JsVal)
| PArray (l : list JsVal).

(** The calls the grid makes to the functions of its configuration and to
    the callbacks of its callers. *)
Inductive Event :=
| EvSizeCalc (columnCount gridCalcWidth gridWidth itemWidth : Z)
| EvDataLoadStart
| EvFuncLoadData (start count : Z)
| EvDataLoadEnd (data : list JsVal)
| EvReady
| EvItemDelete (data : Payload) (index : Z)
| EvItemInsert (data : JsVal)
| EvCallback (tag : nat)
| EvCheckItems (fdone : Callback).

Record Grid := {
  config : Config;   (* self.config *)
  clientWidth : Z;   (* self.container.clientWidth *)
  screen_all : list nat;   (* views whose element meets the viewport *)
  heap : gmap nat (list JsVal);   (* the arrays of records, by reference *)
  gridState : GridState;   (* self.gridState *)
  ready : bool;
  visible : bool;
  inScroll : bool;
  sizing : Sizing;   (* what initSizingParams stored *)
  cache : nat;   (* self.storage.cache, a reference *)
  storage_items : list (option Entry);   (* self.storage.items *)
  views : list ItemView;   (* the item objects, by creation order *)
  items : list nat;   (* self.items, an array of item objects *)
  buffer : Buffer;   (* self.buffer *)
  cursor_pos : Z;
  cursor_begin : Z;
  cursor_end : Z;
  bof : bool;
  eof : bool;
  eof_data : bool;
  timers : list Timer;   (* pending timeouts and promise reactions *)
  trace : list Event   (* calls made to handlers and callbacks *)
}.

Definition set_heap (v : gmap nat (list JsVal)) (g : Grid) : Grid :=
  {| config := config g; clientWidth := clientWidth g; screen_all := screen_all g; heap := v;
     gridState := gridState g; ready := ready g; visible := visible g; inScroll := inScroll g;
     sizing := sizing g; cache := cache g; storage_items := storage_items g; views := views g;
     items := items g; buffer := buffer g; cursor_pos := cursor_pos g; cursor_begin :=
     cursor_begin g; cursor_end := cursor_end g; bof := bof g; eof := eof g; eof_data :=
     eof_data g; timers := timers g; trace := trace g |}.

Definition set_gridState (v : GridState) (g : Grid) : Grid :=
  {| config := config g; clientWidth := clientWidth g; screen_all := screen_all g; heap := heap
     g; gridState := v; ready := ready g; visible := visible g; inScroll := inScroll g; sizing
     := sizing g; cache := cache g; storage_items := storage_items g; views := views g; items :=
     items g; buffer := buffer g; cursor_pos := cursor_pos g; cursor_begin := cursor_begin g;
     cursor_end := cursor_end g; bof := bof g; eof := eof g; eof_data := eof_data g; timers :=
     timers g; trace := trace g |}.

Definition set_ready (v : bool) (g : Grid) : Grid :=
  {| config := config g; clientWidth := clientWidth g; screen_all := screen_all g; heap := heap
     g; gridState := gridState g; ready := v; visible := visible g; inScroll := inScroll g;
     sizing := sizing g; cache := cache g; storage_items := storage_items g; views := views g;
     items := items g; buffer := buffer g; cursor_pos := cursor_pos g; cursor_begin :=
     cursor_begin g; cursor_end := cursor_end g; bof := bof g; eof := eof g; eof_data :=
     eof_data g; timers := timers g; trace := trace g |}.

Definition set_inScroll (v : bool) (g : Grid) : Grid :=
  {| config := config g; clientWidth := clientWidth g; screen_all := screen_all g; heap := heap
     g; gridState := gridState g; ready := ready g; visible := visible g; inScroll := v; sizing
     := sizing g; cache := cache g; storage_items := storage_items g; views := views g; items :=
     items g; buffer := buffer g; cursor_pos := cursor_pos g; cursor_begin := cursor_begin g;
     cursor_end := cursor_end g; bof := bof g; eof := eof g; eof_data := eof_data g; timers :=
     timers g; trace := trace g |}.

Definition set_sizing (v : Sizing) (g : Grid) : Grid :=
  {| config := config g; clientWidth := clientWidth g; screen_all := screen_all g; heap := heap
     g; gridState := gridState g; ready := ready g; visible := visible g; inScroll := inScroll
     g; sizing := v; cache := cache g; storage_items := storage_items g; views := views g; items
     := items g; buffer := buffer g; cursor_pos := cursor_pos g; cursor_begin := cursor_begin g;
     cursor_end := cursor_end g; bof := bof g; eof := eof g; eof_data := eof_data g; timers :=
     timers g; trace := trace g |}.

Definition set_cache (v : nat) (g : Grid) : Grid :=
  {| config := config g; clientWidth := clientWidth g; screen_all := screen_all g; heap := heap
     g; gridState := gridState g; ready := ready g; visible := visible g; inScroll := inScroll
     g; sizing := sizing g; cache := v; storage_items := storage_items g; views := views g;
     items := items g; buffer := buffer g; cursor_pos := cursor_pos g; cursor_begin :=
     cursor_begin g; cursor_end := cursor_end g; bof := bof g; eof := eof g; eof_data :=
     eof_data g; timers := timers g; trace := trace g |}.

Definition set_storage_items (v : list (option Entry)) (g : Grid) : Grid :=
  {| config := config g; clientWidth := clientWidth g; screen_all := screen_all g; heap := heap
     g; gridState := gridState g; ready := ready g; visible := visible g; inScroll := inScroll
     g; sizing := sizing g; cache := cache g; storage_items := v; views := views g; items :=
     items g; buffer := buffer g; cursor_pos := cursor_pos g; cursor_begin := cursor_begin g;
     cursor_end := cursor_end g; bof := bof g; eof := eof g; eof_data := eof_data g; timers :=
     timers g; trace := trace g |}.

Definition set_views (v : list ItemView) (g : Grid) : Grid :=
  {| config := config g; clientWidth := clientWidth g; screen_all := screen_all g; heap := heap
     g; gridState := gridState g; ready := ready g; visible := visible g; inScroll := inScroll
     g; sizing := sizing g; cache := cache g; storage_items := storage_items g; views := v;
     items := items g; buffer := buffer g; cursor_pos := cursor_pos g; cursor_begin :=
     cursor_begin g; cursor_end := cursor_end g; bof := bof g; eof := eof g; eof_data :=
     eof_data g; timers := timers g; trace := trace g |}.

Definition set_items (v : list nat) (g : Grid) : Grid :=
  {| config := config g; clientWidth := clientWidth g; screen_all := screen_all g; heap := heap
     g; gridState := gridState g; ready := ready g; visible := visible g; inScroll := inScroll
     g; sizing := sizing g; cache := cache g; storage_items := storage_items g; views := views
     g; items := v; buffer := buffer g; cursor_pos := cursor_pos g; cursor_begin := cursor_begin
     g; cursor_end := cursor_end g; bof := bof g; eof := eof g; eof_data := eof_data g; timers
     := timers g; trace := trace g |}.

Definition set_buffer (v : Buffer) (g : Grid) : Grid :=
  {| config := config g; clientWidth := clientWidth g; screen_all := screen_all g; heap := heap
     g; gridState := gridState g; ready := ready g; visible := visible g; inScroll := inScroll
     g; sizing := sizing g; cache := cache g; storage_items := storage_items g; views := views
     g; items := items g; buffer := v; cursor_pos := cursor_pos g; cursor_begin := cursor_begin
     g; cursor_end := cursor_end g; bof := bof g; eof := eof g; eof_data := eof_data g; timers
     := timers g; trace := trace g |}.

Definition set_cursor_pos (v : Z) (g : Grid) : Grid :=
  {| config := config g; clientWidth := clientWidth g; screen_all := screen_all g; heap := heap
     g; gridState := gridState g; ready := ready g; visible := visible g; inScroll := inScroll
     g; sizing := sizing g; cache := cache g; storage_items := storage_items g; views := views
     g; items := items g; buffer := buffer g; cursor_pos := v; cursor_begin := cursor_begin g;
     cursor_end := cursor_end g; bof := bof g; eof := eof g; eof_data := eof_data g; timers :=
     timers g; trace := trace g |}.

Definition set_cursor_begin (v : Z) (g : Grid) : Grid :=
  {| config := config g; clientWidth := clientWidth g; screen_all := screen_all g; heap := heap
     g; gridState := gridState g; ready := ready g; visible := visible g; inScroll := inScroll
     g; sizing := sizing g; cache := cache g; storage_items := storage_items g; views := views
     g; items := items g; buffer := buffer g; cursor_pos := cursor_pos g; cursor_begin := v;
     cursor_end := cursor_end g; bof := bof g; eof := eof g; eof_data := eof_data g; timers :=
     timers g; trace := trace g |}.

Definition set_cursor_end (v : Z) (g : Grid) : Grid :=
  {| config := config g; clientWidth := clientWidth g; screen_all := screen_all g; heap := heap
     g; gridState := gridState g; ready := ready g; visible := visible g; inScroll := inScroll
     g; sizing := sizing g; cache := cache g; storage_items := storage_items g; views := views
     g; items := items g; buffer := buffer g; cursor_pos := cursor_pos g; cursor_begin :=
     cursor_begin g; cursor_end := v; bof := bof g; eof := eof g; eof_data := eof_data g; timers
     := timers g; trace := trace g |}.

Definition set_bof (v : bool) (g : Grid) : Grid :=
  {| config := config g; clientWidth := clientWidth g; screen_all := screen_all g; heap := heap
     g; gridState := gridState g; ready := ready g; visible := visible g; inScroll := inScroll
     g; sizing := sizing g; cache := cache g; storage_items := storage_items g; views := views
     g; items := items g; buffer := buffer g; cursor_pos := cursor_pos g; cursor_begin :=
     cursor_begin g; cursor_end := cursor_end g; bof := v; eof := eof g; eof_data := eof_data g;
     timers := timers g; trace := trace g |}.

Definition set_eof (v : bool) (g : Grid) : Grid :=
  {| config := config g; clientWidth := clientWidth g; screen_all := screen_all g; heap := heap
     g; gridState := gridState g; ready := ready g; visible := visible g; inScroll := inScroll
     g; sizing := sizing g; cache := cache g; storage_items := storage_items g; views := views
     g; items := items g; buffer := buffer g; cursor_pos := cursor_pos g; cursor_begin :=
     cursor_begin g; cursor_end := cursor_end g; bof := bof g; eof := v; eof_data := eof_data g;
     timers := timers g; trace := trace g |}.

Definition set_eof_data (v : bool) (g : Grid) : Grid :=
  {| config := config g; clientWidth := clientWidth g; screen_all := screen_all g; heap := heap
     g; gridState := gridState g; ready := ready g; visible := visible g; inScroll := inScroll
     g; sizing := sizing g; cache := cache g; storage_items := storage_items g; views := views
     g; items := items g; buffer := buffer g; cursor_pos := cursor_pos g; cursor_begin :=
     cursor_begin g; cursor_end := cursor_end g; bof := bof g; eof := eof g; eof_data := v;
     timers := timers g; trace := trace g |}.

Definition set_timers (v : list Timer) (g : Grid) : Grid :=
  {| config := config g; clientWidth := clientWidth g; screen_all := screen_all g; heap := heap
     g; gridState := gridState g; ready := ready g; visible := visible g; inScroll := inScroll
     g; sizing := sizing g; cache := cache g; storage_items := storage_items g; views := views
     g; items := items g; buffer := buffer g; cursor_pos := cursor_pos g; cursor_begin :=
     cursor_begin g; cursor_end := cursor_end g; bof := bof g; eof := eof g; eof_data :=
     eof_data g; timers := v; trace := trace g |}.

Definition set_trace (v : list Event) (g : Grid) : Grid :=
  {| config := config g; clientWidth := clientWidth g; screen_all := screen_all g; heap := heap
     g; gridState := gridState g; ready := ready g; visible := visible g; inScroll := inScroll
     g; sizing := sizing g; cache := cache g; storage_items := storage_items g; views := views
     g; items := items g; buffer := buffer g; cursor_pos := cursor_pos g; cursor_begin :=
     cursor_begin g; cursor_end := cursor_end g; bof := bof g; eof := eof g; eof_data :=
     eof_data g; timers := timers g; trace := v |}.

(** ** Arrays *)

(** [arr[i]] for an integer [i]: [None] stands for [undefined]. *)
Definition lookupZ {A : Type} (l : list A) (i : Z) : option A :=
  if i <? 0 then None else l !! Z.to_nat i.

(** [storage.items[i]]: a hole reads as [undefined] too. *)
Definition entry_at (l : list (option Entry)) (i : Z) : option Entry :=
  match lookupZ l i with
  | Some (Some e) => Some e
  | _ => None
  end.

(** The relative index of [slice] and [splice]: a negative index counts
    from the end, and the result is clamped to the array. *)
Definition relative_index (len i : Z) : Z :=
  if i <? 0 then Z.max (len + i) 0 else Z.min i len.

(** [arr.splice(index, 1)]: the array left, and the array of the removed
    elements. *)
Definition Array_splice1 {A : Type} (index : Z) (l : list A) : list A * list A :=
  let start := Z.to_nat (relative_index (Z.of_nat (length l)) index) in
  (take start l ++ drop (S start) l, take 1 (drop start l)).

(** [arr.slice(s, e)]. *)
Definition Array_slice {A : Type} (s e : Z) (l : list A) : list A :=
  let len := Z.of_nat (length l) in
  let k := relative_index len s in
  let final := relative_index len e in
  take (Z.to_nat (final - k)) (drop (Z.to_nat k) l).

(** [arr[i] = x] on the layout array: writing past the end leaves
    holes. *)
Definition Array_set (i : nat) (x : Entry) (l : list (option Entry)) : list (option Entry) :=
  if (i <? length l)%nat then <[i := Some x]> l
  else l ++ replicate (i - length l) None ++ [Some x].

(** [arr.sort(cmp)].  The sort is stable: [x] moves behind [y] only when
    the comparator is positive; a [NaN] from the comparator counts as
    zero.  Where the comparator gives [NaN] for some pairs only (entries
    with the bottom [NaN] among entries with numeric bottoms) it is not a
    consistent comparator and the language leaves the order to the engine:
    the order computed here is one of those allowed, and the properties
    below that depend on the order assume numeric bottoms. *)
Definition keeps_order (v : num) : bool :=
  match v with
  | Num z => z <=? 0
  | NaN => true
  end.

Fixpoint sort_insert {A : Type} (cmp : A -> A -> num) (x : A) (l : list A) : list A :=
  match l with
  | [] => [x]
  | y :: l' => if keeps_order (cmp x y) then x :: y :: l'
               else y :: sort_insert cmp x l'
  end.

Fixpoint Array_sort {A : Type} (cmp : A -> A -> num) (l : list A) : list A :=
  match l with
  | [] => []
  | x :: l' => sort_insert cmp x (Array_sort cmp l')
  end.

(** ** Running code on the grid *)

(** An operation runs on the grid and either returns or throws; the grid
    keeps whatever was written before a throw. *)
Definition M (A : Type) : Type := Grid -> outcome A * Grid.

Definition ret {A : Type} (a : A) : M A := fun g => (Ret a, g).

Definition throw {A : Type} (e : Exn) : M A := fun g => (Throw e, g).

Definition bind {A B : Type} (m : M A) (k : A -> M B) : M B :=
  fun g =>
    match m g with
    | (Ret a, g') => k a g'
    | (Throw e, g') => (Throw e, g')
    end.

Notation "'do' x <- m ; k" := (bind m (fun x => k))
  (at level 10, x name, m at level 100, k at level 200).
Notation "'run' m ; k" := (bind m (fun _ => k))
  (at level 10, m at level 100, k at level 200).

(** A step that only writes. *)
Definition modify (f : Grid -> Grid) : M unit := fun g => (Ret tt, f g).

(** Lifting a pure computation that may throw. *)
Definition lift {A : Type} (o : outcome A) : M A := fun g => (o, g).

Definition when (b : bool) (m : M unit) : M unit := if b then m else ret tt.

(** Calling a handler of the event bus leaves an entry in the trace. *)
Definition emit (e : Event) : M unit := modify (fun g => set_trace (trace g ++ [e]) g).

(** The records of the array the grid refers to as [storage.cache]. *)
Definition cache_records (g : Grid) : list JsVal := default [] (heap g !! cache g).

(** A reference no array of the heap uses yet. *)
Definition fresh_ref (g : Grid) : nat := fresh (dom (heap g)).

(** [self.state(value)] as a setter, and [setBuildState]. *)
Definition state (value : GridState) : M unit := modify (set_gridState value).

Definition setBuildState (value : bool) : M unit :=
  state (if value then ABI7_GRID_STATE_BUILD else ABI7_GRID_STATE_NORMAL).

(** [stateIsNormal(options)]: the three options default to [true]. *)
Record NormalOptions := {
  checkVisible : bool;
  checkScroll : bool;
  checkReady : bool
}.

Definition check_all : NormalOptions :=
  {| checkVisible := true; checkScroll := true; checkReady := true |}.

Definition stateIsNormal (cfg : NormalOptions) (g : Grid) : bool :=
  let ok := (if checkReady cfg then ready g else true)
            && (if checkVisible cfg then visible g else true)
            && (if checkScroll cfg then negb (inScroll g) else true) in
  GridState_eqb (gridState g) ABI7_GRID_STATE_NORMAL && ok.

(** ** Position solver: [findNextPos] *)

(** The backward scan [for (i = index - 1; i >= 0; i--)], [n] being
    [i + 1]: it collects the entries met with a left offset not yet in
    [arr], and stops once [arr] holds [column_count] of them. *)
Fixpoint scan_back (n : nat) (store_items : list (option Entry)) (column_count : Z)
    (arr : list Entry) : outcome (list Entry) :=
  match n with
  | O => Ret arr
  | S i =>
      match entry_at store_items (Z.of_nat i) with
      | None => Throw (TypeError "Cannot read properties of undefined (reading 'left')")
      | Some store =>
          let arr :=
            if existsb (fun a => Qeq_bool (e_left a) (e_left store)) arr then arr
            else arr ++ [store] in
          if Z.of_nat (length arr) >=? column_count then Ret arr
          else scan_back i store_items column_count arr
      end
  end.

(** The comparator [(a, b) => b.bottom - a.bottom]. *)
Definition by_bottom_desc (a b : Entry) : num := num_sub (e_bottom b) (e_bottom a).

Definition findNextPos (g : Grid) : outcome Pos :=
  let config := config g in
  let index := cursor_pos g in
  let rows := rows (space config) in
  if index <? column_count (sizing g) then
    Ret {| pos_left := (inject_Z (index * (cols (space config) + item_width (sizing g)))
                        + g_left (sizing g))%Q;
           pos_top := num_add (Num (pad_top (padding config) - rows)) (Num rows);
           pos_column := index |}
  else if 1 <? column_count (sizing g) then
    match scan_back (Z.to_nat index) (storage_items g) (column_count (sizing g)) [] with
    | Throw e => Throw e
    | Ret arr =>
        match last (Array_sort by_bottom_desc arr) with
        | None => Throw (TypeError "Cannot read properties of undefined (reading 'left')")
        | Some arr =>
            Ret {| pos_left := e_left arr;
                   pos_top := num_add (e_bottom arr) (Num rows);
                   pos_column := e_column arr |}
        end
    end
  else if 0 <? index then
    match entry_at (storage_items g) (index - 1) with
    | None => Throw (TypeError "Cannot read properties of undefined (reading 'left')")
    | Some tmp =>
        Ret {| pos_left := e_left tmp;
               pos_top := num_add (e_bottom tmp) (Num rows);
               pos_column := 0 |}
    end
  else
    Ret {| pos_left := 0; pos_top := num_add (Num 0) (Num rows); pos_column := 0 |}.

(** ** Item objects *)

(** Strict equality of two numbers: [NaN] equals nothing. *)
Definition num_eqb (a b : num) : bool :=
  match a, b with
  | Num x, Num y => x =? y
  | _, _ => false
  end.

(** [item.setPosition(x, y)]: an argument that is not a number keeps the
    coordinate. *)
Definition item_setPosition (x : option Q) (y : option num) (self : ItemView) : ItemView :=
  let x := default (item_x self) x in
  let y := default (item_y self) y in
  if negb (Qeq_bool (item_x self) x) || negb (num_eqb (item_y self) y) then
    {| item_index := item_index self; loadIndex := loadIndex self;
       item_x := x; item_y := y; item_column := item_column self;
       valHeight := valHeight self; valWidth := valWidth self |}
  else self.

(** [item.reset()]. *)
Definition item_reset (self : ItemView) : ItemView :=
  {| item_index := item_index self; loadIndex := loadIndex self;
     item_x := 0; item_y := Num 0; item_column := 0;
     valHeight := 0; valWidth := 0 |}.

Definition item_set_index (i : Z) (self : ItemView) : ItemView :=
  {| item_index := i; loadIndex := loadIndex self;
     item_x := item_x self; item_y := item_y self; item_column := item_column self;
     valHeight := valHeight self; valWidth := valWidth self |}.

Definition item_set_valHeight (h : Z) (self : ItemView) : ItemView :=
  {| item_index := item_index self; loadIndex := loadIndex self;
     item_x := item_x self; item_y := item_y self; item_column := item_column self;
     valHeight := h; valWidth := valWidth self |}.

Definition item_set_valWidth (w : Z) (self : ItemView) : ItemView :=
  {| item_index := item_index self; loadIndex := loadIndex self;
     item_x := item_x self; item_y := item_y self; item_column := item_column self;
     valHeight := valHeight self; valWidth := w |}.

(** [i.index--]. *)
Definition item_decrement_index (self : ItemView) : ItemView :=
  item_set_index (item_index self - 1) self.

(** Binding an item in [loadData]: [loadIndex], [index] and [column]. *)
Definition item_bind (li i c : Z) (self : ItemView) : ItemView :=
  {| item_index := i; loadIndex := li;
     item_x := item_x self; item_y := item_y self; item_column := c;
     valHeight := valHeight self; valWidth := valWidth self |}.

(** Writing to the item object [id]. *)
Definition update_view (id : nat) (f : ItemView -> ItemView) (g : Grid) : Grid :=
  set_views (alter f id (views g)) g.

(** The index an item object is bound to. *)
Definition index_of (g : Grid) (id : nat) : option Z := item_index <$> views g !! id.

(** [getItemByIndex(value)]: the first item of [self.items] bound to
    [value]. *)
Definition getItemByIndex (g : Grid) (value : Z) : option nat :=
  List.find (fun id => match index_of g id with
                       | Some i => i =? value
                       | None => false
                       end) (items g).

(** ** Callbacks, animation *)

(** Running a completion callback.  The reconciliation pass [checkItems]
    that [refresh] ends with reads the rectangles of the elements; the
    embedding records that it is entered. *)
Fixpoint run_callback (cb : Callback) : M unit :=
  match cb with
  | CbUndefined => ret tt
  | CbUser tag => emit (EvCallback tag)
  | CbItemDelete data index =>
      fun g => when (onItemDelete (events (config g)))
                    (emit (EvItemDelete (PArray data) index)) g
  | CbRecalcItemsDone fdone =>
      run setBuildState false;
      run_callback fdone
  | CbUpdateItemsPositionDone fdone =>
      run setBuildState false;
      run_callback fdone
  | CbRefreshDone fdone =>
      run setBuildState false;
      emit (EvCheckItems fdone)
  | CbInitLoadData fdone =>
      run modify (set_ready true);
      run state ABI7_GRID_STATE_NORMAL;
      run (fun g => when (onReady (events (config g))) (emit EvReady) g);
      run run_callback fdone;
      modify (fun g => set_sizing
        {| g_left := g_left (sizing g); column_count := column_count (sizing g);
           item_width := item_width (sizing g); grid_width := grid_width (sizing g);
           calc_width := calc_width (sizing g);
           item_aspectRatio := item_aspectRatio (sizing g);
           item_height := item_height (sizing g);
           itemsCount := Z.of_nat (length (items g));
           dataBlockSize := dataBlockSize (sizing g) |} g)
  | CbDataLoaded fdone =>
      (* the code tests [onDataLoadEnd] and calls [onDataLoadStart] *)
      run (fun g =>
             if onDataLoadEnd (events (config g)) then
               if onDataLoadStart (events (config g)) then emit EvDataLoadStart g
               else throw (TypeError "self.events.onDataLoadStart is not a function") g
             else ret tt g);
      run_callback fdone
  | CbItemInsertLoaded data fdone =>
      modify (fun g => set_timers (timers g ++ [TimerItemInsert data fdone]) g)
  | CbItemInsertMoved data fdone =>
      run (fun g => when (onItemInsert (events (config g))) (emit (EvItemInsert data)) g);
      run_callback fdone
  end.

(** [animation(items, value, fdone)]: the class toggling is paint; what
    remains is when [fdone] runs.  With animation disabled in the
    configuration nothing runs at all. *)
Definition animation (value : bool) (fdone : Callback) : M unit :=
  fun g =>
    if enable (animation_cfg (config g)) then
      if value then run_callback fdone g
      else modify (fun g => set_timers (timers g ++ [TimerAnimation fdone]) g) g
    else ret tt g.

(** ** [recalcItems] *)

Record RecalcOptions := {
  itemsUpdate : bool;
  itemsToSkip : list Z;
  opt_animation : option bool   (* [None]: the default, [config.animation.enable] *)
}.

Definition includes (l : list Z) (i : Z) : bool := existsb (Z.eqb i) l.

(** The loop [for (i = pos; i < storage.items.length; i++)], [n] being
    the number of indices left.  Returns [false] when it leaves the
    function through [if (obj === undefined) return]. *)
Fixpoint recalc_loop (n : nat) (i : Z) (cfg : RecalcOptions) : M bool :=
  match n with
  | O => ret true
  | S n' =>
      run modify (set_cursor_pos i);
      do nxt <- (fun g => lift (findNextPos g) g);
      do obj <- (fun g => ret (entry_at (storage_items g) i) g);
      match obj with
      | None => ret false
      | Some obj =>
          run modify (fun g => set_storage_items
                (<[Z.to_nat i := Some {| e_left := pos_left nxt;
                                         e_top := pos_top nxt;
                                         e_height := e_height obj;
                                         e_bottom := num_add_height (pos_top nxt) (e_height obj);
                                         e_column := pos_column nxt |}]> (storage_items g)) g);
          run when (itemsUpdate cfg && negb (includes (itemsToSkip cfg) i))
                (modify (fun g =>
                   match getItemByIndex g i with
                   | Some item =>
                       update_view item
                         (item_setPosition (Some (pos_left nxt)) (Some (pos_top nxt))) g
                   | None => g
                   end));
          recalc_loop n' (i + 1) cfg
      end
  end.

(** [recalcItems(pos, options, fdone)], [pos] an integer.  The option
    [funcPreCalc] and the call of [updateHeight] only paint. *)
Definition recalcItems (pos : Z) (options : RecalcOptions) (fdone : Callback) : M unit :=
  fun g =>
    if negb (stateIsNormal check_all g) then ret tt g
    else
      let cfg_animation :=
        default (enable (animation_cfg (config g))) (opt_animation options) in
      (run setBuildState true;
       run when cfg_animation (animation true CbUndefined);
       do finished <- recalc_loop (Z.to_nat (Z.of_nat (length (storage_items g)) - pos))
                                   pos options;
       if finished : bool then
         if cfg_animation then animation false (CbRecalcItemsDone fdone)
         else run_callback (CbRecalcItemsDone fdone)
       else ret tt) g.

(** [item.setSize(width, height)] on the item object [id]; [None] is an
    argument that is not a number. *)
Definition setSize (id : nat) (width height : option Z) : M unit :=
  fun g =>
    match views g !! id with
    | None => ret tt g
    | Some self =>
        (run when (match width with
                   | Some w => negb (w =? valWidth self)
                   | None => false
                   end)
               (modify (update_view id (item_set_valWidth (default 0 width))));
         match height with
         | Some h =>
             if h =? valHeight self then ret tt
             else
               run modify (update_view id (item_set_valHeight h));
               (fun g =>
                  if stateIsNormal check_all g then
                    (run modify (fun g =>
                           match entry_at (storage_items g) (item_index self) with
                           | Some obj =>
                               set_storage_items
                                 (<[Z.to_nat (item_index self) :=
                                      Some {| e_left := e_left obj; e_top := e_top obj;
                                              e_height := Some h;
                                              e_bottom := num_add (e_top obj) (Num h);
                                              e_column := e_column obj |}]>
                                    (storage_items g)) g
                           | None => g
                           end);
                     recalcItems (item_index self + 1)
                       {| itemsUpdate := true; itemsToSkip := [];
                          opt_animation := Some false |} CbUndefined) g
                  else ret tt g)
         | None => ret tt
         end) g
    end.

(** ** [item.remove()] *)

Definition item_remove (id : nat) : M unit :=
  fun g =>
    if negb (stateIsNormal check_all g) then ret tt g
    else
      match views g !! id with
      | None => ret tt g
      | Some self =>
          let index := item_index self in
          let '(rest, data) := Array_splice1 index (cache_records g) in
          (run setBuildState true;
           run modify (fun g =>
                 let items := List.filter (fun i => match index_of g i with
                                                    | Some k => index <? k
                                                    | None => false
                                                    end) (items g) in
                 foldr (fun i => update_view i item_decrement_index) g items);
           run modify (fun g => set_storage_items (Array_splice1 index (storage_items g)).1 g);
           run modify (fun g => set_heap (<[cache g := rest]> (heap g)) g);
           run modify (update_view id
                 (item_setPosition None (Some (Num (- valHeight self)))));
           run modify (update_view id (item_set_index (-1)));
           run setBuildState false;
           recalcItems index
             {| itemsUpdate := true; itemsToSkip := [-1]; opt_animation := None |}
             (CbItemDelete data index)) g
      end.

(** ** [recalcStorageItems] *)

(** Truthiness of [self.item_height]: a number other than zero. *)
Definition truthy (h : option Z) : bool :=
  match h with
  | Some z => negb (z =? 0)
  | None => false
  end.

(** [typeof v === 'number' && v > 0 ? v : false]. *)
Definition positive_hint (v : option Z) : option Z :=
  match v with
  | Some z => if 0 <? z then Some z else None
  | None => None
  end.

Definition positive_ratio (v : option Q) : option Q :=
  match v with
  | Some r => if Qle_bool r 0 then None else Some r
  | None => None
  end.

(** The height [recalcStorageItems] gives the entry of record [dat] placed
    at [obj]; [None] when no branch assigns [obj.height]. *)
Definition storage_height (g : Grid) (obj : Pos) (dat : JsVal) : outcome (option Z) :=
  match get_abi7height dat with
  | Throw e => Throw e
  | Ret h =>
      match get_abi7aspectRatio dat with
      | Throw e => Throw e
      | Ret r =>
          if truthy (item_height (sizing g)) then Ret (item_height (sizing g))
          else match positive_ratio r with
               | Some ratio => Ret (Some (Math_round (inject_Z (item_width (sizing g)) / ratio)%Q))
               | None =>
                   match positive_hint h with
                   | Some height => Ret (Some height)
                   | None =>
                       match funcItemCalc (config g) with
                       | Some f => Ret (Some (f (pos_left obj) (pos_top obj) (pos_column obj)
                                                (item_width (sizing g)) dat))
                       | None => Ret None
                       end
                   end
               end
      end
  end.

(** The loop [for (i = 0; i < count; i++)], [n] being the number of
    indices left. *)
Fixpoint recalcStorage_loop (n : nat) (i : Z) : M unit :=
  match n with
  | O => ret tt
  | S n' =>
      run modify (set_cursor_pos i);
      do obj <- (fun g => lift (findNextPos g) g);
      do height <- (fun g => lift (storage_height g obj
                                     (default VUndefined (lookupZ (cache_records g) i))) g);
      run modify (fun g => set_storage_items
            (storage_items g ++ [Some {| e_left := pos_left obj;
                                         e_top := pos_top obj;
                                         e_height := height;
                                         e_bottom := num_add_height (pos_top obj) height;
                                         e_column := pos_column obj |}]) g);
      recalcStorage_loop n' (i + 1)
  end.

(** [recalcStorageItems(count, fdone)]; [fdone] is run in place. *)
Definition recalcStorageItems (count : option Z) (fdone : M unit) : M unit :=
  fun g =>
    let count :=
      match count with
      | Some c => if c =? 0 then Z.of_nat (length (cache_records g)) else c
      | None => Z.of_nat (length (cache_records g))
      end in
    (run modify (set_storage_items []);
     run recalcStorage_loop (Z.to_nat count) 0;
     fdone) g.

(** [initSizingParams()]. *)
Definition initSizingParams : M unit :=
  fun g =>
    let s := sizing_of (config g) (clientWidth g) in
    (run modify (set_sizing s);
     when (onSizeCalc (events (config g)))
          (emit (EvSizeCalc (column_count s) (calc_width s) (grid_width s) (item_width s)))) g.

(** ** [refresh] and [updateItemsPosition] *)

(** [Math.min.apply(null, items.screen_all.map(i => i.index))]: [None] is
    [Infinity]. *)
Definition min_index (g : Grid) (ids : list nat) : option Z :=
  foldr (fun id acc =>
           match index_of g id, acc with
           | Some i, Some m => Some (Z.min i m)
           | Some i, None => Some i
           | None, _ => acc
           end) None ids.

(** The first [forEach] of the closure of [refresh], from position [i] of
    [items.all]. *)
Fixpoint refresh_resize (ids : list nat) (i : Z) (min_screen : option Z) : M unit :=
  match ids with
  | [] => ret tt
  | item :: ids' =>
      do obj <- (fun g => ret (match index_of g item with
                               | Some k => entry_at (storage_items g) k
                               | None => None
                               end) g);
      run match obj with
          | Some obj =>
              run (fun g => setSize item (Some (item_width (sizing g))) (e_height obj) g);
              modify (update_view item (item_setPosition None (Some (e_top obj))))
          | None => ret tt
          end;
      run match min_screen, obj with
          | Some m, None =>
              if m =? i
              then throw (TypeError "Cannot read properties of undefined (reading 'top')")
              else ret tt
          | _, _ => ret tt
          end;
      refresh_resize ids' (i + 1) min_screen
  end.

(** [items.forEach(item => { obj = storage.items[item.index];
    if (obj) item.setPosition(obj.left, obj.top) })]. *)
Definition place_items (ids : list nat) : M unit :=
  modify (fun g =>
    foldl (fun g item =>
             match index_of g item with
             | Some k =>
                 match entry_at (storage_items g) k with
                 | Some obj => update_view item
                                 (item_setPosition (Some (e_left obj)) (Some (e_top obj))) g
                 | None => g
                 end
             | None => g
             end) g ids).

(** [refresh(fdone)]. *)
Definition refresh (fdone : Callback) : M unit :=
  fun g =>
    if negb (stateIsNormal check_all g) then ret tt g
    else
      (run setBuildState true;
       run initSizingParams;
       do min_screen <- (fun g => ret (min_index g (screen_all g)) g);
       do count <- (fun g => ret (Z.of_nat (length (storage_items g))) g);
       recalcStorageItems (Some count)
         (run (fun g => refresh_resize (items g) 0 min_screen g);
          run animation true CbUndefined;
          run (fun g => place_items (items g) g);
          animation false (CbRefreshDone fdone))) g.

(** [updateItemsPosition(items, fdone)], called with [self.items]. *)
Definition updateItemsPosition (fdone : Callback) : M unit :=
  fun g =>
    if negb (stateIsNormal check_all g) then ret tt g
    else
      (run setBuildState true;
       run animation true CbUndefined;
       run (fun g => place_items (items g) g);
       animation false (CbUpdateItemsPositionDone fdone)) g.

(** ** Paging: [loadData] *)

Definition default_load_options : LoadOptions :=
  {| setX := true; setY := true; reset := true |}.

(** The array [self.buffer] denotes. *)
Definition buffer_list (g : Grid) : list nat :=
  match buffer g with
  | BufferIsItems => items g
  | BufferOwn l => l
  end.

(** The height [loadData] gives the item loaded with [new_data], the client
    height of the filled element being [clientHeight]. *)
Definition load_height (g : Grid) (new_data : JsVal) (clientHeight : Z) : outcome Z :=
  if truthy (item_height (sizing g)) then Ret (default 0 (item_height (sizing g)))
  else
    match get_abi7aspectRatio new_data with
    | Throw e => Throw e
    | Ret r =>
        match positive_ratio r with
        | Some ratio => Ret (Math_round (inject_Z (item_width (sizing g)) / ratio)%Q)
        | None =>
            match get_abi7height new_data with
            | Throw e => Throw e
            | Ret h =>
                match positive_hint h with
                | Some height => Ret height
                | None => Ret clientHeight
                end
            end
        end
    end.

(** The message [loadData] throws without a content binder; it has
    double quotes around the name of the function. *)
Definition funcItemLoad_missing : string :=
  "Please define the function " +:+ String (Ascii.ascii_of_nat 34) "funcItemLoad"
    +:+ String (Ascii.ascii_of_nat 34) EmptyString.

(** The loop [for (i = 0; i < count; i++)] of [dataFunc], [n] being the
    number of items left. *)
Fixpoint dataFunc_loop (n : nat) (i : Z) (data : list JsVal) (cfg : LoadOptions) : M unit :=
  match n with
  | O => ret tt
  | S n' =>
      do cached <- (fun g => ret (entry_at (storage_items g) (cursor_pos g)) g);
      do new_pos <- match cached with
                    | Some e => ret {| pos_left := e_left e; pos_top := e_top e;
                                       pos_column := e_column e |}
                    | None => fun g => lift (findNextPos g) g
                    end;
      do new_item <- (fun g =>
                        match lookupZ (buffer_list g) i with
                        | Some id => ret id g
                        | None => throw (TypeError "Cannot read properties of undefined (reading 'body')") g
                        end);
      let new_data := default VUndefined (lookupZ data i) in
      run when (reset cfg) (modify (update_view new_item item_reset));
      run modify (fun g => update_view new_item (item_bind i (cursor_pos g) (pos_column new_pos)) g);
      run modify (update_view new_item
            (item_setPosition (if setX cfg then Some (pos_left new_pos) else None)
                              (if setY cfg then Some (pos_top new_pos) else None)));
      run (fun g => setSize new_item (Some (item_width (sizing g))) None g);
      do clientHeight <- (fun g =>
                            match funcItemLoad (config g) with
                            | Some f => ret (f (item_width (sizing g)) new_data) g
                            | None => throw (ThrowString funcItemLoad_missing) g
                            end);
      do itemHeight <- (fun g => lift (load_height g new_data clientHeight) g);
      run setSize new_item None (Some itemHeight);
      run when (negb (bool_decide (is_Some cached)))
            (modify (fun g => set_storage_items
               (Array_set (Z.to_nat (cursor_pos g))
                  {| e_left := pos_left new_pos;
                     e_top := pos_top new_pos;
                     e_height := Some itemHeight;
                     e_bottom := num_add (pos_top new_pos) (Num itemHeight);
                     e_column := pos_column new_pos |} (storage_items g)) g));
      run modify (fun g => set_cursor_pos (cursor_pos g + 1) g);
      dataFunc_loop n' (i + 1) data cfg
  end.

(** The closure [dataFunc] of [loadData]. *)
Definition dataFunc (start count : Z) (cfg : LoadOptions) (fdone : Callback)
    (data : list JsVal) : M unit :=
  run (fun g => when (onDataLoadEnd (events (config g))) (emit (EvDataLoadEnd data)) g);
  do count <- (fun g => ret (Z.min (Z.min count (Z.of_nat (length data)))
                                   (Z.of_nat (length (buffer_list g)))) g);
  run dataFunc_loop (Z.to_nat count) 0 data cfg;
  run when (0 <? count)
        (run modify (set_cursor_begin start);
         modify (fun g => set_cursor_end (cursor_pos g) g));
  run modify (fun g => set_bof ((cursor_begin g =? 0) || (start =? 0)) g);
  run modify (fun g => set_eof (eof_data g
                                && (Z.of_nat (length (cache_records g)) - 1 <=? cursor_end g)) g);
  run modify (set_buffer (BufferOwn []));
  run setBuildState false;
  (* fdone({ count }) *)
  run_callback fdone.

(** The closure [func] of [loadData], run on the page a fetch returned. *)
Definition loadData_func (start count : Z) (cfg : LoadOptions) (fdone : Callback)
    (data : list JsVal) : M unit :=
  run modify (fun g => set_eof_data (Z.of_nat (length data) <? dataBlockSize (sizing g)) g);
  (* storage.cache = storage.cache.concat(data): a new array *)
  run modify (fun g =>
        let r := fresh_ref g in
        set_cache r (set_heap (<[r := cache_records g ++ data]> (heap g)) g));
  fun g => dataFunc start count cfg fdone (Array_slice start (start + count) (cache_records g)) g.

(** Whether [loadData] has to call the data source. *)
Definition must_fetch (g : Grid) (start count : Z) : bool :=
  negb ((start + count <=? Z.of_nat (length (cache_records g))) || eof_data g).

(** [loadData(start, count, options, fdone)]; [None] is a [start] or
    [count] that is [false]. *)
Definition loadData (start count : option Z) (cfg : LoadOptions) (fdone : Callback) : M unit :=
  run setBuildState true;
  (fun g =>
     let start := default 0 start in
     let count := match count with
                  | Some c => if c =? 0 then itemsCount (sizing g) else c
                  | None => itemsCount (sizing g)
                  end in
     let start := Z.max 0 start in
     let count := Z.min count (Z.of_nat (length (buffer_list g))) in
     (run modify (set_cursor_pos start);
      run (fun g => when (onDataLoadStart (events (config g))) (emit EvDataLoadStart) g);
      fun g =>
        if must_fetch g start count then
          match funcLoadData (config g) with
          | None => throw (TypeError "config.funcLoadData is not a function") g
          | Some f =>
              let from := start + (Z.of_nat (length (cache_records g)) - start) in
              (run emit (EvFuncLoadData from (dataBlockSize (sizing g)));
               match f from (dataBlockSize (sizing g)) with
               | FetchArray data => loadData_func start count cfg fdone data
               | FetchPromise data =>
                   modify (fun g => set_timers
                             (timers g ++ [TimerPromise data start count cfg fdone]) g)
               | FetchOther => throw (ThrowString "Unexpected data format")
               end) g
          end
        else dataFunc start count cfg fdone
               (Array_slice start (start + count) (cache_records g)) g) g).

(** ** Datasets: [initProps], [setData], [initLoadData], [data] *)

(** [initProps()].  The grid is taken to have no child elements of its
    own, so the configuration is left as it is. *)
Definition initProps : M unit :=
  run modify (set_gridState ABI7_GRID_STATE_BUILD);
  run modify (fun g =>
        let r := fresh_ref g in
        set_cache r (set_heap (<[r := []]> (heap g)) g));
  run modify (set_storage_items []);
  run modify (set_ready false);
  run modify (set_inScroll false);
  run modify (set_cursor_pos 0);
  run modify (set_bof true);
  run modify (set_eof false);
  run modify (set_eof_data false);
  run modify (set_cursor_begin 0);
  modify (set_cursor_end 0).

(** [setData(data)]: the reference itself is stored. *)
Definition setData (data : nat) : M unit :=
  run modify (fun g =>
        let r := fresh_ref g in
        set_cache r (set_heap (<[r := []]> (heap g)) g));
  run modify (set_storage_items []);
  run modify (set_cache data);
  modify (set_eof_data true).

(** [initLoadData(fdone)]. *)
Definition initLoadData (fdone : Callback) : M unit :=
  run modify (fun g => foldr (fun i => update_view i item_reset) g (items g));
  run modify (set_buffer BufferIsItems);
  loadData None None default_load_options (CbInitLoadData fdone).

(** The public [data(data, fdone)]. *)
Definition data (data : JsVal) (fdone : Callback) : M JsVal :=
  fun g =>
    if negb (stateIsNormal check_all g) then ret VUndefined g
    else
      match isArray data with
      | Some ref =>
          (run when (onDataLoadStart (events (config g))) (emit EvDataLoadStart);
           run initProps;
           run setData ref;
           run recalcStorageItems None (initLoadData (CbDataLoaded fdone));
           ret VUndefined) g
      | None =>
          if JsType_eqb (typeof data) TyUndefined then ret (VArray (cache g)) g
          else throw (ThrowString "Unexpected data format") g
      end.

(** ** [itemInsert] *)

(** [sortRev]: [(a, b) => b.index - a.index]. *)
Definition sortRev (g : Grid) (a b : nat) : num :=
  match index_of g a, index_of g b with
  | Some ia, Some ib => Num (ib - ia)
  | _, _ => NaN
  end.

(** The public [itemInsert(data, fdone)]. *)
Definition itemInsert (data : JsVal) (fdone : Callback) : M unit :=
  fun g =>
    if negb (stateIsNormal check_all g) then ret tt g
    else if negb (JsType_eqb (typeof data) TyObject) then
      throw (ThrowString "Data parameter must be an object") g
    else
      (run modify (fun g => set_heap (<[cache g := data :: cache_records g]> (heap g)) g);
       run modify (set_storage_items []);
       run modify (set_buffer BufferIsItems);
       run modify (fun g => set_items (Array_sort (sortRev g) (items g)) g);
       loadData None None {| setX := false; setY := true; reset := false |}
         (CbItemInsertLoaded data fdone)) g.

(** ** Timeouts and promise reactions *)

(** Running a queued callback. *)
Definition fire (t : Timer) : M unit :=
  match t with
  | TimerAnimation fdone => run_callback fdone
  | TimerItemInsert data fdone => updateItemsPosition (CbItemInsertMoved data fdone)
  | TimerPromise data start count cfg fdone => loadData_func start count cfg fdone data
  end.

(** Taking the oldest queued callback and running it. *)
Definition step (g : Grid) : outcome unit * Grid :=
  match timers g with
  | [] => (Ret tt, g)
  | t :: rest => fire t (set_timers rest g)
  end.

(** Running queued callbacks until none is left, at most [n] of them; an
    exception inside one is reported to nobody and the next one runs. *)
Fixpoint settle (n : nat) (g : Grid) : Grid :=
  match n with
  | O => g
  | S n' =>
      match timers g with
      | [] => g
      | _ => settle n' (step g).2
      end
  end.

(** * Notions used by the properties *)

(** An operation respects the relation [R] between the grid before and
    the grid after. *)
Definition preserves (R : Grid -> Grid -> Prop) {A : Type} (m : M A) : Prop :=
  forall g, R g (m g).2.

(** The configurations of the geometry scenario: padding 0 on all sides,
    widths 150 to 250, column spacing 10. *)
Definition geometry_scenario (cfg : Config) : Prop :=
  padding cfg = {| pad_top := 0; pad_left := 0; pad_right := 0; pad_bottom := 0 |}
  /\ minWidth (items_cfg cfg) = 150
  /\ maxWidth (items_cfg cfg) = 250
  /\ cols (space cfg) = 10.

(** ** A small grid to run the operations on *)

(** Two columns of width 250 in a container 1000 wide, a pool of four
    items, every handler listening, and a content binder whose elements
    are 100 high. *)
Definition example_config (animate : bool) : Config :=
  {| cfg_itemsCount := 4;
     cfg_dataBlockSize := 0;
     padding := {| pad_top := 0; pad_left := 0; pad_right := 0; pad_bottom := 0 |};
     space := {| cols := 10; rows := 5 |};
     items_cfg := {| aspectRatio := None; height := None;
                     minWidth := 150; maxWidth := 250 |};
     animation_cfg := {| enable := animate; duration := 400 |};
     maxColumns := 2;
     funcLoadData := None;
     funcItemLoad := Some (fun _ _ => 100);
     funcItemCalc := None;
     events := {| onDataLoadStart := true; onDataLoadEnd := true; onItemDelete := true;
                  onItemInsert := true; onReady := true; onSizeCalc := true |} |}.

Definition new_item : ItemView :=
  {| item_index := 0; loadIndex := 0; item_x := 0; item_y := Num 0;
     item_column := 0; valHeight := 0; valWidth := 0 |}.

(** A record with a height hint. *)
Definition record (id : nat) (h : Z) : JsVal :=
  VObject {| abi7height := Some h; abi7aspectRatio := None; payload := id |}.

(** The caller's array, kept at reference 7. *)
Definition example_records : list JsVal :=
  [record 0 100; record 1 50; record 2 70; record 3 30; record 4 10; record 5 20].

(** The grid once rendered over an empty dataset: ready, visible and in
    the normal state. *)
Definition example_grid (animate : bool) : Grid :=
  {| config := example_config animate;
     clientWidth := 1000;
     screen_all := [];
     heap := {[ 0%nat := []; 7%nat := example_records ]};
     gridState := ABI7_GRID_STATE_NORMAL;
     ready := true;
     visible := true;
     inScroll := false;
     sizing := sizing_of (example_config animate) 1000;
     cache := 0%nat;
     storage_items := [];
     views := [new_item; new_item; new_item; new_item];
     items := [0; 1; 2; 3]%nat;
     buffer := BufferOwn [];
     cursor_pos := 0;
     cursor_begin := 0;
     cursor_end := 0;
     bof := true;
     eof := false;
     eof_data := false;
     timers := [];
     trace := [] |}.

(** The same grid after [data(example_records)]. *)
Definition example_loaded (animate : bool) : Grid :=
  (data (VArray 7) CbUndefined (example_grid animate)).2.

(** ** The choice of [findNextPos] *)

(** The columns the backward scan of [findNextPos] finds below
    [cursor_pos], in the order it meets them. *)
Definition scanned_columns (g : Grid) : outcome (list Entry) :=
  scan_back (Z.to_nat (cursor_pos g)) (storage_items g) (column_count (sizing g)) [].

(** Every index below [cursor_pos] has an entry with a numeric bottom. *)
Definition resolved_below (g : Grid) : Prop :=
  forall j, 0 <= j < cursor_pos g ->
    exists e z, entry_at (storage_items g) j = Some e /\ e_bottom e = Num z.

Definition same_left (a b : Entry) : Prop := (e_left a == e_left b)%Q.

(** [arr] holds, under pairwise different left offsets, entries below
    [index] that are each the latest one at their left offset. *)
Definition recent_columns (store_items : list (option Entry)) (index : nat)
    (arr : list Entry) : Prop :=
  (forall k a, arr !! k = Some a ->
     exists j, (j < index)%nat
       /\ entry_at store_items (Z.of_nat j) = Some a
       /\ forall j' b, (j < j' < index)%nat ->
            entry_at store_items (Z.of_nat j') = Some b -> ~ same_left b a)
  /\ (forall k1 k2 a b, arr !! k1 = Some a -> arr !! k2 = Some b ->
        same_left a b -> k1 = k2).

(** Which of several shortest columns is taken. *)
Inductive TieBreak :=
| FirstMet
| LastMet.

(** The bottom of [a] is a number above [b], strictly or not. *)
Definition bottom_above (strict : bool) (b : Z) (a : Entry) : Prop :=
  exists z, e_bottom a = Num z /\ if strict then b < z else b <= z.

(** [findNextPos] places the item under the scanned column [e] of smallest
    bottom, at that bottom plus the row spacing; of several columns with
    that bottom, [e] is the first or the last the scan met. *)
Definition places_on_shortest (tie : TieBreak) (g : Grid) : Prop :=
  exists arr1 e arr2 b,
    scanned_columns g = Ret (arr1 ++ e :: arr2)
    /\ e_bottom e = Num b
    /\ Forall (bottom_above (match tie with FirstMet => true | LastMet => false end) b) arr1
    /\ Forall (bottom_above (match tie with FirstMet => false | LastMet => true end) b) arr2
    /\ findNextPos g = Ret {| pos_left := e_left e;
                              pos_top := Num (b + rows (space (config g)));
                              pos_column := e_column e |}.

(** Two columns whose first row is level, asked for the place of index
    2. *)
Definition level_row_grid : Grid :=
  set_cursor_pos 2
    (set_storage_items
       [Some {| e_left := 245; e_top := Num 0; e_height := Some 100;
                e_bottom := Num 100; e_column := 0 |};
        Some {| e_left := 505; e_top := Num 0; e_height := Some 100;
                e_bottom := Num 100; e_column := 1 |}]
       (example_grid true)).

Definition numeric_bottom (a : Entry) : Prop := exists z, e_bottom a = Num z.

(** What the backward scan towards index 0 has established when [n]
    indices are left: [arr] is as [recent_columns] says, with entries from
    [n] on, and every entry from [n] on has its left offset in [arr]. *)
Definition scan_inv (store_items : list (option Entry)) (index n : nat)
    (arr : list Entry) : Prop :=
  (forall k a, arr !! k = Some a ->
     exists j, (n <= j < index)%nat
       /\ entry_at store_items (Z.of_nat j) = Some a
       /\ forall j' b, (j < j' < index)%nat ->
            entry_at store_items (Z.of_nat j') = Some b -> ~ same_left b a)
  /\ (forall k1 k2 a b, arr !! k1 = Some a -> arr !! k2 = Some b ->
        same_left a b -> k1 = k2)
  /\ (forall j b, (n <= j < index)%nat ->
        entry_at store_items (Z.of_nat j) = Some b ->
        exists a, a ∈ arr /\ same_left a b).

(** The grid after has the same [f] as the grid before. *)
Definition same_on {T : Type} (f : Grid -> T) : relation Grid :=
  fun g g' => f g' = f g.

(** The fields that repositioning items never writes. *)
Definition dataset (g : Grid) :=
  (config g, clientWidth g, screen_all g, heap g, cache g, eof_data g, items g, buffer g).

(** ** Paging *)

Definition is_fetch (e : Event) : bool :=
  match e with
  | EvFuncLoadData _ _ => true
  | _ => false
  end.

(** The calls made to the data source so far. *)
Definition fetches (g : Grid) : list Event := List.filter is_fetch (trace g).

(** The [start] and [count] [loadData] works with. *)
Definition load_start (start : option Z) : Z := Z.max 0 (default 0 start).

Definition load_count (g : Grid) (count : option Z) : Z :=
  Z.min (match count with
         | Some c => if c =? 0 then itemsCount (sizing g) else c
         | None => itemsCount (sizing g)
         end) (Z.of_nat (length (buffer_list g))).

(** A data source over [example_records]. *)
Definition example_source (start count : Z) : FetchResult :=
  FetchArray (Array_slice start (start + count) example_records).

(** The example grid with that source and pages of four records, before
    its first load. *)
Definition paged_grid : Grid :=
  let cfg :=
    {| cfg_itemsCount := 4;
       cfg_dataBlockSize := 4;
       padding := padding (example_config true);
       space := space (example_config true);
       items_cfg := items_cfg (example_config true);
       animation_cfg := animation_cfg (example_config true);
       maxColumns := 2;
       funcLoadData := Some example_source;
       funcItemLoad := funcItemLoad (example_config true);
       funcItemCalc := None;
       events := events (example_config true) |} in
  {| config := cfg;
     clientWidth := 1000;
     screen_all := [];
     heap := {[ 0%nat := [] ]};
     gridState := ABI7_GRID_STATE_BUILD;
     ready := false;
     visible := true;
     inScroll := false;
     sizing := sizing_of cfg 1000;
     cache := 0%nat;
     storage_items := [];
     views := [new_item; new_item; new_item; new_item];
     items := [0; 1; 2; 3]%nat;
     buffer := BufferIsItems;
     cursor_pos := 0;
     cursor_begin := 0;
     cursor_end := 0;
     bof := true;
     eof := false;
     eof_data := false;
     timers := [];
     trace := [] |}.

(** What paging reads and writes besides the layout. *)
Definition loaded_data (g : Grid) :=
  (config g, clientWidth g, heap g, cache g, eof_data g, dataBlockSize (sizing g), fetches g).

(** Once the dataset is complete ([eof_data]), paging leaves the cache
    alone: same reference, same heap. *)
Definition dataset_kept : relation Grid :=
  fun g g' => eof_data g = true ->
    eof_data g' = true /\ cache g' = cache g /\ heap g' = heap g.

(** ** Removal *)

(** The grid [remove] hands to [recalcItems]: indices above the removed
    one shifted down, the entry and the record spliced out, the item
    unbound, the state back to normal. *)
Definition item_remove_before_recalc (id : nat) (self : ItemView) (g : Grid) : Grid :=
  let index := item_index self in
  let g1 := set_gridState ABI7_GRID_STATE_BUILD g in
  let g2 := foldr (fun i => update_view i item_decrement_index) g1
              (List.filter (fun i => match index_of g1 i with
                                     | Some k => index <? k
                                     | None => false
                                     end) (items g1)) in
  let g3 := set_storage_items (Array_splice1 index (storage_items g2)).1 g2 in
  let g4 := set_heap (<[cache g3 := (Array_splice1 index (cache_records g)).1]> (heap g3)) g3 in
  let g5 := update_view id (item_setPosition None (Some (Num (- valHeight self)))) g4 in
  let g6 := update_view id (item_set_index (-1)) g5 in
  set_gridState ABI7_GRID_STATE_NORMAL g6.

(** The options [remove] passes to [recalcItems]. *)
Definition remove_options : RecalcOptions :=
  {| itemsUpdate := true; itemsToSkip := [-1]; opt_animation := None |}.

(** The loaded example grid after [remove] on item 1 and the end of the
    animation: item 1 is unbound, its handle is still in the pool. *)
Definition after_first_remove : Grid :=
  settle 5 (item_remove 1 (example_loaded true)).2.

(** What recomputing positions leaves alone: everything but the cursor,
    the entries and the coordinates of the items. *)
Definition recalc_frame (g : Grid) :=
  (config g, sizing g, heap g, cache g, gridState g, ready g, visible g, inScroll g,
   timers g, trace g, items g, item_index <$> views g).

(** No hole in the layout array. *)
Definition no_holes (l : list (option Entry)) : Prop := Forall is_Some l.

(** ** Refreshing *)

(** While the state is [BUILD], sizing and placing items leaves the state
    and the layout entries alone. *)
Definition building : relation Grid :=
  fun g g' => gridState g = ABI7_GRID_STATE_BUILD ->
    gridState g' = ABI7_GRID_STATE_BUILD /\ storage_items g' = storage_items g.

(** Two grids a layout pass cannot tell apart. *)
Definition same_layout_inputs (g1 g2 : Grid) : Prop :=
  config g1 = config g2 /\ sizing g1 = sizing g2
  /\ cache_records g1 = cache_records g2 /\ storage_items g1 = storage_items g2.

(** The number of entries [refresh] asks [recalcStorageItems] for. *)
Definition refresh_count (g : Grid) : Z :=
  if Z.of_nat (length (storage_items g)) =? 0 then Z.of_nat (length (cache_records g))
  else Z.of_nat (length (storage_items g)).

(** ** The layout invariant *)

(** Entry [e] is where [findNextPos] puts index [i] of [its] given the
    entries before it, its bottom is its top plus its height [h], and [h]
    plus the row spacing is positive. *)
Definition placed (g : Grid) (its : list (option Entry)) (i : nat) (e : Entry) : Prop :=
  exists p h,
    findNextPos (set_cursor_pos (Z.of_nat i) (set_storage_items its g)) = Ret p
    /\ e = {| e_left := pos_left p; e_top := pos_top p; e_height := Some h;
              e_bottom := num_add (pos_top p) (Num h); e_column := pos_column p |}
    /\ 0 < h + rows (space (config g)).

(** The first [n] entries of [its] are placed. *)
Definition laid_out_below (g : Grid) (its : list (option Entry)) (n : nat) : Prop :=
  forall i, (i < n)%nat -> exists e, its !! i = Some (Some e) /\ placed g its i e.

Definition laid_out (g : Grid) (its : list (option Entry)) : Prop :=
  laid_out_below g its (length its).

(** The invariant of the layout array: the bottom of every entry is its
    top plus its height, and within a column the tops increase strictly
    with the index. *)
Definition layout_invariant (its : list (option Entry)) : Prop :=
  (forall i e, its !! i = Some (Some e) ->
     exists t h, e_top e = Num t /\ e_height e = Some h /\ e_bottom e = Num (t + h))
  /\ (forall i j ei ej ti tj, (i < j)%nat ->
        its !! i = Some (Some ei) -> its !! j = Some (Some ej) ->
        e_column ei = e_column ej -> e_top ei = Num ti -> e_top ej = Num tj -> ti < tj).

(** Every cached record below [count] gets a height from
    [recalcStorageItems] -- the fixed item height, the aspect ratio, its own
    hint or the resolver -- and that height plus the row spacing is
    positive. *)
Definition heights_resolve (g : Grid) (count : nat) : Prop :=
  forall (i : nat) obj, (i < count)%nat ->
    exists h, storage_height g obj (default VUndefined (cache_records g !! i)) = Ret (Some h)
      /\ 0 < h + rows (space (config g)).

(** Every entry of [its] from index [from] on has a height, and that
    height plus the row spacing is positive. *)
Definition heights_kept (g : Grid) (its : list (option Entry)) (from : nat) : Prop :=
  forall i e, (from <= i)%nat -> its !! i = Some (Some e) ->
    exists h, e_height e = Some h /\ 0 < h + rows (space (config g)).

(** What is known of a placed entry at index [i]: numeric top and bottom,
    a column within the column count that fixes the left offset, and the
    column [i] itself in the first row. *)
Definition sound_entry (g : Grid) (i : nat) (e : Entry) : Prop :=
  exists t h,
    e_top e = Num t /\ e_height e = Some h /\ e_bottom e = Num (t + h)
    /\ 0 < h + rows (space (config g))
    /\ 0 <= e_column e < column_count (sizing g)
    /\ (e_left e == inject_Z (e_column e * (cols (space (config g)) + item_width (sizing g)))
                    + g_left (sizing g))%Q
    /\ (Z.of_nat i < column_count (sizing g) -> e_column e = Z.of_nat i).

(** The first [n] entries are sound, and among them tops increase within
    a column. *)
Definition sound_below (g : Grid) (its : list (option Entry)) (n : nat) : Prop :=
  (forall i, (i < n)%nat -> exists e, its !! i = Some (Some e) /\ sound_entry g i e)
  /\ (forall i j ei ej ti tj, (i < j < n)%nat ->
        its !! i = Some (Some ei) -> its !! j = Some (Some ej) ->
        e_column ei = e_column ej -> e_top ei = Num ti -> e_top ej = Num tj -> ti < tj).

(** The grid after one turn of the loop of [recalcItems] at index [i],
    [nxt] being the position found and [obj] the entry there. *)
Definition recalc_turn (cfg : RecalcOptions) (i : Z) (nxt : Pos) (obj : Entry) (g : Grid)
  : Grid :=
  let g1 := set_storage_items
              (<[Z.to_nat i := Some {| e_left := pos_left nxt;
                                       e_top := pos_top nxt;
                                       e_height := e_height obj;
                                       e_bottom := num_add_height (pos_top nxt) (e_height obj);
                                       e_column := pos_column nxt |}]> (storage_items g))
              (set_cursor_pos i g) in
  if itemsUpdate cfg && negb (includes (itemsToSkip cfg) i) then
    match getItemByIndex g1 i with
    | Some item =>
        update_view item (item_setPosition (Some (pos_left nxt)) (Some (pos_top nxt))) g1
    | None => g1
    end
  else g1.

(** The count [recalcStorageItems(count)] works with. *)
Definition storage_count (g : Grid) (count : option Z) : Z :=
  match count with
  | Some c => if c =? 0 then Z.of_nat (length (cache_records g)) else c
  | None => Z.of_nat (length (cache_records g))
  end.

(** ** Loading *)

(** [m], started where [P] holds, returns where [Q] holds or throws where
    [E] holds. *)
Definition hoare {A : Type} (P : Grid -> Prop) (m : M A) (Q : A -> Grid -> Prop)
    (E : Grid -> Prop) : Prop :=
  forall g, P g ->
    match m g with
    | (Ret a, g') => Q a g'
    | (Throw _, g') => E g'
    end.

(** While a load runs the state is [BUILD], the layout array is [its] and
    the cursor is at [c]. *)
Definition loading (its : list (option Entry)) (c : Z) (g : Grid) : Prop :=
  gridState g = ABI7_GRID_STATE_BUILD /\ storage_items g = its /\ cursor_pos g = c.

(** Every record of [arr] gets a height from [recalcStorageItems] in the
    grid [g], and that height plus the row spacing is positive. *)
Definition heights_resolve_for (g : Grid) (arr : list JsVal) : Prop :=
  forall (i : nat) obj, (i < length arr)%nat ->
    exists h, storage_height g obj (default VUndefined (arr !! i)) = Ret (Some h)
      /\ 0 < h + rows (space (config g)).

(** ** Items and entries *)

(** The item object [v] sits where the layout entry [obj] is. *)
Definition sits_at (v : ItemView) (obj : Entry) : Prop :=
  (item_x v == e_left obj)%Q /\ item_y v = e_top obj.

(** One turn of the [forEach] of [place_items]. *)
Definition place_item (g : Grid) (item : nat) : Grid :=
  match index_of g item with
  | Some k =>
      match entry_at (storage_items g) k with
      | Some obj => update_view item
                      (item_setPosition (Some (e_left obj)) (Some (e_top obj))) g
      | None => g
      end
  | None => g
  end.

(** ** Reordering by drag: [array_move_item] and [sortMove] *)

(** Truthiness of a value. *)
Definition JsVal_truthy (v : JsVal) : bool :=
  match v with
  | VUndefined | VNull => false
  | VBool b => b
  | VNumber z => negb (z =? 0)
  | VString s => match s with EmptyString => false | _ => true end
  | VObject _ | VArray _ | VFunction _ => true
  end.

(** Truthiness of an element of the layout array: a hole reads as
    [undefined]. *)
Definition entry_truthy (o : option Entry) : bool :=
  match o with
  | Some _ => true
  | None => false
  end.

(** [arr.splice(index, 0, x)]: the array with [x] put in at the relative
    index. *)
Definition Array_splice_insert {A : Type} (index : Z) (x : A) (l : list A) : list A :=
  let start := Z.to_nat (relative_index (Z.of_nat (length l)) index) in
  take start l ++ x :: drop start l.

(** [array_move_item(arr, pos1, pos2)]: [cut] is the first element of what
    [splice(pos1, 1)] removed, and is put back at [pos2] when truthy. *)
Definition array_move_item {A : Type} (truthy : A -> bool) (pos1 pos2 : Z) (arr : list A)
  : list A :=
  let '(rest, removed) := Array_splice1 pos1 arr in
  match head removed with
  | Some cut => if truthy cut then Array_splice_insert pos2 cut rest else rest
  | None => rest
  end.

(** The index [sortMove] gives an item bound to [id] when the dragged item
    goes from [elID] to [ovrID]. *)
Definition sortMove_shift (elID ovrID : Z) (self : ItemView) : ItemView :=
  let id := item_index self in
  if elID <? ovrID then
    if (elID <? id) && (id <=? ovrID) then item_set_index (id - 1) self else self
  else if ovrID <? elID then
    if (ovrID <=? id) && (id <? elID) then item_set_index (id + 1) self else self
  else self.

(** [sortMove] from the point where the item under the dragged one is
    known (from [let overItem = overEL.item] on): the record and the entry
    of the dragged [item] move to the index of [overItem], the items in
    between shift by one, and the positions are recomputed from the lower
    of the two indices.  [funcPreCalc] only paints. *)
Definition sortMove_reorder (item overItem : nat) : M unit :=
  fun g =>
    match views g !! overItem, views g !! item with
    | Some over, Some self =>
        let ovrID := item_index over in
        let elID := item_index self in
        let funcFin (id : Z) : M unit :=
          run modify (update_view item (item_set_index ovrID));
          recalcItems id {| itemsUpdate := true; itemsToSkip := [ovrID];
                            opt_animation := None |} CbUndefined in
        (run modify (fun g => set_heap
               (<[cache g := array_move_item JsVal_truthy elID ovrID (cache_records g)]>
                  (heap g)) g);
         run modify (fun g => set_storage_items
               (array_move_item entry_truthy elID ovrID (storage_items g)) g);
         run modify (update_view item (item_set_index (-1)));
         if elID <? ovrID then
           run modify (fun g => foldl (fun g i => update_view i (sortMove_shift elID ovrID) g)
                                  g (items g));
           funcFin elID
         else if ovrID <? elID then
           run modify (fun g => foldl (fun g i => update_view i (sortMove_shift elID ovrID) g)
                                  g (items g));
           funcFin ovrID
         else ret tt) g
    | _, _ => throw (TypeError "Cannot read properties of undefined (reading 'index')") g
    end.

(** ** [reload] *)

(** The options [reload] passes to [stateIsNormal]. *)
Definition check_but_visible : NormalOptions :=
  {| checkVisible := false; checkScroll := true; checkReady := true |}.

(** [reload(fdone)].  Setting the scroll offset is paint; the closure it
    gives [initLoadData] only calls [fdone]. *)
Definition reload (fdone : Callback) : M unit :=
  fun g =>
    if negb (stateIsNormal check_but_visible g) then ret tt g
    else
      (run initProps;
       run (fun g => when (negb (clientWidth g =? grid_width (sizing g))) initSizingParams g);
       initLoadData fdone) g.

(** While a load fills the layout array the state is [BUILD], the cursor
    is at [c] and the array has no entry at or past the cursor. *)
Definition filling (c : Z) (g : Grid) : Prop :=
  gridState g = ABI7_GRID_STATE_BUILD /\ cursor_pos g = c /\ 0 <= c
  /\ (length (storage_items g) <= Z.to_nat c)%nat.

(** ** The items around the viewport: [getItems] *)

(** Top and bottom of a bounding rectangle, in viewport coordinates. *)
Record Rect := {
  rect_top : Q;
  rect_bottom : Q
}.

Definition MAX_SAFE_INTEGER : Z := 9007199254740991.
Definition MIN_SAFE_INTEGER : Z := -9007199254740991.

Definition Qlt_bool (a b : Q) : bool := negb (Qle_bool b a).

(** [Math.abs] on a rational. *)
Definition Math_abs (q : Q) : Q := if Qle_bool 0 q then q else (- q)%Q.

(** What [getItems] returns; [gi_center] is [None] where the code returns
    an empty array. *)
Record Items := {
  gi_all : list nat;
  gi_screen : list nat;
  gi_screen_all : list nat;
  gi_screen_top : list nat;
  gi_screen_bot : list nat;
  gi_center : option nat;
  gi_off1 : list nat;
  gi_off2 : list nat;
  gi_off_all : list nat;
  gi_min_id : Z;
  gi_max_id : Z;
  gi_min_screen_id : Z;
  gi_max_screen_id : Z;
  gi_screenTop : Q
}.

(** [item.index] of the item object [id]. *)
Definition data_id (g : Grid) (id : nat) : Z := default 0 (index_of g id).

(** [sortFwd]: [(a, b) => a.index - b.index]. *)
Definition sortFwd (g : Grid) (a b : nat) : num :=
  match index_of g a, index_of g b with
  | Some ia, Some ib => Num (ia - ib)
  | _, _ => NaN
  end.

(** The loop that cuts [off1] at the first item whose index does not
    follow the index of the item before it; [prev] is that index. *)
Fixpoint consecutive_run (g : Grid) (prev : Z) (l : list nat) : list nat :=
  match l with
  | [] => []
  | x :: l' => if data_id g x =? prev + 1 then x :: consecutive_run g (data_id g x) l'
               else []
  end.

Definition cut_at_gap (g : Grid) (l : list nat) : list nat :=
  match l with
  | [] => []
  | x :: l' => x :: consecutive_run g (data_id g x) l'
  end.

(** [center.reduce((p, c) => (p.val > c.val) ? c : p)] from [p]. *)
Definition center_reduce (p : nat * Q) (l : list (nat * Q)) : nat * Q :=
  foldl (fun p c => if Qlt_bool c.2 p.2 then c else p) p l.

(** [getItems()], the scroll box spanning [screenTop] to [screenBottom] and
    the element of item [id] having the rectangle [rect id]. *)
Definition getItems (screenTop screenBottom : Q) (rect : nat -> Rect) (g : Grid) : Items :=
  let cols := inject_Z (cols (space (config g))) in
  let screen_center := ((screenBottom - screenTop) / 2)%Q in
  let t id := rect_top (rect id) in
  let b id := rect_bottom (rect id) in
  let off1 := List.filter (fun id => Qle_bool (b id) screenTop) (items g) in
  let off2 := List.filter (fun id => Qle_bool screenBottom (t id)) (items g) in
  let screen := List.filter (fun id => Qle_bool screenTop (t id)
                                       && Qle_bool (b id) screenBottom) (items g) in
  let center := (fun id => (id, Math_abs ((t id + (b id - t id) / 2) - screen_center)%Q))
                  <$> screen in
  let screen_top := List.filter (fun id => Qlt_bool screenTop (b id)
                                           && Qle_bool (t id) (screenTop + cols)%Q) (items g) in
  let screen_bot := List.filter (fun id => Qlt_bool (t id) screenBottom
                                           && Qle_bool (screenBottom - cols)%Q (b id))
                      (items g) in
  let screen_all :=
    List.filter (fun id => (Qle_bool screenTop (t id) && Qlt_bool (t id) screenBottom)
                           || (Qlt_bool screenTop (b id) && Qle_bool (b id) screenBottom)
                           || (Qle_bool (t id) screenTop && Qle_bool screenBottom (b id)))
      (items g) in
  let min_screen_id := foldl (fun m id => Z.min m (data_id g id)) MAX_SAFE_INTEGER screen_all in
  let max_screen_id := foldl (fun m id => Z.max m (data_id g id)) MIN_SAFE_INTEGER screen_all in
  let min_id := foldl (fun m id => Z.min m (data_id g id)) MAX_SAFE_INTEGER (items g) in
  let max_id := foldl (fun m id => Z.max m (data_id g id)) MIN_SAFE_INTEGER (items g) in
  let off1 := cut_at_gap g (Array_sort (sortFwd g) off1) in
  {| gi_all := items g;
     gi_screen := screen;
     gi_screen_all := screen_all;
     gi_screen_top := screen_top;
     gi_screen_bot := screen_bot;
     gi_center := match center with
                  | p :: ((_ :: _) as rest) => Some (center_reduce p rest).1
                  | _ => None
                  end;
     gi_off1 := off1;
     gi_off2 := off2;
     gi_off_all := off1 ++ off2;
     gi_min_id := min_id;
     gi_max_id := max_id;
     gi_min_screen_id := if min_screen_id =? MAX_SAFE_INTEGER then 0 else min_screen_id;
     gi_max_screen_id := if max_screen_id =? MIN_SAFE_INTEGER then 0 else max_screen_id;
     gi_screenTop := screenTop |}.

(** The rectangles of the four items of the loaded example grid, the
    container not being scrolled. *)
Definition example_rect (id : nat) : Rect :=
  match id with
  | 0%nat => {| rect_top := 0; rect_bottom := 100 |}
  | 1%nat => {| rect_top := 0; rect_bottom := 50 |}
  | 2%nat => {| rect_top := 55; rect_bottom := 125 |}
  | _ => {| rect_top := 105; rect_bottom := 135 |}
  end.

(** ** [item.height] *)

(** [store['abi7height'] = value], [store] being [storage.cache[index]]:
    the record written, or [None] when the property lands on an array or a
    function, which the heap does not track.  The code of a class runs in
    strict mode, where writing a property of a primitive throws. *)
Definition set_abi7height (z : Z) (store : option JsVal) : outcome (option JsVal) :=
  match store with
  | None | Some VUndefined | Some VNull =>
      Throw (TypeError "Cannot set properties of undefined or null")
  | Some (VObject r) =>
      Ret (Some (VObject {| abi7height := Some z;
                            abi7aspectRatio := abi7aspectRatio r;
                            payload := payload r |}))
  | Some (VBool _) | Some (VNumber _) | Some (VString _) =>
      Throw (TypeError "Cannot create property on a primitive value")
  | Some (VArray _) | Some (VFunction _) => Ret None
  end.

(** [item.data('abi7height', value)] with a number. *)
Definition item_data_abi7height (id : nat) (z : Z) : M unit :=
  fun g =>
    match views g !! id with
    | None => ret tt g
    | Some self =>
        match set_abi7height z (lookupZ (cache_records g) (item_index self)) with
        | Throw e => throw e g
        | Ret (Some v) =>
            modify (fun g => set_heap
                      (<[cache g := <[Z.to_nat (item_index self) := v]> (cache_records g)]>
                         (heap g)) g) g
        | Ret None => ret tt g
        end
    end.

(** [item.height(value)]: the getter for [undefined], the setter for a
    number, nothing for any other value. *)
Definition item_height_op (id : nat) (value : JsVal) : M JsVal :=
  fun g =>
    match views g !! id with
    | None => ret VUndefined g
    | Some self =>
        match value with
        | VUndefined => ret (VNumber (valHeight self)) g
        | VNumber z =>
            (run setSize id None (Some z);
             run item_data_abi7height id z;
             ret VUndefined) g
        | _ => ret VUndefined g
        end
    end.

(** ** Overlap of two elements, in [sortMove] *)

(** A rectangle as [getBoundingClientRect] returns it; its width and
    height are the differences of its sides. *)
Record DOMRect := {
  dr_left : Q;
  dr_top : Q;
  dr_right : Q;
  dr_bottom : Q
}.

Definition dr_width (r : DOMRect) : Q := (dr_right r - dr_left r)%Q.
Definition dr_height (r : DOMRect) : Q := (dr_bottom r - dr_top r)%Q.

Definition Qmin (a b : Q) : Q := if Qle_bool a b then a else b.

(** [calcOverlapArea(r1, r2)]. *)
Definition calcOverlapArea (r1 r2 : DOMRect) : Q :=
  let xo := Qmax 0 (Qmin (dr_right r1) (dr_right r2) - Qmax (dr_left r1) (dr_left r2))%Q in
  let yo := Qmax 0 (Qmin (dr_bottom r1) (dr_bottom r2) - Qmax (dr_top r1) (dr_top r2))%Q in
  (xo * yo)%Q.

(** The test of the filter of [sortMove]: the overlap is more than half of
    the smaller of the two areas. *)
Definition overlaps_by_half (r1 r2 : DOMRect) : bool :=
  let a1 := (dr_height r1 * dr_width r1)%Q in
  let a2 := (dr_height r2 * dr_width r2)%Q in
  Qlt_bool (Qmin a1 a2 / 2)%Q (calcOverlapArea r1 r2).

(** ** The columns [findNextPos] chooses from *)

(** Below [index], entry [a] sits at index [j] and no later entry has its
    left offset: [j] is where the column of [a] was used last. *)
Definition latest_at (store_items : list (option Entry)) (index j : nat) (a : Entry) : Prop :=
  (j < index)%nat
  /\ entry_at store_items (Z.of_nat j) = Some a
  /\ forall j' b, (j < j' < index)%nat ->
       entry_at store_items (Z.of_nat j') = Some b -> ~ same_left b a.

(** The more recently used column comes first in [arr]. *)
Definition most_recent_first (store_items : list (option Entry)) (index : nat)
    (arr : list Entry) : Prop :=
  forall k1 k2 a b j1 j2, (k1 < k2)%nat -> arr !! k1 = Some a -> arr !! k2 = Some b ->
    latest_at store_items index j1 a -> latest_at store_items index j2 b -> (j2 < j1)%nat.

(** [arr] holds the [column_count] most recently used column positions
    below [index], or all of them when fewer are in use: its entries are
    each the latest one at their left offset, under pairwise different left
    offsets and the most recently used first; there are no more than
    [column_count] of them; and an entry below [index] whose left offset is
    not among them can only exist when there are [column_count] of them, and
    then it lies before the place where each of them was used last. *)
Definition most_recent_columns (store_items : list (option Entry)) (index : nat)
    (column_count : Z) (arr : list Entry) : Prop :=
  recent_columns store_items index arr
  /\ most_recent_first store_items index arr
  /\ Z.of_nat (length arr) <= column_count
  /\ (forall j b, (j < index)%nat -> entry_at store_items (Z.of_nat j) = Some b ->
        (exists a, a ∈ arr /\ same_left a b)
        \/ (Z.of_nat (length arr) = column_count
            /\ forall a ja, a ∈ arr -> latest_at store_items index ja a -> (j < ja)%nat)).

(** ** A record that gets no height *)



(** The entries below [index] use at least [n] column positions: [n] of
    them have pairwise different left offsets. *)
Definition uses_columns (store_items : list (option Entry)) (index : nat) (n : Z) : Prop :=
  exists js : list nat,
    Z.of_nat (length js) = n
    /\ (forall k j, js !! k = Some j ->
          (j < index)%nat /\ is_Some (entry_at store_items (Z.of_nat j)))
    /\ (forall k1 k2 j1 j2 a b, js !! k1 = Some j1 -> js !! k2 = Some j2 ->
          entry_at store_items (Z.of_nat j1) = Some a ->
          entry_at store_items (Z.of_nat j2) = Some b ->
          same_left a b -> k1 = k2).

(** * Properties *)

(** ** Reasoning about operations *)

Lemma bind_ret {A B : Type} (m : M A) (k : A -> M B) (g g' : Grid) (a : A) :
  m g = (Ret a, g') -> bind m k g = k a g'.
Proof. intros H. unfold bind. by rewrite H. Qed.

Lemma bind_throw {A B : Type} (m : M A) (k : A -> M B) (g g' : Grid) (e : Exn) :
  m g = (Throw e, g') -> bind m k g = (Throw e, g').
Proof. intros H. unfold bind. by rewrite H. Qed.

Lemma bind_modify {B : Type} (f : Grid -> Grid) (k : unit -> M B) (g : Grid) :
  bind (modify f) k g = k tt (f g).
Proof. reflexivity. Qed.

(** A relation that every step of an operation respects is respected by
    the operation. *)
Section Preservation.
Context (R : relation Grid) `{!Reflexive R} `{!Transitive R}.

Lemma preserves_ret {A : Type} (a : A) : preserves R (ret a).
Proof. intros g. reflexivity. Qed.

Lemma preserves_throw {A : Type} (e : Exn) : preserves R (@throw A e).
Proof. intros g. reflexivity. Qed.

Lemma preserves_lift {A : Type} (o : outcome A) : preserves R (lift o).
Proof. intros g. reflexivity. Qed.

Lemma preserves_bind {A B : Type} (m : M A) (k : A -> M B) :
  preserves R m -> (forall a, preserves R (k a)) -> preserves R (bind m k).
Proof.
  intros Hm Hk g. unfold bind. specialize (Hm g).
  destruct (m g) as [[a|e] g']; simpl in *; [|done].
  etrans; [exact Hm | apply Hk].
Qed.

Lemma preserves_modify (f : Grid -> Grid) :
  (forall g, R g (f g)) -> preserves R (modify f).
Proof. intros H g. apply H. Qed.

Lemma preserves_when (b : bool) (m : M unit) : preserves R m -> preserves R (when b m).
Proof. intros H. destruct b; [exact H | apply preserves_ret]. Qed.

Lemma preserves_dep {A : Type} (m : Grid -> M A) :
  (forall g0, preserves R (m g0)) -> preserves R (fun g => m g g).
Proof. intros H g. apply H. Qed.
End Preservation.

(** ** C5: the geometry scenario *)

(** C5, as stated, does not hold: the default configuration with column
    spacing 10 is a configuration of the scenario, its column cap is the
    default 3, and in a container 1000 wide it gets 3 columns of width 250,
    not 4 of width 242. *)
Lemma C5_default_cap_counterexample :
  ~ (forall cfg, geometry_scenario cfg ->
       column_count (sizing_of cfg 1000) = 4 /\ item_width (sizing_of cfg 1000) = 242).
Proof.
  intros H.
  destruct (H (scenario_config (maxColumns defaults))) as [Hc _].
  - repeat split.
  - vm_compute in Hc. discriminate.
Qed.

(** C5, amended: in the scenario with the column cap set to 4, a container
    1000 wide gets 4 columns of width 242. *)
Theorem C5_geometry_scenario_cap_4 (cfg : Config) :
  geometry_scenario cfg -> maxColumns cfg = 4 ->
  column_count (sizing_of cfg 1000) = 4 /\ item_width (sizing_of cfg 1000) = 242.
Proof.
  destruct cfg as [ic db pd [sc sr] [ar ht mn mx] an mc fl fi fc ev].
  unfold geometry_scenario. simpl. intros (-> & -> & -> & ->) ->.
  split; reflexivity.
Qed.

Lemma C5_geometry_scenario_cap_4_witness :
  column_count (sizing_of (scenario_config 4) 1000) = 4
  /\ item_width (sizing_of (scenario_config 4) 1000) = 242.
Proof.
  apply (C5_geometry_scenario_cap_4 (scenario_config 4)).
  - repeat split.
  - reflexivity.
Defined.

(** ** C10: the dataset operation outside the normal state *)

Lemma stateIsNormal_false (g : Grid) :
  gridState g <> ABI7_GRID_STATE_NORMAL \/ ready g = false
  \/ visible g = false \/ inScroll g = true ->
  stateIsNormal check_all g = false.
Proof.
  unfold stateIsNormal. simpl.
  intros [H | [-> | [-> | ->]]].
  - destruct (gridState g); simpl; congruence.
  - by rewrite andb_false_r.
  - by rewrite andb_false_r, andb_false_l, andb_false_r.
  - by rewrite !andb_false_r.
Qed.

(** C10: when the grid is not in the normal state, or not visible, or in
    the middle of a scroll, [data] returns [undefined] whatever its
    argument, and the grid is exactly as before: no query, no load, no
    handler called. *)
Theorem C10_data_returns_undefined_unless_normal (g : Grid) (d : JsVal) (fdone : Callback) :
  gridState g <> ABI7_GRID_STATE_NORMAL \/ visible g = false \/ inScroll g = true ->
  data d fdone g = (Ret VUndefined, g).
Proof.
  intros H. unfold data.
  rewrite stateIsNormal_false; [reflexivity|].
  destruct H as [H | [H | H]]; auto.
Qed.

Lemma C10_data_returns_undefined_unless_normal_witness :
  data VUndefined CbUndefined (set_gridState ABI7_GRID_STATE_BUILD (example_loaded true))
  = (Ret VUndefined, set_gridState ABI7_GRID_STATE_BUILD (example_loaded true)).
Proof.
  apply C10_data_returns_undefined_unless_normal.
  left. simpl. discriminate.
Defined.

(** ** C2: the position solver *)

Lemma sort_insert_perm {A : Type} (cmp : A -> A -> num) (x : A) (l : list A) :
  sort_insert cmp x l ≡ₚ x :: l.
Proof.
  induction l as [|y l IH]; simpl; [done|].
  destruct (keeps_order (cmp x y)); [done|].
  rewrite IH. apply Permutation_swap.
Qed.

Lemma Array_sort_perm {A : Type} (cmp : A -> A -> num) (l : list A) :
  Array_sort cmp l ≡ₚ l.
Proof.
  induction l as [|x l IH]; simpl; [done|].
  by rewrite sort_insert_perm, IH.
Qed.

(** What [pop] finds after inserting [x]: [x] itself when the comparator
    sends it behind every element, the former last element otherwise. *)
Lemma last_sort_insert {A : Type} (cmp : A -> A -> num) (x : A) (s : list A) :
  last (sort_insert cmp x s)
  = if forallb (fun y => negb (keeps_order (cmp x y))) s then Some x else last s.
Proof.
  induction s as [|y s IH]; simpl; [done|].
  destruct (keeps_order (cmp x y)) eqn:Hk; simpl; [done|].
  rewrite last_cons, IH.
  destruct (forallb _ s) eqn:Hf; [done|].
  rewrite last_cons. destruct (last s) eqn:Hl; [done|].
  apply last_None in Hl. subst s. discriminate.
Qed.

Lemma forallb_false_elem {A : Type} (f : A -> bool) (l : list A) :
  forallb f l = false -> exists y, y ∈ l /\ f y = false.
Proof.
  induction l as [|x l IH]; simpl; [done|].
  destruct (f x) eqn:Hx; simpl.
  - intros H. destruct (IH H) as (y & Hy & Hfy). exists y. split; [by right|done].
  - intros _. exists x. split; [by left|done].
Qed.

Lemma by_bottom_desc_behind (x y : Entry) (bx by_ : Z) :
  e_bottom x = Num bx -> e_bottom y = Num by_ ->
  negb (keeps_order (by_bottom_desc x y)) = (bx <? by_).
Proof.
  intros Hx Hy. unfold by_bottom_desc. rewrite Hx, Hy. simpl.
  destruct (Z.leb_spec (by_ - bx) 0), (Z.ltb_spec bx by_); simpl; first [done | lia].
Qed.

(** The entry [pop] returns after the sort by descending bottom: a
    smallest bottom, and the last of the array among equal ones. *)
Lemma last_sorted_by_bottom (arr : list Entry) :
  arr <> [] -> Forall numeric_bottom arr ->
  exists arr1 e arr2 b,
    arr = arr1 ++ e :: arr2
    /\ e_bottom e = Num b
    /\ Forall (bottom_above false b) arr1
    /\ Forall (bottom_above true b) arr2
    /\ last (Array_sort by_bottom_desc arr) = Some e.
Proof.
  induction arr as [|x l IH]; [done|].
  intros _ Hnum. apply Forall_cons in Hnum as [[bx Hbx] Hnum].
  simpl. rewrite last_sort_insert.
  destruct (forallb _ (Array_sort by_bottom_desc l)) eqn:Hall.
  - exists [], x, l, bx. repeat split; [done|by constructor|].
    apply Is_true_true_2, forallb_True in Hall.
    rewrite Array_sort_perm in Hall.
    rewrite Forall_forall in Hall, Hnum |- *.
    intros y Hy. destruct (Hnum y Hy) as [by_ Hby]. exists by_. split; [done|].
    specialize (Hall y Hy). rewrite (by_bottom_desc_behind x y bx by_) in Hall by done.
    apply Is_true_true_1 in Hall. lia.
  - destruct l as [|x' l'].
    { simpl in Hall. discriminate. }
    destruct (IH ltac:(done) Hnum) as (l1 & e & l2 & b & Hl & Hb & H1 & H2 & Hlast).
    exists (x :: l1), e, l2, b.
    split; [by rewrite Hl|]. split; [done|]. split; [|by split].
    apply Forall_cons; split; [|done].
    exists bx. split; [done|]. simpl.
    assert (Hex : exists y by_, y ∈ l1 ++ e :: l2 /\ e_bottom y = Num by_ /\ by_ <= bx).
    { apply forallb_false_elem in Hall as (y & Hy & Hfy).
      rewrite Array_sort_perm, Hl in Hy.
      rewrite Hl, Forall_forall in Hnum. destruct (Hnum y Hy) as [by_ Hby].
      exists y, by_. repeat split; [done..|].
      rewrite (by_bottom_desc_behind x y bx by_) in Hfy by done. lia. }
    destruct Hex as (y & by_ & Hy & Hby & Hle).
    apply elem_of_app in Hy as [Hy|Hy].
    + rewrite Forall_forall in H1. destruct (H1 y Hy) as (z & Hz & Hbz). simpl in Hbz.
      rewrite Hby in Hz. inversion Hz; subst. lia.
    + apply elem_of_cons in Hy as [->|Hy].
      * rewrite Hby in Hb. inversion Hb; subst. lia.
      * rewrite Forall_forall in H2. destruct (H2 y Hy) as (z & Hz & Hbz). simpl in Hbz.
        rewrite Hby in Hz. inversion Hz; subst. lia.
Qed.

Lemma existsb_same_left (store : Entry) (arr : list Entry) :
  existsb (fun a => Qeq_bool (e_left a) (e_left store)) arr = true
  <-> exists a, a ∈ arr /\ same_left a store.
Proof.
  rewrite existsb_exists. unfold same_left. split.
  - intros (a & Hin & Ha). exists a. split; [by apply list_elem_of_In|by apply Qeq_bool_iff].
  - intros (a & Hin & Ha). exists a. split; [by apply list_elem_of_In|by apply Qeq_bool_iff].
Qed.

Section Scan.
Variable store_items : list (option Entry).
Variable index : nat.
Variable column_count : Z.

Lemma scan_inv_recent n arr : scan_inv store_items index n arr -> recent_columns store_items index arr.
Proof.
  intros (H1 & H2 & _). split; [|exact H2].
  intros k a Hk. destruct (H1 k a Hk) as (j & Hj & He & Hr).
  exists j. split; [lia|]. split; done.
Qed.

Lemma scan_inv_step n arr store :
  (n < index)%nat ->
  entry_at store_items (Z.of_nat n) = Some store ->
  scan_inv store_items index (S n) arr ->
  scan_inv store_items index n (if existsb (fun a => Qeq_bool (e_left a) (e_left store)) arr
              then arr else arr ++ [store]).
Proof.
  intros Hn Hst (H1 & H2 & H3).
  destruct (existsb _ arr) eqn:Hex.
  - apply existsb_same_left in Hex as (a0 & Ha0 & Hs0).
    split; [|split; [exact H2|]].
    + intros k a Hk. destruct (H1 k a Hk) as (j & Hj & He & Hr).
      exists j. split; [lia|]. split; done.
    + intros j b Hj Hb. destruct (decide (j = n)) as [->|Hne].
      * rewrite Hst in Hb. inversion Hb; subst. eauto.
      * apply (H3 j b); [lia|done].
  - assert (Hnone : forall a, a ∈ arr -> ~ same_left a store).
    { intros a Ha Hs. apply not_true_iff_false in Hex. apply Hex.
      apply existsb_same_left. eauto. }
    split; [|split].
    + intros k a Hk. apply lookup_app_Some in Hk as [Hk|[Hlen Hk]].
      * destruct (H1 k a Hk) as (j & Hj & He & Hr).
        exists j. split; [lia|]. split; done.
      * apply list_lookup_singleton_Some in Hk as [_ <-].
        exists n. split; [lia|]. split; [done|].
        intros j' b Hj' Hb Hs.
        destruct (H3 j' b ltac:(lia) Hb) as (a & Ha & Hab).
        apply (Hnone a Ha). unfold same_left in *. by rewrite Hab.
    + intros k1 k2 a b Hk1 Hk2 Hs.
      apply lookup_app_Some in Hk1 as [Hk1|[Hl1 Hk1]];
        apply lookup_app_Some in Hk2 as [Hk2|[Hl2 Hk2]].
      * by apply (H2 k1 k2 a b).
      * apply list_lookup_singleton_Some in Hk2 as [_ <-].
        exfalso. apply (Hnone a); [by eapply list_elem_of_lookup_2|done].
      * apply list_lookup_singleton_Some in Hk1 as [_ <-].
        exfalso. apply (Hnone b); [by eapply list_elem_of_lookup_2|].
        unfold same_left in *. by symmetry.
      * apply list_lookup_singleton_Some in Hk1 as [Hz1 _].
        apply list_lookup_singleton_Some in Hk2 as [Hz2 _]. lia.
    + intros j b Hj Hb. destruct (decide (j = n)) as [->|Hne].
      * rewrite Hst in Hb. inversion Hb; subst.
        exists b. split; [apply elem_of_app; right; by left|]. unfold same_left. reflexivity.
      * destruct (H3 j b ltac:(lia) Hb) as (a & Ha & Hab).
        exists a. split; [apply elem_of_app; by left|done].
Qed.

(** With every entry below [n] present, the scan returns; its result
    extends [arr], is not empty once an index was visited, and stays
    within [column_count] entries. *)
Lemma scan_back_returns n arr :
  (n <= index)%nat ->
  (forall j, (j < n)%nat -> is_Some (entry_at store_items (Z.of_nat j))) ->
  scan_inv store_items index n arr ->
  exists arr' n',
    scan_back n store_items column_count arr = Ret arr'
    /\ scan_inv store_items index n' arr'
    /\ ((0 < n)%nat \/ arr <> [] -> arr' <> [])
    /\ (Z.of_nat (length arr) < column_count -> Z.of_nat (length arr') <= column_count).
Proof.
  revert arr. induction n as [|n IH]; intros arr Hn Hres Hinv; simpl.
  - exists arr, 0%nat. split; [done|]. split; [done|]. split; [|lia].
    intros [?|?]; [lia|done].
  - destruct (Hres n ltac:(lia)) as [store Hst]. rewrite Hst.
    pose proof (scan_inv_step n arr store ltac:(lia) Hst Hinv) as Hinv'.
    set (arr1 := if existsb _ arr then arr else arr ++ [store]) in *.
    assert (Hne : arr1 <> []).
    { subst arr1. destruct (existsb _ arr) eqn:Hex.
      - apply existsb_same_left in Hex as (a & Ha & _). intros ->. by apply elem_of_nil in Ha.
      - intros H. by apply app_nil in H as [_ ?]. }
    assert (Hlen : (length arr1 <= S (length arr))%nat).
    { subst arr1. destruct (existsb _ arr); [lia|]. rewrite length_app. simpl. lia. }
    destruct (Z.geb_spec (Z.of_nat (length arr1)) column_count) as [Hge|Hlt].
    + exists arr1, n. split; [done|]. split; [done|]. split; [done|lia].
    + destruct (IH arr1 ltac:(lia)) as (arr' & n' & Hscan & Hinv'' & Hne' & Hlen').
      { intros j Hj. apply Hres. lia. }
      { done. }
      exists arr', n'. split; [done|]. split; [done|]. split; [auto|].
      intros _. apply Hlen'. lia.
Qed.
End Scan.

(** C2, as stated, does not hold: with two columns whose entries 0 and 1
    have the same bottom, index 2 goes under entry 0, the column the
    backward scan met last, not under entry 1, which it met first. *)
Lemma C2_first_met_counterexample :
  ~ (forall g, 1 < column_count (sizing g) -> column_count (sizing g) <= cursor_pos g ->
       resolved_below g -> places_on_shortest FirstMet g).
Proof.
  intros H.
  destruct (H level_row_grid) as (arr1 & e & arr2 & b & Hscan & Hb & H1 & H2 & Hpos).
  - reflexivity.
  - vm_compute. discriminate.
  - intros j Hj. change (cursor_pos level_row_grid) with 2 in Hj.
    assert (j = 0 \/ j = 1) as [-> | ->] by lia; vm_compute; eauto.
  - vm_compute in Hscan. vm_compute in Hpos.
    destruct arr1 as [|a1 arr1]; simpl in Hscan.
    + inversion Hscan; subst. simpl in Hpos. discriminate.
    + apply Forall_cons in H1 as [(z & Hz & Hlt) _].
      inversion Hscan; subst a1. simpl in Hz. inversion Hz; subst z.
      destruct arr1 as [|a2 arr1]; simpl in *.
      * inversion Hscan; subst. simpl in Hb. inversion Hb; subst. lia.
      * inversion Hscan as [[Ha2 Hrest]]. destruct arr1; discriminate.
Qed.

(** The choice of [findNextPos] past the first row, with more than one
    column and every earlier entry resolved. *)
Lemma findNextPos_on_shortest (g : Grid) :
  1 < column_count (sizing g) -> column_count (sizing g) <= cursor_pos g ->
  resolved_below g ->
  places_on_shortest LastMet g
  /\ exists arr, scanned_columns g = Ret arr
       /\ recent_columns (storage_items g) (Z.to_nat (cursor_pos g)) arr
       /\ Z.of_nat (length arr) <= column_count (sizing g).
Proof.
  intros Hcc Hidx Hres.
  destruct (scan_back_returns (storage_items g) (Z.to_nat (cursor_pos g))
              (column_count (sizing g)) (Z.to_nat (cursor_pos g)) [])
    as (arr & n' & Hscan & Hinv & Hne & Hlen).
  { lia. }
  { intros j Hj. destruct (Hres (Z.of_nat j) ltac:(lia)) as (e & z & He & _).
    rewrite He. eauto. }
  { split; [|split].
    - intros k a Hk. by rewrite lookup_nil in Hk.
    - intros k1 k2 a b Hk. by rewrite lookup_nil in Hk.
    - intros j b Hj. lia. }
  assert (Hnum : Forall numeric_bottom arr).
  { apply Forall_forall. intros a Ha. apply list_elem_of_lookup in Ha as [k Hk].
    destruct Hinv as (H1 & _). destruct (H1 k a Hk) as (j & Hj & He & _).
    destruct (Hres (Z.of_nat j) ltac:(lia)) as (e & z & He' & Hz).
    rewrite He in He'. inversion He'; subst. by exists z. }
  destruct (last_sorted_by_bottom arr) as (arr1 & e & arr2 & b & Harr & Hb & H1 & H2 & Hlast).
  { apply Hne. left. lia. }
  { done. }
  split.
  - exists arr1, e, arr2, b. unfold scanned_columns. rewrite Hscan, Harr.
    repeat split; [done..|].
    unfold findNextPos.
    destruct (Z.ltb_spec (cursor_pos g) (column_count (sizing g))); [lia|].
    destruct (Z.ltb_spec 1 (column_count (sizing g))); [|lia].
    rewrite Hscan, Hlast, Hb. reflexivity.
  - exists arr. unfold scanned_columns. split; [done|]. split.
    + by eapply scan_inv_recent.
    + apply Hlen. simpl. lia.
Qed.

Lemma latest_at_unique (store_items : list (option Entry)) (index j j' : nat) (a : Entry) :
  latest_at store_items index j a -> latest_at store_items index j' a -> j = j'.
Proof.
  intros (Hj & He & Hl) (Hj' & He' & Hl').
  destruct (lt_eq_lt_dec j j') as [[Hlt|Heq]|Hgt]; [|done|].
  - exfalso. apply (Hl j' a); [lia|done|]. unfold same_left. reflexivity.
  - exfalso. apply (Hl' j a); [lia|done|]. unfold same_left. reflexivity.
Qed.

Lemma most_recent_first_step (store_items : list (option Entry)) (index n : nat)
    (arr : list Entry) (store : Entry) :
  (n < index)%nat ->
  entry_at store_items (Z.of_nat n) = Some store ->
  scan_inv store_items index (S n) arr ->
  most_recent_first store_items index arr ->
  most_recent_first store_items index
    (if existsb (fun a => Qeq_bool (e_left a) (e_left store)) arr then arr else arr ++ [store]).
Proof.
  intros Hn Hst (H1 & H2 & H3) Hord.
  destruct (existsb _ arr) eqn:Hex; [done|].
  assert (Hnone : forall a, a ∈ arr -> ~ same_left a store).
  { intros a Ha Hs. apply not_true_iff_false in Hex. apply Hex.
    apply existsb_same_left. eauto. }
  intros k1 k2 a b j1 j2 Hlt Hk1 Hk2 L1 L2.
  apply lookup_app_Some in Hk1 as [Hk1|[Hl1 Hk1]];
    apply lookup_app_Some in Hk2 as [Hk2|[Hl2 Hk2]].
  - by apply (Hord k1 k2 a b).
  - apply list_lookup_singleton_Some in Hk2 as [_ <-].
    destruct (H1 k1 a Hk1) as (j0 & Hj0 & He0 & Hr0).
    assert (j1 = j0) as ->.
    { apply (latest_at_unique store_items index _ _ a); [done|].
      split; [lia|]. split; done. }
    destruct L2 as (Hj2 & He2 & _).
    destruct (le_lt_dec j2 n) as [Hle|Hgt]; [lia|]. exfalso.
    destruct (H3 j2 store ltac:(lia) He2) as (a' & Ha' & Hs').
    by apply (Hnone a').
  - apply lookup_lt_Some in Hk2. lia.
  - apply list_lookup_singleton_Some in Hk1 as [Hz1 _].
    apply list_lookup_singleton_Some in Hk2 as [Hz2 _]. lia.
Qed.

(** With every entry below [n] present and room left in [arr], the scan
    returns with the columns met from some index [n'] on, the most recently
    used first; it went down to index 0 unless it found [column_count]
    columns. *)
Lemma scan_back_most_recent (store_items : list (option Entry)) (index : nat)
    (column_count : Z) (n : nat) (arr : list Entry) :
  (n <= index)%nat ->
  (forall j, (j < n)%nat -> is_Some (entry_at store_items (Z.of_nat j))) ->
  scan_inv store_items index n arr ->
  most_recent_first store_items index arr ->
  Z.of_nat (length arr) < column_count ->
  exists arr' n',
    scan_back n store_items column_count arr = Ret arr'
    /\ scan_inv store_items index n' arr'
    /\ most_recent_first store_items index arr'
    /\ (n' = 0%nat \/ Z.of_nat (length arr') = column_count)
    /\ Z.of_nat (length arr') <= column_count.
Proof.
  revert arr. induction n as [|n IH]; intros arr Hn Hres Hinv Hord Hlen; simpl.
  - exists arr, 0%nat. split; [done|]. split; [done|]. split; [done|]. split; [by left|lia].
  - destruct (Hres n ltac:(lia)) as [store Hst]. rewrite Hst.
    pose proof (scan_inv_step store_items index n arr store ltac:(lia) Hst Hinv) as Hinv'.
    pose proof (most_recent_first_step store_items index n arr store ltac:(lia) Hst Hinv Hord)
      as Hord'.
    set (arr1 := if existsb _ arr then arr else arr ++ [store]) in *.
    assert (Hlen1 : (length arr1 <= S (length arr))%nat).
    { subst arr1. destruct (existsb _ arr); [lia|]. rewrite length_app. simpl. lia. }
    destruct (Z.geb_spec (Z.of_nat (length arr1)) column_count) as [Hge|Hlt].
    + exists arr1, n. split; [done|]. split; [done|]. split; [done|]. split; [right|]; lia.
    + apply (IH arr1); [lia| |done|done|lia].
      intros j Hj. apply Hres. lia.
Qed.

Lemma scan_inv_most_recent (store_items : list (option Entry)) (index n : nat)
    (column_count : Z) (arr : list Entry) :
  scan_inv store_items index n arr ->
  most_recent_first store_items index arr ->
  n = 0%nat \/ Z.of_nat (length arr) = column_count ->
  Z.of_nat (length arr) <= column_count ->
  most_recent_columns store_items index column_count arr.
Proof.
  intros Hinv Hord Hstop Hlen.
  split; [by apply (scan_inv_recent store_items index n)|].
  split; [done|]. split; [done|].
  destruct Hinv as (H1 & H2 & H3).
  intros j b Hj Hb.
  destruct (le_lt_dec n j) as [Hle|Hlt]; [left; apply (H3 j b); [lia|done]|].
  right. split; [destruct Hstop; [lia|done]|].
  intros a ja Ha La.
  apply list_elem_of_lookup in Ha as [k Hk].
  destruct (H1 k a Hk) as (j0 & Hj0 & He0 & Hr0).
  assert (ja = j0) as ->; [|lia].
  apply (latest_at_unique store_items index _ _ a); [done|].
  split; [lia|]. split; done.
Qed.

(** What the backward scan of [findNextPos] returns past the first row,
    every earlier entry being present. *)
Lemma scanned_columns_most_recent (g : Grid) :
  1 < column_count (sizing g) ->
  (forall j, 0 <= j < cursor_pos g -> is_Some (entry_at (storage_items g) j)) ->
  exists arr, scanned_columns g = Ret arr
    /\ most_recent_columns (storage_items g) (Z.to_nat (cursor_pos g))
         (column_count (sizing g)) arr.
Proof.
  intros Hcc Hres.
  destruct (scan_back_most_recent (storage_items g) (Z.to_nat (cursor_pos g))
              (column_count (sizing g)) (Z.to_nat (cursor_pos g)) [])
    as (arr & n' & Hscan & Hinv & Hord & Hstop & Hlen).
  { lia. }
  { intros j Hj. apply Hres. lia. }
  { split; [|split].
    - intros k a Hk. by rewrite lookup_nil in Hk.
    - intros k1 k2 a b Hk. by rewrite lookup_nil in Hk.
    - intros j b Hj. lia. }
  { intros k1 k2 a b j1 j2 _ Hk. by rewrite lookup_nil in Hk. }
  { simpl. lia. }
  exists arr. split; [done|]. by apply (scan_inv_most_recent _ _ n').
Qed.

(** Counting: with as many column positions in use as there are columns,
    the candidates are no fewer. *)
Lemma most_recent_columns_full (store_items : list (option Entry)) (index : nat)
    (column_count : Z) (arr : list Entry) :
  most_recent_columns store_items index column_count arr ->
  uses_columns store_items index column_count ->
  Z.of_nat (length arr) = column_count.
Proof.
  intros (_ & _ & Hlen & Hall) (js & Hjs & Hin & Hdiff).
  destruct (Z.eq_dec (Z.of_nat (length arr)) column_count) as [|Hne]; [done|]. exfalso.
  set (left_at := fun j : nat =>
         match entry_at store_items (Z.of_nat j) with
         | Some e => Qred (e_left e)
         | None => 0%Q
         end).
  assert (Hnd : NoDup (left_at <$> js)).
  { apply NoDup_alt. intros k1 k2 x H1 H2.
    rewrite list_lookup_fmap in H1, H2.
    destruct (js !! k1) as [j1|] eqn:E1; [|done].
    destruct (js !! k2) as [j2|] eqn:E2; [|done].
    cbn in H1, H2. injection H1 as H1. injection H2 as H2.
    destruct (Hin k1 j1 E1) as [_ [a Ha]]. destruct (Hin k2 j2 E2) as [_ [b Hb]].
    apply (Hdiff k1 k2 j1 j2 a b); [done..|].
    unfold left_at in H1, H2. rewrite Ha in H1. rewrite Hb in H2.
    unfold same_left. rewrite <- (Qred_correct (e_left a)), <- (Qred_correct (e_left b)).
    rewrite H1, H2. reflexivity. }
  assert (Hsub : forall x, x ∈ left_at <$> js -> x ∈ (fun a => Qred (e_left a)) <$> arr).
  { intros x Hx. apply list_elem_of_fmap in Hx as (j & -> & Hj).
    apply list_elem_of_lookup in Hj as [k Hk].
    destruct (Hin k j Hk) as [Hlt [b Hb]].
    destruct (Hall j b Hlt Hb) as [(a & Ha & Hs)|[Heq _]]; [|done].
    apply list_elem_of_fmap. exists a. split; [|done].
    unfold left_at. rewrite Hb. symmetry. by apply Qred_complete. }
  pose proof (submseteq_length _ _ (NoDup_submseteq _ _ Hnd Hsub)) as Hle.
  rewrite !length_fmap in Hle. lia.
Qed.

(** C2, amended: for an index at or past the column count, with more than
    one column and every earlier entry resolved, [findNextPos] places the
    item in the column of smallest bottom among the [column_count] most
    recently used column positions below the index, at that bottom plus the
    row spacing.  The candidates are each the latest entry at their left
    offset, in the order the backward scan meets them, the most recently
    used first, and an entry whose left offset is not among them lies before
    the place where each of them was used last; there are exactly
    [column_count] of them as soon as the earlier entries use that many
    column positions, and otherwise they are all the positions in use.  Of
    several candidates with the smallest bottom the one met last by the
    scan is taken, that is the least recently used of them. *)
Theorem C2_places_on_shortest_last_met (g : Grid) :
  1 < column_count (sizing g) -> column_count (sizing g) <= cursor_pos g ->
  resolved_below g ->
  places_on_shortest LastMet g
  /\ exists arr, scanned_columns g = Ret arr
       /\ most_recent_columns (storage_items g) (Z.to_nat (cursor_pos g))
            (column_count (sizing g)) arr
       /\ (uses_columns (storage_items g) (Z.to_nat (cursor_pos g)) (column_count (sizing g)) ->
           Z.of_nat (length arr) = column_count (sizing g)).
Proof.
  intros Hcc Hidx Hres. split.
  - by apply findNextPos_on_shortest.
  - destruct (scanned_columns_most_recent g Hcc) as (arr & Hscan & Hmost).
    { intros j Hj. destruct (Hres j Hj) as (e & z & He & _). rewrite He. eauto. }
    exists arr. split; [done|]. split; [done|].
    by apply most_recent_columns_full.
Qed.

Lemma C2_places_on_shortest_last_met_witness :
  places_on_shortest LastMet level_row_grid
  /\ exists arr, scanned_columns level_row_grid = Ret arr
       /\ most_recent_columns (storage_items level_row_grid)
            (Z.to_nat (cursor_pos level_row_grid))
            (column_count (sizing level_row_grid)) arr
       /\ Z.of_nat (length arr) = 2.
Proof.
  destruct (C2_places_on_shortest_last_met level_row_grid)
    as (Hplace & arr & Hscan & Hmost & Hfull).
  - reflexivity.
  - vm_compute. discriminate.
  - intros j Hj. change (cursor_pos level_row_grid) with 2 in Hj.
    assert (j = 0 \/ j = 1) as [-> | ->] by lia; vm_compute; eauto.
  - split; [exact Hplace|]. exists arr. split; [exact Hscan|]. split; [exact Hmost|].
    apply Hfull. exists [0; 1]%nat. split; [reflexivity|]. split.
    + intros [|[|k]] j Hk; try discriminate Hk; injection Hk as <-;
        (split; [vm_compute; lia|vm_compute; eauto]).
    + intros [|[|k1]] [|[|k2]] j1 j2 a b H1 H2 Ha Hb Hs;
        try discriminate H1; try discriminate H2; try reflexivity;
        injection H1 as <-; injection H2 as <-;
        vm_compute in Ha; vm_compute in Hb;
        injection Ha as <-; injection Hb as <-; vm_compute in Hs; discriminate Hs.
Defined.

(** ** What an operation leaves alone *)

#[global] Instance same_on_refl {T : Type} (f : Grid -> T) : Reflexive (same_on f).
Proof. intros g. reflexivity. Qed.

#[global] Instance same_on_trans {T : Type} (f : Grid -> T) : Transitive (same_on f).
Proof. intros g1 g2 g3 H1 H2. unfold same_on in *. congruence. Qed.

(** Taking an operation apart, one step at a time. *)
Ltac frame_step :=
  lazymatch goal with
  | |- preserves _ (bind _ _) => apply preserves_bind; [try apply _ .. | | intros ?]
  | |- preserves _ (ret _) => apply preserves_ret; apply _
  | |- preserves _ (throw _) => apply preserves_throw; apply _
  | |- preserves _ (lift _) => apply preserves_lift; apply _
  | |- preserves _ (when _ _) => apply preserves_when; [try apply _ .. |]
  | |- preserves _ (modify _) => apply preserves_modify; intros ?
  | |- preserves _ (emit _) => apply preserves_modify; intros ?
  | |- preserves _ (state _) => apply preserves_modify; intros ?
  | |- preserves _ (setBuildState _) => apply preserves_modify; intros ?
  | |- preserves _ (match ?x with _ => _ end) => destruct x eqn:?
  | |- preserves ?R (fun g => _) =>
      let g := fresh "g" in intros g; cbv beta
  | |- ?R ?g (match ?x with _ => _ end).2 => destruct x eqn:?
  | |- ?R ?g (?t ?g).2 => refine ((_ : preserves R t) g)
  end.

Ltac frame_done :=
  unfold same_on; simpl; repeat case_match; simpl; done.

Ltac frame := repeat frame_step; try frame_done.

Lemma run_callback_dataset (cb : Callback) : preserves (same_on dataset) (run_callback cb).
Proof. induction cb; simpl; frame. Qed.

Lemma animation_dataset (value : bool) (fdone : Callback) :
  preserves (same_on dataset) (animation value fdone).
Proof. unfold animation. frame. apply run_callback_dataset. Qed.

Lemma recalc_loop_dataset (n : nat) (i : Z) (cfg : RecalcOptions) :
  preserves (same_on dataset) (recalc_loop n i cfg).
Proof. revert i. induction n as [|n IH]; intros i; simpl; frame. Qed.

Lemma recalcItems_dataset (pos : Z) (options : RecalcOptions) (fdone : Callback) :
  preserves (same_on dataset) (recalcItems pos options fdone).
Proof.
  unfold recalcItems. frame;
    first [apply animation_dataset | apply recalc_loop_dataset
          | apply (run_callback_dataset (CbRecalcItemsDone fdone))].
Qed.

Lemma setSize_dataset (id : nat) (width height : option Z) :
  preserves (same_on dataset) (setSize id width height).
Proof. unfold setSize. frame. apply recalcItems_dataset. Qed.

(** ** C8: fetching pages *)

Lemma preserves_weaken (R R' : relation Grid) {A : Type} (m : M A) :
  (forall g g', R g g' -> R' g g') -> preserves R m -> preserves R' m.
Proof. intros H Hm g. apply H, Hm. Qed.

Lemma loaded_data_eq (g g' : Grid) :
  loaded_data g' = loaded_data g ->
  config g' = config g /\ heap g' = heap g /\ cache g' = cache g
  /\ eof_data g' = eof_data g
  /\ dataBlockSize (sizing g') = dataBlockSize (sizing g)
  /\ fetches g' = fetches g.
Proof. unfold loaded_data. intros H. by injection H. Qed.

Lemma fetches_emit (e : Event) (g : Grid) :
  is_fetch e = false -> fetches (set_trace (trace g ++ [e]) g) = fetches g.
Proof.
  intros He. unfold fetches. simpl. rewrite List.filter_app. simpl.
  rewrite He. apply app_nil_r.
Qed.

Ltac paging_done :=
  unfold same_on, loaded_data; simpl;
  repeat case_match; simpl; rewrite ?fetches_emit by done; done.

Ltac paging := repeat frame_step; try paging_done.

Lemma run_callback_loaded_data (cb : Callback) :
  preserves (same_on loaded_data) (run_callback cb).
Proof. induction cb; simpl; paging. Qed.

Lemma animation_loaded_data (value : bool) (fdone : Callback) :
  preserves (same_on loaded_data) (animation value fdone).
Proof. unfold animation. paging. apply run_callback_loaded_data. Qed.

Lemma recalc_loop_loaded_data (n : nat) (i : Z) (cfg : RecalcOptions) :
  preserves (same_on loaded_data) (recalc_loop n i cfg).
Proof. revert i. induction n as [|n IH]; intros i; simpl; paging. Qed.

Lemma recalcItems_loaded_data (pos : Z) (options : RecalcOptions) (fdone : Callback) :
  preserves (same_on loaded_data) (recalcItems pos options fdone).
Proof.
  unfold recalcItems. paging;
    first [apply animation_loaded_data | apply recalc_loop_loaded_data
          | apply (run_callback_loaded_data (CbRecalcItemsDone fdone))].
Qed.

Lemma setSize_loaded_data (id : nat) (width height : option Z) :
  preserves (same_on loaded_data) (setSize id width height).
Proof. unfold setSize. paging. apply recalcItems_loaded_data. Qed.

Lemma dataFunc_loop_loaded_data (n : nat) (i : Z) (data : list JsVal) (cfg : LoadOptions) :
  preserves (same_on loaded_data) (dataFunc_loop n i data cfg).
Proof.
  revert i. induction n as [|n IH]; intros i; simpl; paging;
    try apply setSize_loaded_data.
Qed.

Lemma dataFunc_loaded_data (start count : Z) (cfg : LoadOptions) (fdone : Callback)
    (data : list JsVal) :
  preserves (same_on loaded_data) (dataFunc start count cfg fdone data).
Proof.
  unfold dataFunc. paging;
    first [apply dataFunc_loop_loaded_data | apply run_callback_loaded_data].
Qed.

Lemma must_fetch_iff (g : Grid) (s c : Z) :
  must_fetch g s c = true
  <-> Z.of_nat (length (cache_records g)) < s + c /\ eof_data g = false.
Proof.
  unfold must_fetch. rewrite negb_true_iff, orb_false_iff, Z.leb_gt. reflexivity.
Qed.

(** The page handed to [func] decides the end-of-data flag. *)
Lemma loadData_func_eof_data (start count : Z) (cfg : LoadOptions) (fdone : Callback)
    (page : list JsVal) (g : Grid) :
  eof_data (loadData_func start count cfg fdone page g).2
  = (Z.of_nat (length page) <? dataBlockSize (sizing g))
  /\ fetches (loadData_func start count cfg fdone page g).2 = fetches g.
Proof.
  unfold loadData_func. rewrite !bind_modify.
  match goal with
  | |- context [dataFunc ?s ?c ?o ?f ?d ?g'] =>
      pose proof (dataFunc_loaded_data s c o f d g') as H
  end.
  apply loaded_data_eq in H as (_ & _ & _ & H5 & _ & H7).
  rewrite H5, H7. done.
Qed.

(** C8: [loadData] calls the data source exactly when the range it needs
    ends past the cached records and end-of-data is not set, asking for
    [dataBlockSize] records from the end of the cache; once the page is
    there, end-of-data is set if and only if the page is shorter than
    [dataBlockSize]. *)
Theorem C8_fetch_and_end_of_data (g : Grid) (start count : option Z) (cfg : LoadOptions)
    (fdone : Callback) :
  let s := load_start start in
  let c := load_count g count in
  let len := Z.of_nat (length (cache_records g)) in
  let g' := (loadData start count cfg fdone g).2 in
  (must_fetch g s c = true <-> len < s + c /\ eof_data g = false)
  /\ (must_fetch g s c = false -> fetches g' = fetches g /\ eof_data g' = eof_data g)
  /\ (forall f, must_fetch g s c = true -> funcLoadData (config g) = Some f ->
        fetches g' = fetches g ++ [EvFuncLoadData len (dataBlockSize (sizing g))]
        /\ match f len (dataBlockSize (sizing g)) with
           | FetchArray page =>
               eof_data g' = true <-> Z.of_nat (length page) < dataBlockSize (sizing g)
           | FetchPromise page =>
               timers g' = timers g ++ [TimerPromise page s c cfg fdone]
               /\ eof_data g' = false
               /\ (eof_data (fire (TimerPromise page s c cfg fdone) g').2 = true
                   <-> Z.of_nat (length page) < dataBlockSize (sizing g))
           | FetchOther => eof_data g' = false
           end).
Proof.
  intros s c len g'. split; [apply must_fetch_iff|].
  subst g'. unfold loadData, setBuildState, state.
  rewrite bind_modify. cbv beta.
  change (buffer_list (set_gridState ABI7_GRID_STATE_BUILD g)) with (buffer_list g).
  change (sizing (set_gridState ABI7_GRID_STATE_BUILD g)) with (sizing g).
  change (Z.max 0 (default 0 start)) with s.
  fold (load_count g count). fold c.
  rewrite bind_modify.
  set (g1 := set_cursor_pos s (set_gridState ABI7_GRID_STATE_BUILD g)).
  assert (Hex : exists g2,
            (forall (k : unit -> M unit),
               bind (fun g => when (onDataLoadStart (events (config g)))
                                   (emit EvDataLoadStart) g) k g1 = k tt g2)
            /\ loaded_data g2 = loaded_data g /\ timers g2 = timers g).
  { destruct (onDataLoadStart (events (config g1))) eqn:E.
    - exists (set_trace (trace g1 ++ [EvDataLoadStart]) g1). split; [|split].
      + intros k. unfold bind, when, emit, modify. rewrite E. reflexivity.
      + unfold loaded_data. rewrite fetches_emit by done. reflexivity.
      + reflexivity.
    - exists g1. split; [|split]; [|reflexivity..].
      intros k. unfold bind, when, ret. rewrite E. reflexivity. }
  destruct Hex as (g2 & Hstep & Hg2 & Ht2). rewrite Hstep. clear Hstep. cbv beta.
  pose proof (loaded_data_eq _ _ Hg2) as (H1 & H3 & H4 & H5 & H6 & H7).
  assert (Hmf : must_fetch g2 s c = must_fetch g s c).
  { unfold must_fetch, cache_records. by rewrite H3, H4, H5. }
  assert (Hlen : Z.of_nat (length (cache_records g2)) = len).
  { unfold len, cache_records. by rewrite H3, H4. }
  rewrite Hmf. split.
  - intros ->.
    pose proof (dataFunc_loaded_data s c cfg fdone
                  (Array_slice s (s + c) (cache_records g2)) g2) as H.
    apply loaded_data_eq in H as (_ & _ & _ & K5 & _ & K7).
    rewrite K5, K7, H5, H7. done.
  - intros f Hmust Hf. rewrite Hmust, H1, Hf.
    replace (s + (Z.of_nat (length (cache_records g2)) - s)) with len by lia.
    rewrite H6. unfold emit. rewrite bind_modify.
    set (g3 := set_trace (trace g2 ++ [EvFuncLoadData len (dataBlockSize (sizing g))]) g2).
    assert (Hfe3 : fetches g3 = fetches g ++ [EvFuncLoadData len (dataBlockSize (sizing g))]).
    { unfold g3, fetches. cbn [trace set_trace]. rewrite List.filter_app.
      fold (fetches g2). rewrite H7. reflexivity. }
    assert (Hs3 : dataBlockSize (sizing g3) = dataBlockSize (sizing g)) by exact H6.
    assert (He3 : eof_data g3 = false).
    { apply must_fetch_iff in Hmust as [_ Hf0]. change (eof_data g3) with (eof_data g2).
      by rewrite H5. }
    destruct (f len (dataBlockSize (sizing g))) as [page|page|] eqn:Hres.
    + destruct (loadData_func_eof_data s c cfg fdone page g3) as [He Hfx].
      rewrite Hfx, He, Hs3. split; [done|]. apply Z.ltb_lt.
    + split; [exact Hfe3|]. split.
      { change (timers g2 ++ [TimerPromise page s c cfg fdone]
                = timers g ++ [TimerPromise page s c cfg fdone]). by rewrite Ht2. }
      split; [exact He3|].
      match goal with
      | |- context [fire ?t ?gg] =>
          change (fire t gg) with (loadData_func s c cfg fdone page gg);
          destruct (loadData_func_eof_data s c cfg fdone page gg) as [He _];
          rewrite He; change (sizing gg) with (sizing g3)
      end.
      rewrite Hs3. apply Z.ltb_lt.
    + split; [exact Hfe3|exact He3].
Qed.

Lemma C8_fetch_and_end_of_data_witness :
  let g' := (loadData None None default_load_options (CbInitLoadData CbUndefined)
               paged_grid).2 in
  fetches g' = [EvFuncLoadData 0 4] /\ (eof_data g' = true <-> 4 < 4).
Proof.
  destruct (C8_fetch_and_end_of_data paged_grid None None default_load_options
              (CbInitLoadData CbUndefined)) as (_ & _ & H).
  exact (H example_source eq_refl eq_refl).
Defined.

(** ** C9: the dataset is shared with the caller *)

#[global] Instance dataset_kept_refl : Reflexive dataset_kept.
Proof. intros g H. done. Qed.

#[global] Instance dataset_kept_trans : Transitive dataset_kept.
Proof.
  intros g1 g2 g3 H12 H23 H. destruct (H12 H) as (H1 & H2 & H3).
  destruct (H23 H1) as (K1 & K2 & K3). split; [done|]. split; congruence.
Qed.

Lemma loaded_data_kept (g g' : Grid) : same_on loaded_data g g' -> dataset_kept g g'.
Proof.
  intros H Heof. apply loaded_data_eq in H as (_ & H3 & H4 & H5 & _ & _).
  rewrite H3, H4, H5. done.
Qed.

Lemma recalcStorage_loop_loaded_data (n : nat) (i : Z) :
  preserves (same_on loaded_data) (recalcStorage_loop n i).
Proof. revert i. induction n as [|n IH]; intros i; simpl; paging. Qed.

Lemma loadData_kept (start count : option Z) (cfg : LoadOptions) (fdone : Callback) :
  preserves dataset_kept (loadData start count cfg fdone).
Proof.
  unfold loadData. apply preserves_bind; [apply _..| |intros _].
  { apply (preserves_weaken (same_on loaded_data)); [apply loaded_data_kept|]. paging. }
  intros g. cbv beta.
  set (s := Z.max 0 (default 0 start)). set (c := Z.min _ _).
  refine ((_ : preserves dataset_kept _) g).
  apply preserves_bind; [apply _..| |intros _].
  { apply (preserves_weaken (same_on loaded_data)); [apply loaded_data_kept|]. paging. }
  apply preserves_bind; [apply _..| |intros _].
  { apply (preserves_weaken (same_on loaded_data)); [apply loaded_data_kept|]. paging. }
  intros g0. cbv beta. destruct (must_fetch g0 s c) eqn:Hmf.
  - apply must_fetch_iff in Hmf as [_ Hf]. intros Ht. congruence.
  - apply loaded_data_kept. apply dataFunc_loaded_data.
Qed.

Lemma initLoadData_kept (fdone : Callback) : preserves dataset_kept (initLoadData fdone).
Proof.
  unfold initLoadData. apply preserves_bind; [apply _..| |intros _].
  { apply preserves_modify. intros g. apply loaded_data_kept.
    unfold same_on, loaded_data.
    assert (H : forall l g0, loaded_data (foldr (fun i => update_view i item_reset) g0 l)
                             = loaded_data g0).
    { intros l g0. induction l as [|i l IH]; simpl; [done|]. rewrite <- IH. done. }
    apply (H (items g) g). }
  apply preserves_bind; [apply _..| |intros _].
  { apply preserves_modify. intros g. apply loaded_data_kept. done. }
  apply loadData_kept.
Qed.

Lemma recalcStorageItems_kept (count : option Z) (fdone : M unit) :
  preserves dataset_kept fdone -> preserves dataset_kept (recalcStorageItems count fdone).
Proof.
  intros Hf. unfold recalcStorageItems. intros g. cbv beta.
  match goal with |- dataset_kept g (?t g).2 => refine ((_ : preserves dataset_kept t) g) end.
  apply preserves_bind; [apply _..| |intros _].
  { apply preserves_modify. intros g0. apply loaded_data_kept. done. }
  apply preserves_bind; [apply _..| |intros _]; [|done].
  apply (preserves_weaken (same_on loaded_data)); [apply loaded_data_kept|].
  apply recalcStorage_loop_loaded_data.
Qed.

Lemma dataset_eq (g g' : Grid) :
  dataset g' = dataset g ->
  config g' = config g /\ heap g' = heap g /\ cache g' = cache g
  /\ eof_data g' = eof_data g /\ items g' = items g.
Proof. unfold dataset. intros H. by injection H. Qed.

Lemma foldr_update_view_frame {T : Type} (f : Grid -> T) (h : ItemView -> ItemView)
    (l : list nat) (g : Grid) :
  (forall i g0, f (update_view i h g0) = f g0) ->
  f (foldr (fun i => update_view i h) g l) = f g.
Proof. intros H. induction l as [|i l IH]; simpl; [done|]. by rewrite H. Qed.

(** [remove] is [recalcItems] from the removed index, run on the spliced
    grid. *)
Lemma item_remove_unfold (id : nat) (self : ItemView) (g : Grid) :
  stateIsNormal check_all g = true -> views g !! id = Some self ->
  item_remove id g
  = recalcItems (item_index self) remove_options
      (CbItemDelete (Array_splice1 (item_index self) (cache_records g)).2 (item_index self))
      (item_remove_before_recalc id self g).
Proof.
  intros Hn Hv. unfold item_remove. rewrite Hn, Hv. cbn [negb].
  destruct (Array_splice1 (item_index self) (cache_records g)) as [rest removed] eqn:Hsp.
  unfold setBuildState, state. rewrite !bind_modify.
  unfold item_remove_before_recalc. rewrite Hsp. reflexivity.
Qed.

Lemma item_remove_before_recalc_dataset (id : nat) (self : ItemView) (g : Grid) :
  cache (item_remove_before_recalc id self g) = cache g
  /\ heap (item_remove_before_recalc id self g)
     = <[cache g := (Array_splice1 (item_index self) (cache_records g)).1]> (heap g).
Proof.
  unfold item_remove_before_recalc. cbn [cache heap set_gridState set_heap update_view
    set_views set_storage_items].
  rewrite (foldr_update_view_frame cache), (foldr_update_view_frame heap); done.
Qed.

(** [remove] splices the array [storage.cache] refers to, in place. *)
Lemma item_remove_splices (id : nat) (self : ItemView) (g : Grid) :
  stateIsNormal check_all g = true -> views g !! id = Some self ->
  cache (item_remove id g).2 = cache g
  /\ heap (item_remove id g).2
     = <[cache g := (Array_splice1 (item_index self) (cache_records g)).1]> (heap g).
Proof.
  intros Hn Hv. rewrite (item_remove_unfold id self g Hn Hv).
  match goal with
  | |- context [recalcItems ?p ?o ?f ?g'] => pose proof (recalcItems_dataset p o f g') as H
  end.
  apply dataset_eq in H as (_ & H4 & H5 & _).
  rewrite H4, H5. apply item_remove_before_recalc_dataset.
Qed.

Lemma initProps_run (g : Grid) :
  exists g1, initProps g = (Ret tt, g1)
    /\ heap g1 = <[fresh_ref g := []]> (heap g).
Proof. eexists. split; reflexivity. Qed.

Lemma setData_run (data : nat) (g : Grid) :
  exists g1, setData data g = (Ret tt, g1)
    /\ heap g1 = <[fresh_ref g := []]> (heap g)
    /\ cache g1 = data /\ eof_data g1 = true.
Proof. eexists. repeat split; reflexivity. Qed.

Lemma fresh_ref_insert_ne (g : Grid) (ref : nat) (l arr : list JsVal) :
  heap g !! ref = Some arr -> <[fresh_ref g := l]> (heap g) !! ref = Some arr.
Proof.
  intros H. rewrite lookup_insert_ne; [done|].
  intros Heq. pose proof (is_fresh (dom (heap g))) as Hfr.
  apply Hfr. unfold fresh_ref in Heq. rewrite Heq. apply elem_of_dom. eauto.
Qed.

(** C9: [data(array)] stores the reference it is given, with no copy, and
    the array is as the caller left it; [data()] returns the reference the
    grid holds; [remove] splices the array behind that reference, so the
    caller's array loses the record; and what the caller writes into the
    array is what the grid reads as its cache. *)
Theorem C9_dataset_shared_by_reference (g : Grid) (ref : nat) (arr : list JsVal)
    (fdone : Callback) :
  stateIsNormal check_all g = true -> heap g !! ref = Some arr ->
  let g' := (data (VArray ref) fdone g).2 in
  (cache g' = ref /\ heap g' !! ref = Some arr)
  /\ (forall g1 fd, stateIsNormal check_all g1 = true ->
        data VUndefined fd g1 = (Ret (VArray (cache g1)), g1))
  /\ (forall g1 id self, stateIsNormal check_all g1 = true -> cache g1 = ref ->
        views g1 !! id = Some self ->
        heap (item_remove id g1).2 !! ref
        = Some (Array_splice1 (item_index self) (cache_records g1)).1)
  /\ (forall g1 l, cache g1 = ref ->
        cache_records (set_heap (<[ref := l]> (heap g1)) g1) = l).
Proof.
  intros Hn Href g'. split; [|split; [|split]].
  - subst g'. unfold data. rewrite Hn. cbn [negb isArray].
    assert (Hex : exists g0,
              (forall (k : unit -> M JsVal),
                 bind (when (onDataLoadStart (events (config g))) (emit EvDataLoadStart)) k g
                 = k tt g0)
              /\ heap g0 = heap g).
    { destruct (onDataLoadStart (events (config g))).
      - exists (set_trace (trace g ++ [EvDataLoadStart]) g). split; reflexivity.
      - exists g. split; reflexivity. }
    destruct Hex as (g0 & Hstep & Hh0). rewrite Hstep. clear Hstep.
    destruct (initProps_run g0) as (g1 & Hrun1 & Hh1).
    rewrite (bind_ret _ _ _ _ _ Hrun1).
    destruct (setData_run ref g1) as (g2 & Hrun2 & Hh2 & Hc2 & He2).
    rewrite (bind_ret _ _ _ _ _ Hrun2).
    assert (Hr2 : heap g2 !! ref = Some arr).
    { rewrite Hh2. apply fresh_ref_insert_ne. rewrite Hh1. apply fresh_ref_insert_ne.
      by rewrite Hh0. }
    pose proof (recalcStorageItems_kept None (initLoadData (CbDataLoaded fdone))
                  (initLoadData_kept _) g2 He2) as (_ & Hc & Hh).
    unfold bind.
    destruct (recalcStorageItems None (initLoadData (CbDataLoaded fdone)) g2)
      as [[u|e] g3]; unfold ret; cbn [snd] in *; rewrite Hc, Hh; done.
  - intros g1 fd Hn1. unfold data. rewrite Hn1. reflexivity.
  - intros g1 id self Hn1 Hc1 Hv1.
    destruct (item_remove_splices id self g1 Hn1 Hv1) as [_ Hh].
    rewrite Hh, Hc1. apply lookup_insert_eq.
  - intros g1 l Hc1. unfold cache_records. simpl. rewrite Hc1, lookup_insert_eq. done.
Qed.

Lemma C9_dataset_shared_by_reference_witness :
  cache (example_loaded true) = 7%nat
  /\ heap (example_loaded true) !! 7%nat = Some example_records.
Proof.
  apply (C9_dataset_shared_by_reference (example_grid true) 7 example_records CbUndefined).
  - reflexivity.
  - reflexivity.
Defined.

(** ** C1: leaving the build state *)

Lemma findNextPos_ext (g g' : Grid) :
  config g' = config g -> sizing g' = sizing g ->
  storage_items g' = storage_items g -> cursor_pos g' = cursor_pos g ->
  findNextPos g' = findNextPos g.
Proof. intros H1 H2 H3 H4. unfold findNextPos. by rewrite H1, H2, H3, H4. Qed.

(** The early return of [recalcItems]: when the loop meets an index with
    no entry, the function returns with the state still [BUILD], no
    callback run and none queued. *)
Lemma recalcItems_early_return (g : Grid) (pos : Z) (options : RecalcOptions)
    (fdone : Callback) (p : Pos) :
  stateIsNormal check_all g = true ->
  pos < Z.of_nat (length (storage_items g)) ->
  entry_at (storage_items g) pos = None ->
  findNextPos (set_cursor_pos pos g) = Ret p ->
  recalcItems pos options fdone g
  = (Ret tt, set_cursor_pos pos (set_gridState ABI7_GRID_STATE_BUILD g)).
Proof.
  intros Hn Hlt Hnone Hpos. unfold recalcItems. rewrite Hn. cbn [negb]. cbv zeta.
  unfold setBuildState, state. rewrite bind_modify.
  set (g1 := set_gridState ABI7_GRID_STATE_BUILD g).
  assert (Hanim : forall (k : unit -> M unit),
            bind (when (default (enable (animation_cfg (config g))) (opt_animation options))
                       (animation true CbUndefined)) k g1 = k tt g1).
  { intros k. unfold bind, when, animation.
    destruct (default _ _); [|reflexivity].
    change (config g1) with (config g). destruct (enable _); reflexivity. }
  rewrite Hanim.
  destruct (Z.to_nat (Z.of_nat (length (storage_items g)) - pos)) as [|n] eqn:Hn0; [lia|].
  assert (Hloop : recalc_loop (S n) pos options g1 = (Ret false, set_cursor_pos pos g1)).
  { cbn [recalc_loop]. rewrite bind_modify.
    unfold bind at 1. unfold lift.
    rewrite (findNextPos_ext (set_cursor_pos pos g) (set_cursor_pos pos g1)) by done.
    rewrite Hpos. unfold bind at 1. unfold ret at 1.
    change (storage_items (set_cursor_pos pos g1)) with (storage_items g).
    rewrite Hnone. reflexivity. }
  rewrite (bind_ret _ _ _ _ _ Hloop). reflexivity.
Qed.

(** C1 fails on the code.  On the loaded example grid, [remove] called a
    second time on an item handle already removed (bound index -1) walks
    into the early return of [recalcItems]; and with animation disabled in
    the configuration the completion of [refresh] is never run.  Both
    calls return with the state [BUILD] and nothing queued that would
    reset it. *)
Theorem C1_build_state_left_behind :
  (stateIsNormal check_all after_first_remove = true
   /\ index_of after_first_remove 1 = Some (-1)
   /\ (item_remove 1 after_first_remove).1 = Ret tt
   /\ gridState (item_remove 1 after_first_remove).2 = ABI7_GRID_STATE_BUILD
   /\ timers (item_remove 1 after_first_remove).2 = [])
  /\ (stateIsNormal check_all (example_loaded false) = true
      /\ (refresh CbUndefined (example_loaded false)).1 = Ret tt
      /\ gridState (refresh CbUndefined (example_loaded false)).2 = ABI7_GRID_STATE_BUILD
      /\ timers (refresh CbUndefined (example_loaded false)).2 = []).
Proof. vm_compute. repeat split. Qed.

(** ** C4: removing a record *)

Lemma recalc_frame_eq (g g' : Grid) :
  recalc_frame g' = recalc_frame g ->
  config g' = config g /\ sizing g' = sizing g /\ heap g' = heap g /\ cache g' = cache g
  /\ gridState g' = gridState g /\ ready g' = ready g /\ visible g' = visible g
  /\ inScroll g' = inScroll g /\ timers g' = timers g /\ trace g' = trace g
  /\ items g' = items g /\ item_index <$> views g' = item_index <$> views g.
Proof. unfold recalc_frame. intros H. by injection H. Qed.

Lemma item_setPosition_index (x : option Q) (y : option num) (self : ItemView) :
  item_index (item_setPosition x y self) = item_index self.
Proof. unfold item_setPosition. by destruct (_ || _). Qed.

Lemma alter_item_index (f : ItemView -> ItemView) (id : nat) (l : list ItemView) :
  (forall v, item_index (f v) = item_index v) ->
  item_index <$> alter f id l = item_index <$> l.
Proof.
  intros H. revert id. induction l as [|v l IH]; intros [|id]; simpl; try done.
  - by rewrite H.
  - f_equal. apply IH.
Qed.

Lemma recalc_loop_frame (n : nat) (i : Z) (cfg : RecalcOptions) :
  preserves (same_on recalc_frame) (recalc_loop n i cfg).
Proof.
  revert i. induction n as [|n IH]; intros i; simpl; frame.
  unfold same_on, recalc_frame, update_view.
  destruct (getItemByIndex g i); [|done]. simpl.
  rewrite alter_item_index; [done|]. intros v. apply item_setPosition_index.
Qed.

Lemma Array_sort_nil {A : Type} (cmp : A -> A -> num) (l : list A) :
  Array_sort cmp l = [] -> l = [].
Proof.
  intros H. apply Permutation_nil_r. rewrite <- H. symmetry. apply Array_sort_perm.
Qed.

(** [findNextPos] returns when every index below the cursor has an
    entry. *)
Lemma findNextPos_returns (g : Grid) :
  (forall j, 0 <= j < cursor_pos g -> is_Some (entry_at (storage_items g) j)) ->
  exists p, findNextPos g = Ret p.
Proof.
  intros Hres. unfold findNextPos.
  destruct (Z.ltb_spec (cursor_pos g) (column_count (sizing g))); [eauto|].
  destruct (Z.ltb_spec 1 (column_count (sizing g))).
  - destruct (scan_back_returns (storage_items g) (Z.to_nat (cursor_pos g))
                (column_count (sizing g)) (Z.to_nat (cursor_pos g)) [])
      as (arr & n' & Hscan & _ & Hne & _).
    { lia. }
    { intros j Hj. apply Hres. lia. }
    { split; [|split].
      - intros k a Hk. by rewrite lookup_nil in Hk.
      - intros k1 k2 a b Hk. by rewrite lookup_nil in Hk.
      - intros j b Hj. lia. }
    rewrite Hscan.
    destruct (last (Array_sort by_bottom_desc arr)) as [e|] eqn:Hlast; [eauto|].
    apply last_None, Array_sort_nil in Hlast. exfalso. apply Hne; [left; lia|done].
  - destruct (Z.ltb_spec 0 (cursor_pos g)); [|eauto].
    destruct (Hres (cursor_pos g - 1) ltac:(lia)) as [e He]. rewrite He. eauto.
Qed.

Lemma entry_at_present (l : list (option Entry)) (i : Z) :
  no_holes l -> 0 <= i < Z.of_nat (length l) -> is_Some (entry_at l i).
Proof.
  intros Hl Hi. unfold entry_at, lookupZ.
  destruct (Z.ltb_spec i 0); [lia|].
  destruct (lookup_lt_is_Some_2 l (Z.to_nat i) ltac:(lia)) as [o Ho]. rewrite Ho.
  unfold no_holes in Hl. rewrite Forall_lookup in Hl. destruct (Hl _ _ Ho) as [e ->]. eauto.
Qed.

(** On a layout array without holes the loop of [recalcItems] runs to its
    end; it keeps the length, leaves no hole, and does not touch the
    entries below [i]. *)
Lemma recalc_loop_completes (n : nat) (i : Z) (cfg : RecalcOptions) (g : Grid) :
  0 <= i -> n = Z.to_nat (Z.of_nat (length (storage_items g)) - i) ->
  no_holes (storage_items g) ->
  exists g', recalc_loop n i cfg g = (Ret true, g')
    /\ length (storage_items g') = length (storage_items g)
    /\ no_holes (storage_items g')
    /\ forall j : nat, Z.of_nat j < i -> storage_items g' !! j = storage_items g !! j.
Proof.
  revert i g. induction n as [|n IH]; intros i g Hi Hn Hl.
  - exists g. simpl. repeat split; done.
  - cbn [recalc_loop]. rewrite bind_modify.
    set (g1 := set_cursor_pos i g).
    destruct (findNextPos_returns g1) as [nxt Hnxt].
    { intros j Hj. apply entry_at_present; [done|]. simpl in *. lia. }
    unfold bind at 1. unfold lift. rewrite Hnxt.
    unfold bind at 1. unfold ret at 1.
    destruct (entry_at_present (storage_items g) i Hl ltac:(lia)) as [obj Hobj].
    change (storage_items g1) with (storage_items g). rewrite Hobj.
    rewrite bind_modify.
    match goal with
    | |- context [bind (when ?b ?m) ?k ?gg] =>
        assert (Hw : exists g3, bind (when b m) k gg = k tt g3
                       /\ storage_items g3 = storage_items gg)
    end.
    { destruct (_ && _).
      - eexists. split; [reflexivity|]. simpl. by destruct (getItemByIndex _ _).
      - eexists. split; reflexivity. }
    destruct Hw as (g3 & -> & Hs3). cbn [set_storage_items storage_items] in Hs3.
    destruct (IH (i + 1) g3) as (g' & Hrun & Hlen & Hno & Hpre).
    { lia. }
    { rewrite Hs3, length_insert. simpl in *. lia. }
    { rewrite Hs3. unfold no_holes. apply Forall_insert; [done|eauto]. }
    exists g'. split; [done|]. rewrite Hlen, Hs3, length_insert. split; [done|].
    split; [done|]. intros j Hj. rewrite Hpre by lia. rewrite Hs3.
    apply list_lookup_insert_ne. lia.
Qed.

(** [recalcItems] on a layout array without holes: the loop runs to its
    end and hands over to the completion. *)
Lemma recalcItems_completes (g : Grid) (pos : Z) (options : RecalcOptions) (fdone : Callback) :
  stateIsNormal check_all g = true -> 0 <= pos -> no_holes (storage_items g) ->
  exists g1,
    recalcItems pos options fdone g
    = (if default (enable (animation_cfg (config g))) (opt_animation options)
       then animation false (CbRecalcItemsDone fdone)
       else run_callback (CbRecalcItemsDone fdone)) g1
    /\ recalc_frame g1 = recalc_frame (set_gridState ABI7_GRID_STATE_BUILD g)
    /\ length (storage_items g1) = length (storage_items g)
    /\ no_holes (storage_items g1)
    /\ forall j : nat, Z.of_nat j < pos -> storage_items g1 !! j = storage_items g !! j.
Proof.
  intros Hn Hpos Hl. unfold recalcItems. rewrite Hn. cbn [negb]. cbv zeta.
  unfold setBuildState, state. rewrite bind_modify.
  set (g0 := set_gridState ABI7_GRID_STATE_BUILD g).
  assert (Hanim : forall (k : unit -> M unit),
            bind (when (default (enable (animation_cfg (config g))) (opt_animation options))
                       (animation true CbUndefined)) k g0 = k tt g0).
  { intros k. unfold bind, when, animation.
    destruct (default _ _); [|reflexivity].
    change (config g0) with (config g). destruct (enable _); reflexivity. }
  rewrite Hanim.
  destruct (recalc_loop_completes
              (Z.to_nat (Z.of_nat (length (storage_items g)) - pos)) pos options g0)
    as (g1 & Hrun & Hlen & Hno & Hpre); [done..|].
  rewrite (bind_ret _ _ _ _ _ Hrun).
  exists g1. split; [done|]. split; [|done].
  pose proof (recalc_loop_frame
                (Z.to_nat (Z.of_nat (length (storage_items g)) - pos)) pos options g0) as H.
  rewrite Hrun in H. exact H.
Qed.

Lemma index_of_update_view (f : ItemView -> ItemView) (i j : nat) (g : Grid) :
  index_of (update_view i f g) j
  = if decide (i = j) then item_index <$> (f <$> views g !! j) else index_of g j.
Proof.
  unfold index_of, update_view. simpl. destruct (decide (i = j)) as [->|Hne].
  - by rewrite list_lookup_alter_eq.
  - by rewrite list_lookup_alter_ne.
Qed.

(** Decrementing the items of a duplicate-free list of handles. *)
Lemma index_of_decrement_fold (l : list nat) (g : Grid) (j : nat) :
  NoDup l ->
  index_of (foldr (fun i => update_view i item_decrement_index) g l) j
  = (fun k => if decide (j ∈ l) then k - 1 else k) <$> index_of g j.
Proof.
  induction l as [|i l IH]; intros Hnd.
  - cbn [foldr]. destruct (index_of g j); cbn [fmap option_fmap option_map]; [|done].
    case_decide as H; [by apply elem_of_nil in H|done].
  - apply NoDup_cons in Hnd as [Hni Hnd]. cbn [foldr].
    rewrite index_of_update_view. specialize (IH Hnd).
    destruct (decide (i = j)) as [->|Hne].
    + unfold index_of in IH |- *.
      destruct (views (foldr _ g l) !! j) as [v|] eqn:Hv;
        destruct (views g !! j) as [v0|]; cbn [fmap option_fmap option_map] in *; try done.
      rewrite decide_False in IH by done. inversion IH as [Hk].
      rewrite decide_True by (by left). unfold item_decrement_index. simpl. by rewrite Hk.
    + rewrite IH. destruct (index_of g j); cbn [fmap option_fmap option_map]; [|done].
      destruct (decide (j ∈ l)) as [Hin|Hin].
      * rewrite decide_True; [done|by right].
      * rewrite decide_False; [done|]. intros Hc. apply elem_of_cons in Hc as [?|?]; done.
Qed.

(** [splice(k, 1)] at an index of the array. *)
Lemma Array_splice1_at {A : Type} (k : Z) (l : list A) (r : A) :
  0 <= k -> l !! Z.to_nat k = Some r ->
  Array_splice1 k l = (delete (Z.to_nat k) l, [r]).
Proof.
  intros Hk Hr. unfold Array_splice1, relative_index.
  pose proof (lookup_lt_Some _ _ _ Hr) as Hlt.
  destruct (Z.ltb_spec k 0); [lia|].
  rewrite Z.min_l by lia. f_equal.
  - symmetry. apply delete_take_drop.
  - rewrite (drop_S _ _ _ Hr). reflexivity.
Qed.

Lemma Array_splice1_prefix {A : Type} (k : Z) (l : list A) (j : nat) :
  0 <= k -> (j < Z.to_nat k)%nat -> (Array_splice1 k l).1 !! j = l !! j.
Proof.
  intros Hk Hj. unfold Array_splice1, relative_index. cbn [fst].
  destruct (Z.ltb_spec k 0); [lia|].
  destruct (Z.le_gt_cases k (Z.of_nat (length l))).
  - rewrite Z.min_l by lia. rewrite lookup_app_l by (rewrite length_take; lia).
    apply lookup_take_lt. lia.
  - rewrite Z.min_r by lia. rewrite Nat2Z.id, firstn_all, skipn_all2 by lia.
    by rewrite app_nil_r.
Qed.

Lemma Array_splice1_no_holes (k : Z) (l : list (option Entry)) :
  no_holes l -> no_holes (Array_splice1 k l).1.
Proof.
  intros H. unfold Array_splice1, no_holes. cbn [fst].
  apply Forall_app. split; [by apply Forall_take|by apply Forall_drop].
Qed.

(** The grid [remove] hands to [recalcItems]. *)
Lemma item_remove_before_recalc_frame (id : nat) (self : ItemView) (g : Grid) :
  let pre := item_remove_before_recalc id self g in
  config pre = config g /\ timers pre = timers g /\ trace pre = trace g
  /\ gridState pre = ABI7_GRID_STATE_NORMAL
  /\ stateIsNormal check_all pre
     = stateIsNormal check_all (set_gridState ABI7_GRID_STATE_NORMAL g)
  /\ storage_items pre = (Array_splice1 (item_index self) (storage_items g)).1.
Proof.
  unfold item_remove_before_recalc, stateIsNormal.
  cbn [config timers trace gridState storage_items ready visible inScroll set_gridState
       set_heap update_view set_views set_storage_items checkReady checkVisible
       checkScroll check_all].
  rewrite (foldr_update_view_frame config), (foldr_update_view_frame timers),
    (foldr_update_view_frame trace), (foldr_update_view_frame storage_items),
    (foldr_update_view_frame ready), (foldr_update_view_frame visible),
    (foldr_update_view_frame inScroll); done.
Qed.

Lemma item_remove_before_recalc_index (id : nat) (self : ItemView) (g : Grid)
    (i : nat) (v : ItemView) :
  views g !! id = Some self -> NoDup (items g) ->
  i ∈ items g -> views g !! i = Some v ->
  index_of (item_remove_before_recalc id self g) i
  = Some (if decide (i = id) then -1
          else if item_index self <? item_index v then item_index v - 1
               else item_index v).
Proof.
  intros Hself Hnd Hin Hv. unfold item_remove_before_recalc.
  set (g1 := set_gridState ABI7_GRID_STATE_BUILD g).
  set (l := List.filter _ (items g1)).
  set (g2 := foldr _ g1 l).
  assert (Hl : NoDup l).
  { unfold l. apply NoDup_ListNoDup, List.NoDup_filter, NoDup_ListNoDup. exact Hnd. }
  assert (Hg2 : forall j, index_of g2 j
                          = (fun k => if decide (j ∈ l) then k - 1 else k) <$> index_of g1 j).
  { intros j. by apply index_of_decrement_fold. }
  assert (Hmem : forall j w, views g !! j = Some w ->
                   (j ∈ l <-> j ∈ items g /\ (item_index self <? item_index w) = true)).
  { intros j w Hw. unfold l. rewrite list_elem_of_In, List.filter_In, <- list_elem_of_In.
    unfold index_of. change (views g1) with (views g). rewrite Hw. simpl. reflexivity. }
  match goal with
  | |- index_of ?gg i = _ =>
      assert (Hviews : forall j, index_of gg j
                = if decide (id = j)
                  then (fun _ => -1) <$> index_of g2 j
                  else index_of g2 j)
  end.
  { intros j. unfold index_of.
    cbn [views set_gridState update_view set_views set_heap set_storage_items].
    destruct (decide (id = j)) as [->|Hne].
    - rewrite !list_lookup_alter_eq. by destruct (views g2 !! j).
    - by rewrite !list_lookup_alter_ne. }
  rewrite Hviews, Hg2. unfold index_of at 1 2. change (views g1) with (views g).
  rewrite Hv. cbn [fmap option_fmap option_map].
  destruct (decide (id = i)) as [->|Hne].
  - by rewrite decide_True.
  - destruct (decide (i = id)) as [->|_]; [done|]. f_equal.
    destruct (decide (i ∈ l)) as [Hil|Hil].
    + apply (Hmem i v Hv) in Hil as [_ ->]. done.
    + destruct (item_index self <? item_index v) eqn:Hlt; [|done].
      exfalso. apply Hil. apply (Hmem i v Hv). done.
Qed.

Lemma index_of_fmap (g g' : Grid) (i : nat) :
  item_index <$> views g' = item_index <$> views g -> index_of g' i = index_of g i.
Proof. intros H. unfold index_of. by rewrite <- !list_lookup_fmap, H. Qed.

(** The completion [remove] gives [recalcItems]: back to the normal
    state, then the delete notification. *)
Lemma run_remove_done (data : list JsVal) (k : Z) (g : Grid) :
  exists g', run_callback (CbRecalcItemsDone (CbItemDelete data k)) g = (Ret tt, g')
    /\ gridState g' = ABI7_GRID_STATE_NORMAL
    /\ trace g' = trace g ++ (if onItemDelete (events (config g))
                              then [EvItemDelete (PArray data) k] else [])
    /\ timers g' = timers g /\ heap g' = heap g /\ cache g' = cache g
    /\ views g' = views g /\ storage_items g' = storage_items g.
Proof.
  cbn [run_callback]. unfold setBuildState, state. rewrite bind_modify.
  cbn [config set_gridState]. destruct (onItemDelete (events (config g))).
  - eexists. split; [reflexivity|]. repeat split.
  - eexists. split; [reflexivity|]. repeat split. simpl. by rewrite app_nil_r.
Qed.

(** C4: [remove] on the item bound to index [k] of a cache that has a
    record [r] there takes exactly that record out of the cache; every
    item of the pool bound above [k] is bound one lower, the removed item
    is unbound, the others keep their index; the layout entries below [k]
    are what they were; and the delete notification is made with [r] --
    in the one-element array that [splice] returned -- and [k], at once
    when animation is off and when the animation timeout runs otherwise,
    the grid being back in the normal state by then. *)
Theorem C4_remove_record (g : Grid) (id : nat) (self : ItemView) (r : JsVal) :
  stateIsNormal check_all g = true -> views g !! id = Some self ->
  NoDup (items g) -> no_holes (storage_items g) ->
  0 <= item_index self -> cache_records g !! Z.to_nat (item_index self) = Some r ->
  let k := item_index self in
  let g' := (item_remove id g).2 in
  let notice := TimerAnimation (CbRecalcItemsDone (CbItemDelete [r] k)) in
  let told := if onItemDelete (events (config g))
              then [EvItemDelete (PArray [r]) k] else [] in
  cache_records g' = delete (Z.to_nat k) (cache_records g)
  /\ (forall i v, i ∈ items g -> views g !! i = Some v ->
        index_of g' i = Some (if decide (i = id) then -1
                              else if k <? item_index v then item_index v - 1
                                   else item_index v))
  /\ (forall j, (j < Z.to_nat k)%nat -> storage_items g' !! j = storage_items g !! j)
  /\ (item_remove id g).1 = Ret tt
  /\ if enable (animation_cfg (config g))
     then timers g' = timers g ++ [notice] /\ trace g' = trace g
          /\ trace (fire notice g').2 = trace g ++ told
          /\ gridState (fire notice g').2 = ABI7_GRID_STATE_NORMAL
     else trace g' = trace g ++ told /\ gridState g' = ABI7_GRID_STATE_NORMAL.
Proof.
  intros Hn Hself Hnd Hholes Hk Hr k g' notice told.
  subst g'. rewrite (item_remove_unfold id self g Hn Hself).
  rewrite (Array_splice1_at _ _ r Hk Hr). cbn [snd]. fold k.
  set (pre := item_remove_before_recalc id self g).
  destruct (item_remove_before_recalc_frame id self g)
    as (Hcfg & Htm & Htr & Hst & Hnorm & Hsto). fold pre in Hcfg, Htm, Htr, Hst, Hnorm, Hsto.
  destruct (item_remove_before_recalc_dataset id self g) as [Hcache Hheap].
  fold pre in Hcache, Hheap. rewrite (Array_splice1_at _ _ r Hk Hr) in Hheap. cbn [fst] in Hheap.
  assert (Hnpre : stateIsNormal check_all pre = true).
  { rewrite Hnorm. unfold stateIsNormal in Hn |- *.
    destruct (gridState g); try discriminate Hn. exact Hn. }
  destruct (recalcItems_completes pre k remove_options (CbItemDelete [r] k) Hnpre Hk)
    as (g1 & Hrun & Hfr & Hlen & Hno & Hpre).
  { rewrite Hsto. by apply Array_splice1_no_holes. }
  apply recalc_frame_eq in Hfr
    as (F1 & F2 & F3 & F4 & F5 & F6 & F7 & F8 & F9 & F10 & F11 & F12).
  cbn [config sizing heap cache gridState ready visible inScroll timers trace items views
       set_gridState] in F1, F2, F3, F4, F5, F6, F7, F8, F9, F10, F11, F12.
  rewrite Hrun. cbn [opt_animation remove_options default]. rewrite Hcfg.
  destruct (run_remove_done [r] k g1)
    as (g2 & Hdone & D1 & D2 & D3 & D4 & D5 & D6 & D7).
  assert (Hidx : forall gx, views gx = views g1 -> forall i v,
            i ∈ items g -> views g !! i = Some v ->
            index_of gx i = Some (if decide (i = id) then -1
                                  else if k <? item_index v then item_index v - 1
                                       else item_index v)).
  { intros gx Hgx i v Hi Hv.
    rewrite (index_of_fmap pre gx i) by (by rewrite Hgx).
    by apply item_remove_before_recalc_index. }
  assert (Hcr : forall gx, heap gx = heap g1 -> cache gx = cache g1 ->
            cache_records gx = delete (Z.to_nat k) (cache_records g)).
  { intros gx Hh Hc. unfold cache_records at 1.
    rewrite Hh, Hc, F3, F4, Hheap, Hcache, lookup_insert_eq. reflexivity. }
  assert (Hsp : forall gx, storage_items gx = storage_items g1 -> forall j,
            (j < Z.to_nat k)%nat -> storage_items gx !! j = storage_items g !! j).
  { intros gx Hgx j Hj. rewrite Hgx, Hpre by lia. rewrite Hsto.
    by apply Array_splice1_prefix. }
  assert (Htold : (if onItemDelete (events (config g1))
                   then [EvItemDelete (PArray [r]) k] else []) = told).
  { unfold told. by rewrite F1, Hcfg. }
  destruct (enable (animation_cfg (config g))) eqn:Hen.
  - unfold animation. rewrite F1, Hcfg, Hen. unfold modify. cbn [fst snd].
    split; [by apply Hcr|]. split; [by apply Hidx|]. split; [by apply Hsp|].
    split; [done|]. split; [cbn [timers set_timers]; by rewrite F9, Htm|].
    split; [cbn [trace set_timers]; by rewrite F10, Htr|].
    unfold notice. cbn [fire].
    destruct (run_remove_done [r] k (set_timers (timers g1 ++ [notice]) g1))
      as (g3 & Hdone3 & E1 & E2 & _).
    unfold notice in Hdone3. rewrite Hdone3. cbn [snd]. rewrite E1, E2.
    cbn [trace set_timers config]. rewrite Htold, F10, Htr. done.
  - rewrite Hdone. cbn [fst snd].
    split; [apply Hcr; congruence|]. split; [by apply Hidx|]. split; [by apply Hsp|].
    split; [done|]. rewrite D1, D2, Htold, F10, Htr. done.
Qed.

Lemma C4_remove_record_witness :
  cache_records (item_remove 1 (example_loaded true)).2
  = delete 1%nat (cache_records (example_loaded true)).
Proof.
  refine (proj1 (C4_remove_record (example_loaded true) 1
                   {| item_index := 1; loadIndex := 1; item_x := 1010 # 2; item_y := Num 0;
                      item_column := 1; valHeight := 50; valWidth := 250 |}
                   (record 1 50) _ _ _ _ _ _)).
  - vm_compute. reflexivity.
  - vm_compute. reflexivity.
  - apply (bool_decide_unpack _). vm_compute. reflexivity.
  - unfold no_holes. vm_compute. repeat constructor; eexists; reflexivity.
  - vm_compute. discriminate.
  - vm_compute. reflexivity.
Defined.

(** ** C6: refreshing twice *)

#[global] Instance building_refl : Reflexive building.
Proof. intros g H. done. Qed.

#[global] Instance building_trans : Transitive building.
Proof.
  intros g1 g2 g3 H12 H23 H. destruct (H12 H) as [H1 H2].
  destruct (H23 H1) as [K1 K2]. split; congruence.
Qed.

Lemma stateIsNormal_build (g : Grid) :
  gridState g = ABI7_GRID_STATE_BUILD -> stateIsNormal check_all g = false.
Proof. intros H. apply stateIsNormal_false. left. rewrite H. discriminate. Qed.

Ltac building_done :=
  unfold building, update_view; simpl; repeat case_match; simpl; done.

(** In the [BUILD] state a branch guarded by [stateIsNormal] is not
    taken. *)
Ltac building_vacuous :=
  match goal with
  | H : stateIsNormal check_all ?g = true |- building ?g _ =>
      let Hb := fresh in
      intros Hb; rewrite (stateIsNormal_build g Hb) in H; discriminate H
  end.

Ltac building_frame :=
  repeat first [building_vacuous | frame_step]; try building_done.

Lemma setSize_building (id : nat) (width height : option Z) :
  preserves building (setSize id width height).
Proof. unfold setSize. building_frame. Qed.

Lemma run_callback_storage (cb : Callback) :
  preserves (same_on storage_items) (run_callback cb).
Proof. induction cb; simpl; frame. Qed.

Lemma refresh_resize_building (ids : list nat) (i : Z) (min_screen : option Z) :
  preserves building (refresh_resize ids i min_screen).
Proof.
  revert i. induction ids as [|item ids IH]; intros i; simpl; building_frame.
  all: try apply setSize_building.
  all: try apply IH.
Qed.

Lemma foldl_frame {T : Type} (f : Grid -> T) (step : Grid -> nat -> Grid) (ids : list nat)
    (g : Grid) :
  (forall g0 i, f (step g0 i) = f g0) -> f (foldl step g ids) = f g.
Proof.
  intros H. revert g. induction ids as [|i ids IH]; intros g; simpl; [done|].
  by rewrite IH, H.
Qed.

Lemma place_items_frame {T : Type} (f : Grid -> T) (ids : list nat) :
  (forall v g0, f (set_views v g0) = f g0) ->
  preserves (same_on f) (place_items ids).
Proof.
  intros H. unfold place_items. apply preserves_modify. intros g. unfold same_on.
  apply foldl_frame. intros g0 i. unfold update_view. repeat case_match; done.
Qed.

Lemma same_on_building (g g' : Grid) :
  same_on (fun g => (gridState g, storage_items g)) g g' -> building g g'.
Proof. unfold same_on. intros H Hb. injection H as H1 H2. split; congruence. Qed.

(** The closure [refresh] gives [recalcStorageItems] leaves the state and
    the entries as the layout pass left them. *)
Lemma refresh_tail_building (min_screen : option Z) (fdone : Callback) :
  preserves building
    (run (fun g => refresh_resize (items g) 0 min_screen g);
     run animation true CbUndefined;
     run (fun g => place_items (items g) g);
     animation false (CbRefreshDone fdone)).
Proof.
  apply preserves_bind; [apply _..| |intros _].
  { intros g. apply refresh_resize_building. }
  apply preserves_bind; [apply _..| |intros _].
  { apply (preserves_weaken (same_on (fun g => (gridState g, storage_items g))));
      [apply same_on_building|].
    unfold animation. frame. }
  apply preserves_bind; [apply _..| |intros _].
  { apply (preserves_weaken (same_on (fun g => (gridState g, storage_items g))));
      [apply same_on_building|].
    intros g. by apply place_items_frame. }
  apply (preserves_weaken (same_on (fun g => (gridState g, storage_items g))));
    [apply same_on_building|].
  unfold animation. frame.
Qed.

Lemma storage_height_ext (g g' : Grid) (obj : Pos) (dat : JsVal) :
  config g' = config g -> sizing g' = sizing g ->
  storage_height g' obj dat = storage_height g obj dat.
Proof. intros H1 H2. unfold storage_height. by rewrite H1, H2. Qed.

(** One turn of the loop of [recalcStorageItems]. *)
Lemma recalcStorage_loop_S (n : nat) (i : Z) (g : Grid) :
  recalcStorage_loop (S n) i g
  = match findNextPos (set_cursor_pos i g) with
    | Throw e => (Throw e, set_cursor_pos i g)
    | Ret obj =>
        match storage_height (set_cursor_pos i g) obj
                (default VUndefined (lookupZ (cache_records g) i)) with
        | Throw e => (Throw e, set_cursor_pos i g)
        | Ret h =>
            recalcStorage_loop n (i + 1)
              (set_storage_items
                 (storage_items g ++ [Some {| e_left := pos_left obj;
                                              e_top := pos_top obj;
                                              e_height := h;
                                              e_bottom := num_add_height (pos_top obj) h;
                                              e_column := pos_column obj |}])
                 (set_cursor_pos i g))
        end
    end.
Proof.
  cbn [recalcStorage_loop]. rewrite bind_modify. unfold bind at 1. unfold lift at 1.
  destruct (findNextPos (set_cursor_pos i g)) as [obj|e]; [|reflexivity].
  unfold bind at 1. unfold lift at 1.
  change (cache_records (set_cursor_pos i g)) with (cache_records g).
  destruct (storage_height _ obj _) as [h|e]; reflexivity.
Qed.

(** The layout pass reads the configuration, the geometry, the records
    and the entries it has written so far, nothing else. *)
Lemma recalcStorage_loop_sim (n : nat) (i : Z) (g1 g2 : Grid) :
  same_layout_inputs g1 g2 ->
  (recalcStorage_loop n i g1).1 = (recalcStorage_loop n i g2).1
  /\ same_layout_inputs (recalcStorage_loop n i g1).2 (recalcStorage_loop n i g2).2.
Proof.
  revert i g1 g2. induction n as [|n IH]; intros i g1 g2 Hs; [done|].
  destruct Hs as (Hc & Hz & Hr & Hst).
  rewrite !recalcStorage_loop_S.
  rewrite (findNextPos_ext (set_cursor_pos i g2) (set_cursor_pos i g1)) by done.
  destruct (findNextPos (set_cursor_pos i g2)) as [obj|e]; [|done].
  rewrite Hr.
  rewrite (storage_height_ext (set_cursor_pos i g2) (set_cursor_pos i g1)) by done.
  destruct (storage_height (set_cursor_pos i g2) obj _) as [h|e]; [|done].
  apply IH.
  split; [done|]. split; [done|]. split; [done|].
  cbn [storage_items set_storage_items set_cursor_pos]. by rewrite Hst.
Qed.

(** A layout pass that returns has written one entry per index. *)
Lemma recalcStorage_loop_length (n : nat) (i : Z) (g g' : Grid) :
  recalcStorage_loop n i g = (Ret tt, g') ->
  length (storage_items g') = (length (storage_items g) + n)%nat.
Proof.
  revert i g. induction n as [|n IH]; intros i g.
  - simpl. intros [= <-]. lia.
  - rewrite recalcStorage_loop_S.
    destruct (findNextPos (set_cursor_pos i g)) as [obj|e]; [|done].
    destruct (storage_height _ obj _) as [h|e]; [|done].
    intros H. apply IH in H.
    rewrite H. cbn [storage_items set_storage_items set_cursor_pos].
    rewrite length_app. simpl. lia.
Qed.

Lemma recalcStorage_loop_frame (n : nat) (i : Z) :
  preserves (same_on (fun g => (gridState g, dataset g))) (recalcStorage_loop n i).
Proof. revert i. induction n as [|n IH]; intros i; simpl; frame. Qed.

Lemma initSizingParams_run (g : Grid) :
  exists g1, initSizingParams g = (Ret tt, g1)
    /\ config g1 = config g /\ sizing g1 = sizing_of (config g) (clientWidth g)
    /\ cache_records g1 = cache_records g /\ storage_items g1 = storage_items g
    /\ gridState g1 = gridState g.
Proof.
  unfold initSizingParams, bind, modify, when, emit, ret.
  destruct (onSizeCalc (events (config g))); eexists; (split; [reflexivity|]); repeat split.
Qed.

(** [refresh] in the normal state: a layout pass over [refresh_count]
    indices, on an empty layout array and the geometry of the container,
    followed by sizing and placing the items. *)
Lemma refresh_layout_pass (fdone : Callback) (g : Grid) :
  stateIsNormal check_all g = true ->
  exists g0,
    config g0 = config g /\ sizing g0 = sizing_of (config g) (clientWidth g)
    /\ cache_records g0 = cache_records g /\ storage_items g0 = []
    /\ storage_items (refresh fdone g).2
       = storage_items (recalcStorage_loop (Z.to_nat (refresh_count g)) 0 g0).2
    /\ ((refresh fdone g).1 = Ret tt ->
        (recalcStorage_loop (Z.to_nat (refresh_count g)) 0 g0).1 = Ret tt).
Proof.
  intros Hn.
  set (gb := set_gridState ABI7_GRID_STATE_BUILD g).
  destruct (initSizingParams_run gb) as (g1 & Hstep & Hc1 & Hz1 & Hr1 & Hs1 & Hb1).
  set (g0 := set_storage_items [] g1).
  assert (Heq : refresh fdone g
                = bind (recalcStorage_loop (Z.to_nat (refresh_count g)) 0)
                    (fun _ =>
                       run (fun g => refresh_resize (items g) 0
                                       (min_index g1 (screen_all g1)) g);
                       run animation true CbUndefined;
                       run (fun g => place_items (items g) g);
                       animation false (CbRefreshDone fdone)) g0).
  { unfold refresh. rewrite Hn. cbn [negb].
    unfold setBuildState, state. rewrite bind_modify. fold gb.
    rewrite (bind_ret _ _ _ _ _ Hstep).
    unfold bind at 1. unfold ret at 1. unfold bind at 1. unfold ret at 1.
    unfold recalcStorageItems. rewrite bind_modify. fold g0.
    replace (if Z.of_nat (length (storage_items g1)) =? 0
             then Z.of_nat (length (cache_records g1))
             else Z.of_nat (length (storage_items g1))) with (refresh_count g).
    - reflexivity.
    - unfold refresh_count. by rewrite Hs1, Hr1. }
  exists g0. split; [done|]. split; [done|]. split; [done|]. split; [done|].
  rewrite Heq.
  pose proof (recalcStorage_loop_frame (Z.to_nat (refresh_count g)) 0 g0) as Hfr.
  destruct (recalcStorage_loop (Z.to_nat (refresh_count g)) 0 g0) as [[[]|e] gL] eqn:Hrun.
  - rewrite (bind_ret _ _ _ _ _ Hrun). cbn [fst snd] in *.
    pose proof (refresh_tail_building (min_index g1 (screen_all g1)) fdone gL) as Ht.
    apply (f_equal fst) in Hfr. cbn [fst] in Hfr.
    destruct Ht as [_ Hst]; [rewrite Hfr; exact Hb1|]. split; [exact Hst|done].
  - rewrite (bind_throw _ _ _ _ _ Hrun). cbn [fst snd]. split; done.
Qed.

Lemma refresh_resize_dataset (ids : list nat) (i : Z) (min_screen : option Z) :
  preserves (same_on dataset) (refresh_resize ids i min_screen).
Proof.
  revert i. induction ids as [|item ids IH]; intros i; simpl; frame.
  all: try apply setSize_dataset.
Qed.

Lemma refresh_dataset (fdone : Callback) : preserves (same_on dataset) (refresh fdone).
Proof.
  unfold refresh, initSizingParams, recalcStorageItems. frame.
  all: first [ apply animation_dataset
             | apply refresh_resize_dataset
             | by apply place_items_frame
             | apply (preserves_weaken (same_on (fun g => (gridState g, dataset g))));
               [intros ? ? H; exact (f_equal snd H) | apply recalcStorage_loop_frame] ].
Qed.

(** C6: when a call of [refresh] has returned, a second call made with
    the configuration, the container width, the cached records and the
    layout entries as the first call left them ends with the same layout
    entries -- left, top, height, bottom and column at every index. *)
Theorem C6_refresh_twice (g g2 : Grid) (fdone fdone2 : Callback) :
  stateIsNormal check_all g = true ->
  (refresh fdone g).1 = Ret tt ->
  let g1 := (refresh fdone g).2 in
  config g2 = config g1 -> clientWidth g2 = clientWidth g1 ->
  cache_records g2 = cache_records g1 -> storage_items g2 = storage_items g1 ->
  storage_items (refresh fdone2 g2).2 = storage_items g1.
Proof.
  intros Hn Hret g1 Hc Hw Hr Hs.
  pose proof (refresh_dataset fdone g) as Hd. fold g1 in Hd.
  apply dataset_eq in Hd as (Dc & Dh & Dk & _ & _).
  assert (Dw : clientWidth g1 = clientWidth g).
  { pose proof (refresh_dataset fdone g) as Hd. fold g1 in Hd.
    unfold same_on, dataset in Hd. by injection Hd. }
  assert (Dr : cache_records g1 = cache_records g).
  { unfold cache_records. by rewrite Dh, Dk. }
  destruct (refresh_layout_pass fdone g Hn) as (g0 & Hc0 & Hz0 & Hr0 & Hs0 & Hsto & Hloop).
  fold g1 in Hsto. specialize (Hloop Hret).
  destruct (recalcStorage_loop (Z.to_nat (refresh_count g)) 0 g0) as [o gL] eqn:Hrun.
  cbn [fst snd] in *. subst o.
  pose proof (recalcStorage_loop_length _ _ _ _ Hrun) as Hlen.
  rewrite Hs0 in Hlen. cbn [length] in Hlen.
  destruct (stateIsNormal check_all g2) eqn:Hn2.
  - destruct (refresh_layout_pass fdone2 g2 Hn2)
      as (g0' & Hc0' & Hz0' & Hr0' & Hs0' & Hsto' & _).
    rewrite Hsto'.
    assert (Hcount : refresh_count g2 = refresh_count g).
    { unfold refresh_count at 1. rewrite Hs, Hsto, Hlen, Hr, Dr.
      destruct (Z.eqb_spec (Z.of_nat (0 + Z.to_nat (refresh_count g))) 0) as [H0|H0].
      - unfold refresh_count in *.
        destruct (Z.eqb_spec (Z.of_nat (length (storage_items g))) 0); lia.
      - unfold refresh_count in *.
        destruct (Z.eqb_spec (Z.of_nat (length (storage_items g))) 0); lia. }
    rewrite Hcount.
    destruct (recalcStorage_loop_sim (Z.to_nat (refresh_count g)) 0 g0' g0) as [_ Hsim].
    { split; [congruence|]. split; [|split]; [|congruence..].
      rewrite Hz0', Hz0. congruence. }
    rewrite Hrun in Hsim. destruct Hsim as (_ & _ & _ & ->). by rewrite Hsto.
  - unfold refresh. rewrite Hn2. exact Hs.
Qed.

Lemma C6_refresh_twice_witness :
  storage_items (refresh CbUndefined
                   (settle 5 (refresh CbUndefined (example_loaded true)).2)).2
  = storage_items (refresh CbUndefined (example_loaded true)).2.
Proof.
  apply (C6_refresh_twice (example_loaded true)); vm_compute; reflexivity.
Defined.

(** ** C3: the layout invariant *)

Lemma entry_at_lookup (l : list (option Entry)) (i : nat) (e : Entry) :
  entry_at l (Z.of_nat i) = Some e <-> l !! i = Some (Some e).
Proof.
  unfold entry_at, lookupZ. destruct (Z.ltb_spec (Z.of_nat i) 0); [lia|].
  rewrite Nat2Z.id. destruct (l !! i) as [[e'|]|]; split; intros K; congruence.
Qed.

(** The scan reads the entries below its starting index only. *)
Lemma scan_back_prefix (n : nat) (l1 l2 : list (option Entry)) (cc : Z) (arr : list Entry) :
  (forall j : nat, (j < n)%nat -> entry_at l1 (Z.of_nat j) = entry_at l2 (Z.of_nat j)) ->
  scan_back n l1 cc arr = scan_back n l2 cc arr.
Proof.
  revert arr. induction n as [|n IH]; intros arr H; [done|].
  simpl. rewrite (H n) by lia. destruct (entry_at l2 (Z.of_nat n)); [|done].
  destruct (_ >=? cc); [done|]. apply IH. intros j Hj. apply H. lia.
Qed.

(** [findNextPos] reads the entries below the cursor only. *)
Lemma findNextPos_prefix (g : Grid) (l1 l2 : list (option Entry)) (i : nat) :
  (forall j : nat, (j < i)%nat -> entry_at l1 (Z.of_nat j) = entry_at l2 (Z.of_nat j)) ->
  findNextPos (set_cursor_pos (Z.of_nat i) (set_storage_items l1 g))
  = findNextPos (set_cursor_pos (Z.of_nat i) (set_storage_items l2 g)).
Proof.
  intros H. unfold findNextPos.
  cbn [config cursor_pos sizing storage_items set_cursor_pos set_storage_items].
  rewrite Nat2Z.id. rewrite (scan_back_prefix i l1 l2) by done.
  destruct (Z.of_nat i <? _); [done|]. destruct (1 <? _); [done|].
  destruct (Z.ltb_spec 0 (Z.of_nat i)); [|done].
  replace (Z.of_nat i - 1) with (Z.of_nat (i - 1)) by lia.
  rewrite (H (i - 1)%nat) by lia. done.
Qed.

Lemma placed_prefix (g : Grid) (l1 l2 : list (option Entry)) (i : nat) (e : Entry) :
  (forall j : nat, (j < i)%nat -> l1 !! j = l2 !! j) ->
  placed g l1 i e -> placed g l2 i e.
Proof.
  intros H (p & h & Hp & He & Hh). exists p, h. split; [|done].
  rewrite <- Hp. apply findNextPos_prefix. intros j Hj.
  unfold entry_at, lookupZ. destruct (Z.of_nat j <? 0); [done|].
  rewrite Nat2Z.id. by rewrite H.
Qed.

Lemma placed_ext (g g' : Grid) (its : list (option Entry)) (i : nat) (e : Entry) :
  config g' = config g -> sizing g' = sizing g -> placed g its i e -> placed g' its i e.
Proof.
  intros Hc Hs (p & h & Hp & He & Hh). exists p, h. rewrite Hc. split; [|done].
  rewrite <- Hp. by apply findNextPos_ext.
Qed.

Lemma findNextPos_first_row (g : Grid) :
  cursor_pos g < column_count (sizing g) ->
  findNextPos g
  = Ret {| pos_left := (inject_Z (cursor_pos g * (cols (space (config g))
                                                  + item_width (sizing g)))
                        + g_left (sizing g))%Q;
           pos_top := Num (pad_top (padding (config g)) - rows (space (config g))
                           + rows (space (config g)));
           pos_column := cursor_pos g |}.
Proof.
  intros H. unfold findNextPos. destruct (Z.ltb_spec (cursor_pos g) (column_count (sizing g)));
    [reflexivity|lia].
Qed.

Lemma findNextPos_single_column (g : Grid) (tmp : Entry) :
  column_count (sizing g) <= cursor_pos g -> column_count (sizing g) <= 1 ->
  0 < cursor_pos g -> entry_at (storage_items g) (cursor_pos g - 1) = Some tmp ->
  findNextPos g
  = Ret {| pos_left := e_left tmp;
           pos_top := num_add (e_bottom tmp) (Num (rows (space (config g))));
           pos_column := 0 |}.
Proof.
  intros H1 H2 H3 H4. unfold findNextPos.
  destruct (Z.ltb_spec (cursor_pos g) (column_count (sizing g))); [lia|].
  destruct (Z.ltb_spec 1 (column_count (sizing g))); [lia|].
  destruct (Z.ltb_spec 0 (cursor_pos g)); [|lia].
  by rewrite H4.
Qed.

(** A placed entry on top of sound entries is sound, and lies below every
    earlier entry of its column. *)
Lemma placed_sound (g : Grid) (its : list (option Entry)) (n : nat) (e : Entry) :
  1 <= column_count (sizing g) ->
  sound_below g its n -> placed g its n e ->
  sound_entry g n e
  /\ forall i ei ti tn, (i < n)%nat -> its !! i = Some (Some ei) ->
       e_column ei = e_column e -> e_top ei = Num ti -> e_top e = Num tn -> ti < tn.
Proof.
  intros Hcc [Hs Hm] (p & h & Hp & -> & Hh).
  set (g' := set_cursor_pos (Z.of_nat n) (set_storage_items its g)) in *.
  destruct (Z.lt_ge_cases (Z.of_nat n) (column_count (sizing g))) as [Hrow|Hrow].
  - (* the first row *)
    rewrite findNextPos_first_row in Hp by exact Hrow. injection Hp as <-.
    unfold sound_entry.
    cbn [pos_left pos_top pos_column cursor_pos config sizing g' set_cursor_pos
         set_storage_items e_left e_top e_height e_bottom e_column num_add].
    split.
    + eexists _, h. repeat split; try done; try lia.
    + intros i ei ti tn Hi Hei Hcol _ _. exfalso.
      destruct (Hs i Hi) as (ei' & Hei' & (t & h' & _ & _ & _ & _ & _ & _ & Hfirst)).
      rewrite Hei in Hei'. injection Hei' as <-. rewrite Hfirst in Hcol by lia. lia.
  - destruct (Z.lt_ge_cases 1 (column_count (sizing g))) as [Hmany|Hone].
    + (* several columns: the shortest of the scanned ones *)
      destruct (findNextPos_on_shortest g') as
        [(arr1 & ec & arr2 & b & Hscan & Hb & _ & _ & Hpos) (arr & Hscan' & [Hrc _] & _)].
      { exact Hmany. }
      { exact Hrow. }
      { intros j Hj. cbn [cursor_pos g' set_cursor_pos] in Hj.
        destruct (Hs (Z.to_nat j) ltac:(lia)) as (ej & Hej & (t & hj & _ & _ & Hbj & _)).
        exists ej, (t + hj). split; [|done].
        cbn [storage_items g' set_cursor_pos set_storage_items].
        replace j with (Z.of_nat (Z.to_nat j)) by lia. by apply entry_at_lookup. }
      rewrite Hscan in Hscan'. injection Hscan' as <-.
      cbn [cursor_pos storage_items g' set_cursor_pos set_storage_items] in Hrc.
      rewrite Nat2Z.id in Hrc.
      destruct (Hrc (length arr1) ec) as (m & Hm_lt & Hm_at & Hrecent).
      { rewrite lookup_app_r by lia. by rewrite Nat.sub_diag. }
      apply entry_at_lookup in Hm_at.
      destruct (Hs m Hm_lt) as (ec' & Hec' & (tm & hm & Htm & Hhm & Hbm & Hpm & Hcm & Hlm & _)).
      rewrite Hm_at in Hec'. injection Hec' as <-.
      rewrite Hb in Hbm. injection Hbm as ->.
      rewrite Hpos in Hp. injection Hp as <-.
      unfold sound_entry.
      cbn [pos_left pos_top pos_column config sizing g' set_cursor_pos set_storage_items
           e_left e_top e_height e_bottom e_column num_add].
      split.
      * eexists _, h. repeat split; try done; try lia.
      * intros i ei ti tn Hi Hei Hcol Hti Htn. cbn [num_add] in Htn. injection Htn as <-.
        destruct (Hs i Hi) as (ei' & Hei' & (t & h' & Ht & _ & _ & _ & _ & Hli & _)).
        rewrite Hei in Hei'. injection Hei' as <-.
        assert (Hsame : same_left ei ec).
        { unfold same_left. rewrite Hli, Hlm, Hcol. reflexivity. }
        destruct (Nat.lt_trichotomy i m) as [Hlt|[->|Hgt]].
        -- assert (ti < tm); [|lia]. by apply (Hm i m ei ec ti tm).
        -- rewrite Hm_at in Hei. injection Hei as <-. rewrite Htm in Hti.
           injection Hti as <-. lia.
        -- exfalso. apply (Hrecent i ei); [lia| |done]. by apply entry_at_lookup.
    + (* one column: under the previous entry *)
      assert (Hpos_n : (0 < n)%nat) by lia.
      destruct (Hs (n - 1)%nat ltac:(lia))
        as (tmp & Htmp & (tm & hm & Htm & Hhm & Hbm & Hpm & Hcm & Hlm & _)).
      assert (Hc0 : e_column tmp = 0) by lia.
      rewrite (findNextPos_single_column g' tmp) in Hp.
      * injection Hp as <-.
        unfold sound_entry.
        cbn [pos_left pos_top pos_column config sizing g' set_cursor_pos set_storage_items
             e_left e_top e_height e_bottom e_column].
        rewrite Hbm. cbn [num_add].
        split.
        -- eexists _, h. repeat split; try done; try lia.
           rewrite Hlm, Hc0. reflexivity.
        -- intros i ei ti tn Hi Hei Hcol Hti Htn. injection Htn as <-.
           destruct (decide (i = (n - 1)%nat)) as [->|Hne].
           ++ rewrite Htmp in Hei. injection Hei as <-. rewrite Htm in Hti.
              injection Hti as <-. lia.
           ++ assert (ti < tm); [|lia].
              apply (Hm i (n - 1)%nat ei tmp ti tm); try done; try lia; congruence.
      * exact Hrow.
      * exact Hone.
      * cbn [cursor_pos g' set_cursor_pos]. lia.
      * cbn [cursor_pos storage_items g' set_cursor_pos set_storage_items].
        replace (Z.of_nat n - 1) with (Z.of_nat (n - 1)) by lia. by apply entry_at_lookup.
Qed.

Lemma laid_out_sound (g : Grid) (its : list (option Entry)) (n : nat) :
  1 <= column_count (sizing g) -> laid_out_below g its n -> sound_below g its n.
Proof.
  intros Hcc. induction n as [|n IH]; intros Hl.
  - split; intros; lia.
  - assert (Hn : sound_below g its n) by (apply IH; intros i Hi; apply Hl; lia).
    destruct (Hl n ltac:(lia)) as (e & He & Hpl).
    destruct (placed_sound g its n e Hcc Hn Hpl) as [Hse Hmono].
    destruct Hn as [Hs Hm]. split.
    + intros i Hi. destruct (decide (i = n)) as [->|Hne]; [eauto|]. apply Hs. lia.
    + intros i j ei ej ti tj Hij Hei Hej Hcol Hti Htj.
      destruct (decide (j = n)) as [->|Hne].
      * rewrite He in Hej. injection Hej as <-. apply (Hmono i ei ti tj); try done. lia.
      * apply (Hm i j ei ej ti tj); try done. lia.
Qed.

(** A laid-out array satisfies the invariant. *)
Lemma laid_out_invariant (g : Grid) (its : list (option Entry)) :
  1 <= column_count (sizing g) -> laid_out g its -> layout_invariant its.
Proof.
  intros Hcc Hl. destruct (laid_out_sound g its (length its) Hcc Hl) as [Hs Hm]. split.
  - intros i e Hi. pose proof (lookup_lt_Some _ _ _ Hi) as Hlt.
    destruct (Hs i Hlt) as (e' & He' & (t & h & Ht & Hh & Hb & _)).
    rewrite Hi in He'. injection He' as <-. eauto.
  - intros i j ei ej ti tj Hij Hei Hej. pose proof (lookup_lt_Some _ _ _ Hej) as Hlt.
    apply (Hm i j ei ej ti tj); [lia|done..].
Qed.

(** The layout pass of [recalcStorageItems] appends placed entries. *)
Lemma recalcStorage_loop_laid_out (n : nat) (i : nat) (g : Grid) :
  length (storage_items g) = i -> laid_out g (storage_items g) ->
  (forall (k : nat) obj, (i <= k < i + n)%nat ->
     exists h, storage_height g obj (default VUndefined (cache_records g !! k))
               = Ret (Some h)
       /\ 0 < h + rows (space (config g))) ->
  exists g', recalcStorage_loop n (Z.of_nat i) g = (Ret tt, g')
    /\ laid_out g (storage_items g').
Proof.
  revert i g. induction n as [|n IH]; intros i g Hlen Hl Hh.
  - exists g. split; done.
  - rewrite recalcStorage_loop_S.
    destruct (findNextPos_returns (set_cursor_pos (Z.of_nat i) g)) as [obj Hobj].
    { intros j Hj. cbn [cursor_pos storage_items set_cursor_pos] in *.
      destruct (Hl (Z.to_nat j) ltac:(lia)) as (e & He & _).
      replace j with (Z.of_nat (Z.to_nat j)) by lia.
      exists e. by apply entry_at_lookup. }
    rewrite Hobj.
    destruct (Hh i obj ltac:(lia)) as (h & Hsh & Hpos).
    assert (Hlk : lookupZ (cache_records g) (Z.of_nat i) = cache_records g !! i).
    { unfold lookupZ. destruct (Z.ltb_spec (Z.of_nat i) 0); [lia|]. by rewrite Nat2Z.id. }
    rewrite Hlk, (storage_height_ext g (set_cursor_pos (Z.of_nat i) g)), Hsh by done.
    set (e := {| e_left := pos_left obj; e_top := pos_top obj; e_height := Some h;
                 e_bottom := num_add_height (pos_top obj) (Some h);
                 e_column := pos_column obj |}).
    set (g1 := set_storage_items (storage_items g ++ [Some e]) (set_cursor_pos (Z.of_nat i) g)).
    destruct (IH (S i) g1) as (g' & Hrun & Hl').
    { unfold g1. cbn [storage_items set_storage_items]. rewrite length_app. simpl. lia. }
    { unfold g1, laid_out. cbn [storage_items set_storage_items]. rewrite length_app.
      intros j Hj. simpl in Hj.
      destruct (decide (j = i)) as [->|Hne].
      - exists e. split.
        + rewrite lookup_app_r by lia. by rewrite Hlen, Nat.sub_diag.
        + apply (placed_ext g); [done..|].
          apply (placed_prefix g (storage_items g)).
          { intros k Hk. by rewrite lookup_app_l by lia. }
          exists obj, h. split; [|done].
          rewrite <- Hobj. by apply findNextPos_ext.
      - destruct (Hl j ltac:(lia)) as (ej & Hej & Hpj). exists ej. split.
        + rewrite lookup_app_l by lia. done.
        + apply (placed_ext g); [done..|].
          apply (placed_prefix g (storage_items g)); [|done].
          intros k Hk. by rewrite lookup_app_l by lia. }
    { intros k obj' Hk. unfold g1.
      rewrite (storage_height_ext g) by done.
      change (cache_records (set_storage_items _ (set_cursor_pos _ g))) with (cache_records g).
      change (config (set_storage_items _ (set_cursor_pos _ g))) with (config g).
      apply Hh. lia. }
    replace (Z.of_nat i + 1) with (Z.of_nat (S i)) by lia.
    exists g'. split; [done|].
    intros j Hj. destruct (Hl' j Hj) as (ej & Hej & Hpj). exists ej. split; [done|].
    by apply (placed_ext g1).
Qed.

(** One turn of the loop of [recalcItems]. *)
Lemma recalc_loop_S (n : nat) (i : Z) (cfg : RecalcOptions) (g : Grid) :
  recalc_loop (S n) i cfg g
  = match findNextPos (set_cursor_pos i g) with
    | Throw e => (Throw e, set_cursor_pos i g)
    | Ret nxt =>
        match entry_at (storage_items g) i with
        | None => (Ret false, set_cursor_pos i g)
        | Some obj => recalc_loop n (i + 1) cfg (recalc_turn cfg i nxt obj g)
        end
    end.
Proof.
  cbn [recalc_loop]. rewrite bind_modify. unfold bind at 1. unfold lift at 1.
  destruct (findNextPos (set_cursor_pos i g)) as [nxt|e]; [|reflexivity].
  unfold bind at 1. unfold ret at 1.
  change (storage_items (set_cursor_pos i g)) with (storage_items g).
  destruct (entry_at (storage_items g) i) as [obj|]; [|reflexivity].
  rewrite bind_modify. unfold recalc_turn, bind, when, modify, ret.
  destruct (itemsUpdate cfg && negb (includes (itemsToSkip cfg) i)); reflexivity.
Qed.

Lemma recalc_turn_frame (cfg : RecalcOptions) (i : Z) (nxt : Pos) (obj : Entry) (g : Grid) :
  config (recalc_turn cfg i nxt obj g) = config g
  /\ sizing (recalc_turn cfg i nxt obj g) = sizing g
  /\ storage_items (recalc_turn cfg i nxt obj g)
     = <[Z.to_nat i := Some {| e_left := pos_left nxt;
                               e_top := pos_top nxt;
                               e_height := e_height obj;
                               e_bottom := num_add_height (pos_top nxt) (e_height obj);
                               e_column := pos_column nxt |}]> (storage_items g).
Proof.
  unfold recalc_turn. destruct (_ && _); [|done].
  destruct (getItemByIndex _ i); done.
Qed.

(** Over placed entries below [i] and heights kept from [i] on, the loop
    of [recalcItems] runs to its end and leaves a laid-out array. *)
Lemma recalc_loop_laid_out (n i : nat) (cfg : RecalcOptions) (g : Grid) :
  n = (length (storage_items g) - i)%nat ->
  no_holes (storage_items g) ->
  laid_out_below g (storage_items g) i -> heights_kept g (storage_items g) i ->
  exists g', recalc_loop n (Z.of_nat i) cfg g = (Ret true, g')
    /\ laid_out g (storage_items g').
Proof.
  revert i g. induction n as [|n IH]; intros i g Hn Hno Hl Hk.
  - exists g. split; [done|]. intros j Hj. apply Hl. lia.
  - rewrite recalc_loop_S.
    destruct (findNextPos_returns (set_cursor_pos (Z.of_nat i) g)) as [nxt Hnxt].
    { intros j Hj. cbn [cursor_pos storage_items set_cursor_pos] in *.
      apply entry_at_present; [done|lia]. }
    rewrite Hnxt.
    destruct (entry_at_present (storage_items g) (Z.of_nat i) Hno ltac:(lia)) as [obj Hobj].
    rewrite Hobj. apply entry_at_lookup in Hobj.
    destruct (Hk i obj ltac:(lia) Hobj) as (h & Hh & Hpos).
    destruct (recalc_turn_frame cfg (Z.of_nat i) nxt obj g) as (Hc & Hs & Hst).
    rewrite Nat2Z.id, Hh in Hst. cbn [num_add_height] in Hst.
    set (g1 := recalc_turn cfg (Z.of_nat i) nxt obj g) in *.
    set (e := {| e_left := pos_left nxt; e_top := pos_top nxt; e_height := Some h;
                 e_bottom := num_add (pos_top nxt) (Num h);
                 e_column := pos_column nxt |}) in *.
    destruct (IH (S i) g1) as (g' & Hrun & Hl').
    { rewrite Hst, length_insert. lia. }
    { rewrite Hst. unfold no_holes. apply Forall_insert; [done|eauto]. }
    { rewrite Hst. intros j Hj. destruct (decide (j = i)) as [->|Hne].
      - exists e. split; [apply list_lookup_insert_eq; lia|].
        apply (placed_ext g); [done..|].
        apply (placed_prefix g (storage_items g)).
        { intros k Hk'. symmetry. apply list_lookup_insert_ne. lia. }
        exists nxt, h. split; [|done].
        rewrite <- Hnxt. by apply findNextPos_ext.
      - destruct (Hl j ltac:(lia)) as (ej & Hej & Hpj). exists ej. split.
        + rewrite list_lookup_insert_ne by lia. done.
        + apply (placed_ext g); [done..|].
          apply (placed_prefix g (storage_items g)); [|done].
          intros k Hk'. symmetry. apply list_lookup_insert_ne. lia. }
    { rewrite Hst. intros j ej Hj Hej. rewrite list_lookup_insert_ne in Hej by lia.
      rewrite Hc. apply (Hk j ej); [lia|done]. }
    replace (Z.of_nat i + 1) with (Z.of_nat (S i)) by lia.
    exists g'. split; [done|].
    intros j Hj. destruct (Hl' j Hj) as (ej & Hej & Hpj). exists ej. split; [done|].
    by apply (placed_ext g1).
Qed.

Lemma animation_storage (value : bool) (fdone : Callback) :
  preserves (same_on storage_items) (animation value fdone).
Proof.
  intros g. unfold animation. destruct (enable _); [|done].
  destruct value; [apply run_callback_storage|done].
Qed.





(** ** C7: arguments of the wrong type *)





(** * Further properties of the code *)

(** ** The geometry calculator, in closed form *)

(** The inner loop stops at the widest item, up to [maxWidth], that keeps
    the row strictly below the available width. *)
Lemma grow_item_width_closed (n : nat) (cfg : Config) (width cc iw cw : Z) :
  0 < cc -> n = Z.to_nat (maxWidth (items_cfg cfg) - iw) ->
  (grow_item_width n cfg width cc iw cw).1
  = Z.max iw (Z.min (maxWidth (items_cfg cfg))
                    ((width - cols (space cfg) * (cc - 1) - 1) / cc)).
Proof.
  intros Hcc. revert iw cw. induction n as [|n IH]; intros iw cw Hn.
  - cbn [grow_item_width fst]. lia.
  - cbn [grow_item_width]. cbv zeta.
    set (q := (width - cols (space cfg) * (cc - 1) - 1) / cc).
    assert (Hq : forall w, (w * cc + cols (space cfg) * (cc - 1) < width) <-> w <= q).
    { intros w. unfold q. split; intros H.
      - apply Z.div_le_lower_bound; [done|]. lia.
      - assert (cc * w <= cc * ((width - cols (space cfg) * (cc - 1) - 1) / cc)) by nia.
        pose proof (Z.mul_div_le (width - cols (space cfg) * (cc - 1) - 1) cc Hcc). lia. }
    destruct (Z.geb_spec ((iw + 1) * cc + cols (space cfg) * (cc - 1)) width) as [Hge|Hlt].
    + cbn [fst]. assert (~ iw + 1 <= q) by (rewrite <- Hq; lia). lia.
    + rewrite IH by lia. fold q. apply Hq in Hlt. lia.
Qed.

(** What the outer loop returns, [cc] being the count it starts from. *)
Lemma shrink_columns_spec (n : nat) (cfg : Config) (width cc iw cw : Z) :
  1 <= cc -> n = Z.to_nat (cc - 1) ->
  let r := shrink_columns n cfg width cc iw cw in
  1 <= r.1.1 <= cc
  /\ (forall c, r.1.1 < c <= cc ->
        width < minWidth (items_cfg cfg) * c + cols (space cfg) * (c - 1))
  /\ (1 < r.1.1 ->
        minWidth (items_cfg cfg) * r.1.1 + cols (space cfg) * (r.1.1 - 1) <= width
        /\ r.1.2 = Z.max (minWidth (items_cfg cfg))
                     (Z.min (maxWidth (items_cfg cfg))
                            ((width - cols (space cfg) * (r.1.1 - 1) - 1) / r.1.1)))
  /\ (r.1.1 = 1 -> r.1.2 = iw).
Proof.
  revert cc cw. induction n as [|n IH]; intros cc cw Hcc Hn; cbv zeta.
  - cbn [shrink_columns fst snd]. repeat split; intros; lia.
  - cbn [shrink_columns]. cbv zeta.
    destruct (Z.leb_spec (minWidth (items_cfg cfg) * cc + cols (space cfg) * (cc - 1)) width)
      as [Hfit|Hno].
    + pose proof (grow_item_width_closed
                    (Z.to_nat (maxWidth (items_cfg cfg) - minWidth (items_cfg cfg)))
                    cfg width cc (minWidth (items_cfg cfg))
                    (minWidth (items_cfg cfg) * cc + cols (space cfg) * (cc - 1))
                    ltac:(lia) eq_refl) as Hg.
      destruct (grow_item_width _ cfg width cc _ _) as [iw' cw'].
      cbn [fst snd] in *.
      split; [lia|]. split; [intros; lia|]. split; [intros _; split; [lia|exact Hg]|intros; lia].
    + specialize (IH (cc - 1)
                    (minWidth (items_cfg cfg) * cc + cols (space cfg) * (cc - 1))
                    ltac:(lia) ltac:(lia)).
      cbv zeta in IH.
      destruct (shrink_columns n cfg width (cc - 1) iw _) as [[c' iw'] cw'].
      cbn [fst snd] in *. destruct IH as (H1 & H2 & H3 & H4).
      split; [lia|]. split; [|split; [exact H3|exact H4]].
      intros c Hc. destruct (decide (c = cc)) as [->|Hne]; [lia|]. apply H2. lia.
Qed.

(** The column cap [initSizingParams] starts from. *)
Lemma sizing_of_fields (cfg : Config) (width_full : Z) :
  let width := width_full - (pad_left (padding cfg) + pad_right (padding cfg)) in
  let cap := if 0 <? maxColumns cfg then maxColumns cfg else 16 in
  let r := shrink_columns (Z.to_nat (cap - 1)) cfg width cap
             (Z.min width (maxWidth (items_cfg cfg))) 0 in
  column_count (sizing_of cfg width_full) = r.1.1
  /\ item_width (sizing_of cfg width_full) = r.1.2
  /\ g_left (sizing_of cfg width_full)
     = Qmax (inject_Z (pad_left (padding cfg)))
         (inject_Z (width_full - ((cols (space cfg) + r.1.2) * r.1.1 - cols (space cfg))) / 2)%Q.
Proof.
  cbv zeta. unfold sizing_of.
  destruct (shrink_columns _ cfg _ _ _ 0) as [[c iw] cw]. done.
Qed.

Lemma column_cap_pos (cfg : Config) :
  1 <= (if 0 <? maxColumns cfg then maxColumns cfg else 16).
Proof. destruct (Z.ltb_spec 0 (maxColumns cfg)); lia. Qed.

(** What [initSizingParams] computes, [width] being the client width less
    the horizontal padding. *)
Lemma sizing_of_spec (cfg : Config) (width_full : Z) :
  let s := sizing_of cfg width_full in
  let width := width_full - (pad_left (padding cfg) + pad_right (padding cfg)) in
  let cap := if 0 <? maxColumns cfg then maxColumns cfg else 16 in
  1 <= column_count s <= cap
  /\ (forall c, column_count s < c <= cap ->
        width < minWidth (items_cfg cfg) * c + cols (space cfg) * (c - 1))
  /\ (1 < column_count s ->
        minWidth (items_cfg cfg) * column_count s + cols (space cfg) * (column_count s - 1)
        <= width
        /\ item_width s
           = Z.max (minWidth (items_cfg cfg))
               (Z.min (maxWidth (items_cfg cfg))
                  ((width - cols (space cfg) * (column_count s - 1) - 1) / column_count s)))
  /\ (column_count s = 1 -> item_width s = Z.min width (maxWidth (items_cfg cfg)))
  /\ item_width s * column_count s + cols (space cfg) * (column_count s - 1) <= width.
Proof.
  cbv zeta. destruct (sizing_of_fields cfg width_full) as (-> & -> & _).
  destruct (shrink_columns_spec
              (Z.to_nat ((if 0 <? maxColumns cfg then maxColumns cfg else 16) - 1)) cfg
              (width_full - (pad_left (padding cfg) + pad_right (padding cfg)))
              (if 0 <? maxColumns cfg then maxColumns cfg else 16)
              (Z.min (width_full - (pad_left (padding cfg) + pad_right (padding cfg)))
                     (maxWidth (items_cfg cfg))) 0 (column_cap_pos cfg) eq_refl)
    as (H1 & H2 & H3 & H4).
  set (cc := (shrink_columns _ _ _ _ _ _).1.1) in *.
  set (iw := (shrink_columns _ _ _ _ _ _).1.2) in *.
  set (W := width_full - (pad_left (padding cfg) + pad_right (padding cfg))) in *.
  split; [exact H1|]. split; [exact H2|]. split; [exact H3|]. split; [exact H4|].
  destruct (Z.eq_dec cc 1) as [Hone|Hmany].
  - rewrite (H4 Hone), Hone. lia.
  - destruct (H3 ltac:(lia)) as [Hfit Hw]. rewrite Hw.
    pose proof (Z.mul_div_le (W - cols (space cfg) * (cc - 1) - 1) cc ltac:(lia)) as Hq.
    set (q := (W - cols (space cfg) * (cc - 1) - 1) / cc) in *.
    destruct (Z.max_spec (minWidth (items_cfg cfg)) (Z.min (maxWidth (items_cfg cfg)) q))
      as [[_ ->]|[_ ->]]; [|lia].
    assert (Z.min (maxWidth (items_cfg cfg)) q * cc <= q * cc) by nia. lia.
Qed.

(** The number of columns lies between one and the column cap, which is
    [maxColumns] when that is positive and 16 otherwise. *)
Theorem sizing_of_column_count_range (cfg : Config) (width_full : Z) :
  1 <= column_count (sizing_of cfg width_full)
    <= (if 0 <? maxColumns cfg then maxColumns cfg else 16).
Proof. apply sizing_of_spec. Qed.

(** With more than one column the item width is, in closed form, the
    quotient of the room left by the column spacing less one pixel, kept
    between [minWidth] and [maxWidth] (the lower bound winning); and the
    row of items with its spacing is no wider than the room. *)
Theorem sizing_of_item_width_closed_form (cfg : Config) (width_full : Z) :
  let s := sizing_of cfg width_full in
  let width := width_full - (pad_left (padding cfg) + pad_right (padding cfg)) in
  1 < column_count s ->
  item_width s
  = Z.max (minWidth (items_cfg cfg))
      (Z.min (maxWidth (items_cfg cfg))
         ((width - cols (space cfg) * (column_count s - 1) - 1) / column_count s))
  /\ item_width s * column_count s + cols (space cfg) * (column_count s - 1) <= width.
Proof.
  cbv zeta. intros Hcc.
  destruct (sizing_of_spec cfg width_full) as (_ & _ & H3 & _ & H5).
  split; [apply (H3 Hcc)|exact H5].
Qed.

Lemma sizing_of_item_width_closed_form_witness :
  item_width (sizing_of (scenario_config 4) 1000) = 242
  /\ 242 * 4 + 10 * 3 <= 1000.
Proof.
  apply (sizing_of_item_width_closed_form (scenario_config 4) 1000).
  vm_compute. reflexivity.
Defined.

(** The number of columns is the largest one, up to the cap, whose row of
    items of [minWidth] fits the room: no larger count fits, and a count
    above one does.  With a single column the item takes the room up to
    [maxWidth], whatever [minWidth] is. *)
Theorem sizing_of_column_count_largest (cfg : Config) (width_full : Z) :
  let s := sizing_of cfg width_full in
  let width := width_full - (pad_left (padding cfg) + pad_right (padding cfg)) in
  (forall c, column_count s < c <= (if 0 <? maxColumns cfg then maxColumns cfg else 16) ->
     width < minWidth (items_cfg cfg) * c + cols (space cfg) * (c - 1))
  /\ (1 < column_count s ->
        minWidth (items_cfg cfg) * column_count s + cols (space cfg) * (column_count s - 1)
        <= width)
  /\ (column_count s = 1 -> item_width s = Z.min width (maxWidth (items_cfg cfg))).
Proof.
  cbv zeta. destruct (sizing_of_spec cfg width_full) as (_ & H2 & H3 & H4 & _).
  split; [exact H2|]. split; [|exact H4]. intros H. by destruct (H3 H).
Qed.

(** With non-negative horizontal padding the row of columns lies inside
    the container: it starts at or right of the left padding and ends at or
    left of the client width. *)
Theorem sizing_of_row_inside_container (cfg : Config) (width_full : Z) :
  0 <= pad_left (padding cfg) -> 0 <= pad_right (padding cfg) ->
  let s := sizing_of cfg width_full in
  (inject_Z (pad_left (padding cfg)) <= g_left s)%Q
  /\ (g_left s + inject_Z ((cols (space cfg) + item_width s) * column_count s
                           - cols (space cfg))
      <= inject_Z width_full)%Q.
Proof.
  intros Hl Hr. cbv zeta.
  destruct (sizing_of_spec cfg width_full) as (_ & _ & _ & _ & H5).
  destruct (sizing_of_fields cfg width_full) as (Hc & Hw & ->).
  cbv zeta in Hc, Hw. rewrite <- Hc, <- Hw.
  set (s := sizing_of cfg width_full) in *.
  set (rw := (cols (space cfg) + item_width s) * column_count s - cols (space cfg)).
  assert (Hrw : pad_left (padding cfg) + rw <= width_full) by (unfold rw; lia).
  assert (Hrw' : rw <= width_full) by lia.
  rewrite Zle_Qle in Hrw, Hrw'. rewrite inject_Z_plus in Hrw.
  assert (Hb : (inject_Z (width_full - rw) == inject_Z width_full - inject_Z rw)%Q).
  { unfold Z.sub, Qminus. by rewrite inject_Z_plus, inject_Z_opp. }
  set (a := inject_Z (pad_left (padding cfg))) in *.
  set (w := inject_Z width_full) in *.
  set (r := inject_Z rw) in *.
  set (b := inject_Z (width_full - rw)) in *.
  clearbody a w r b. unfold Qmax, Qdiv. change (/ 2)%Q with (1 # 2)%Q. destruct (Qle_bool a (b * (1 # 2))) eqn:E.
  - apply Qle_bool_iff in E. split; [exact E|]. lra.
  - split; [apply Qle_refl|]. lra.
Qed.

Lemma sizing_of_row_inside_container_witness :
  (inject_Z 0 <= g_left (sizing_of (scenario_config 4) 1000))%Q
  /\ (g_left (sizing_of (scenario_config 4) 1000) + inject_Z ((10 + 242) * 4 - 10)
      <= inject_Z 1000)%Q.
Proof.
  apply (sizing_of_row_inside_container (scenario_config 4) 1000); vm_compute; discriminate.
Defined.


(** ** The shape of the layout *)

Lemma recalcStorage_loop_sizing (n : nat) (i : Z) :
  preserves (same_on (fun g => (config g, sizing g))) (recalcStorage_loop n i).
Proof. revert i. induction n as [|n IH]; intros i; simpl; frame. Qed.

(** [recalcStorageItems], when every record it covers gets a height, hands
    its continuation an array of placed entries, one per index. *)
Lemma recalcStorageItems_laid_out (g : Grid) (count : option Z) (fdone : M unit) :
  heights_resolve g (Z.to_nat (storage_count g count)) ->
  exists g1, recalcStorageItems count fdone g = fdone g1
    /\ length (storage_items g1) = Z.to_nat (storage_count g count)
    /\ laid_out g (storage_items g1)
    /\ config g1 = config g /\ sizing g1 = sizing g
    /\ gridState g1 = gridState g /\ dataset g1 = dataset g.
Proof.
  intros Hh. unfold recalcStorageItems. cbv zeta.
  fold (storage_count g count). rewrite bind_modify.
  set (g0 := set_storage_items [] g).
  destruct (recalcStorage_loop_laid_out (Z.to_nat (storage_count g count)) 0 g0)
    as (g1 & Hrun & Hl).
  - done.
  - intros j Hj. simpl in Hj. lia.
  - intros k obj Hk. rewrite (storage_height_ext g g0) by done. apply Hh. lia.
  - change (Z.of_nat 0) with 0 in Hrun. rewrite (bind_ret _ _ _ _ _ Hrun).
    exists g1. split; [done|].
    pose proof (recalcStorage_loop_sizing (Z.to_nat (storage_count g count)) 0 g0) as Hfr.
    rewrite Hrun in Hfr. unfold same_on in Hfr. cbn [snd] in Hfr.
    injection Hfr as Hc Hs.
    pose proof (recalcStorage_loop_frame (Z.to_nat (storage_count g count)) 0 g0) as Hfr.
    rewrite Hrun in Hfr. unfold same_on in Hfr. cbn [snd] in Hfr.
    assert (Hgs := f_equal fst Hfr). assert (Hds := f_equal snd Hfr).
    cbn [fst snd] in Hgs, Hds.
    split; [|split; [|split; [exact Hc|split; [exact Hs|split; [exact Hgs|exact Hds]]]]].
    + apply recalcStorage_loop_length in Hrun. rewrite Hrun. simpl. lia.
    + intros j Hj. destruct (Hl j Hj) as (e & He & Hp). exists e. split; [done|].
      by apply (placed_ext g0).
Qed.

(** A placed entry on top of sound entries: in the first row it sits at
    the top padding in the column of its index; below the first row it sits
    under the latest earlier entry [k] of its column, one row spacing below
    the bottom of [k]. *)
Lemma placed_stacked (g : Grid) (its : list (option Entry)) (n : nat) (e : Entry) :
  1 <= column_count (sizing g) ->
  sound_below g its n -> placed g its n e ->
  (Z.of_nat n < column_count (sizing g) ->
     e_top e = Num (pad_top (padding (config g))) /\ e_column e = Z.of_nat n)
  /\ (column_count (sizing g) <= Z.of_nat n ->
        exists k ek bk, (k < n)%nat /\ its !! k = Some (Some ek)
          /\ e_column ek = e_column e /\ (e_left ek == e_left e)%Q
          /\ e_bottom ek = Num bk
          /\ e_top e = Num (bk + rows (space (config g)))
          /\ forall k' ek', (k < k' < n)%nat -> its !! k' = Some (Some ek') ->
               e_column ek' <> e_column e).
Proof.
  intros Hcc [Hs Hm] (p & h & Hp & -> & Hh).
  set (g' := set_cursor_pos (Z.of_nat n) (set_storage_items its g)) in *.
  destruct (Z.lt_ge_cases (Z.of_nat n) (column_count (sizing g))) as [Hrow|Hrow].
  - rewrite findNextPos_first_row in Hp by exact Hrow. injection Hp as <-.
    cbn [pos_left pos_top pos_column cursor_pos config sizing g' set_cursor_pos
         set_storage_items e_left e_top e_height e_bottom e_column num_add].
    split; [|intros; lia]. intros _. split; [|done]. f_equal. lia.
  - split; [intros; lia|]. intros _.
    destruct (Z.lt_ge_cases 1 (column_count (sizing g))) as [Hmany|Hone].
    + destruct (findNextPos_on_shortest g') as
        [(arr1 & ec & arr2 & b & Hscan & Hb & _ & _ & Hpos) (arr & Hscan' & [Hrc _] & _)].
      { exact Hmany. }
      { exact Hrow. }
      { intros j Hj. cbn [cursor_pos g' set_cursor_pos] in Hj.
        destruct (Hs (Z.to_nat j) ltac:(lia)) as (ej & Hej & (t & hj & _ & _ & Hbj & _)).
        exists ej, (t + hj). split; [|done].
        cbn [storage_items g' set_cursor_pos set_storage_items].
        replace j with (Z.of_nat (Z.to_nat j)) by lia. by apply entry_at_lookup. }
      rewrite Hscan in Hscan'. injection Hscan' as <-.
      cbn [cursor_pos storage_items g' set_cursor_pos set_storage_items] in Hrc.
      rewrite Nat2Z.id in Hrc.
      destruct (Hrc (length arr1) ec) as (m & Hm_lt & Hm_at & Hrecent).
      { rewrite lookup_app_r by lia. by rewrite Nat.sub_diag. }
      apply entry_at_lookup in Hm_at.
      destruct (Hs m Hm_lt) as (ec' & Hec' & (tm & hm & Htm & Hhm & Hbm & Hpm & Hcm & Hlm & _)).
      rewrite Hm_at in Hec'. injection Hec' as <-.
      rewrite Hpos in Hp. injection Hp as <-.
      cbn [pos_left pos_top pos_column config sizing g' set_cursor_pos set_storage_items
           e_left e_top e_height e_bottom e_column num_add].
      exists m, ec, b. split; [done|]. split; [done|]. split; [done|].
      split; [reflexivity|]. split; [done|]. split; [done|].
      intros k' ek' Hk' Hek' Hcol.
      destruct (Hs k' ltac:(lia)) as (ek'' & Hek'' & (t & h' & _ & _ & _ & _ & _ & Hlk & _)).
      rewrite Hek' in Hek''. injection Hek'' as <-.
      apply (Hrecent k' ek'); [lia|by apply entry_at_lookup|].
      unfold same_left. rewrite Hlk, Hlm, Hcol. reflexivity.
    + assert (Hpos_n : (0 < n)%nat) by lia.
      destruct (Hs (n - 1)%nat ltac:(lia))
        as (tmp & Htmp & (tm & hm & Htm & Hhm & Hbm & Hpm & Hcm & Hlm & _)).
      assert (Hc0 : e_column tmp = 0) by lia.
      rewrite (findNextPos_single_column g' tmp) in Hp.
      * injection Hp as <-.
        cbn [pos_left pos_top pos_column config sizing g' set_cursor_pos set_storage_items
             e_left e_top e_height e_bottom e_column].
        rewrite Hbm. cbn [num_add].
        exists (n - 1)%nat, tmp, (tm + hm). split; [lia|]. split; [done|]. split; [done|].
        split; [reflexivity|]. split; [done|]. split; [done|].
        intros k' ek' Hk'. lia.
      * exact Hrow.
      * exact Hone.
      * cbn [cursor_pos g' set_cursor_pos]. lia.
      * cbn [cursor_pos storage_items g' set_cursor_pos set_storage_items].
        replace (Z.of_nat n - 1) with (Z.of_nat (n - 1)) by lia. by apply entry_at_lookup.
Qed.

Lemma laid_out_below_le (g : Grid) (its : list (option Entry)) (n m : nat) :
  (m <= n)%nat -> laid_out_below g its n -> laid_out_below g its m.
Proof. intros Hmn Hl i Hi. apply Hl. lia. Qed.

(** The array [recalcStorageItems] builds assigns columns in order in the
    first row and keeps every entry in a column of the grid, at the left
    offset of that column. *)
Theorem recalcStorageItems_columns (g : Grid) (count : option Z) (fdone : M unit) :
  1 <= column_count (sizing g) ->
  heights_resolve g (Z.to_nat (storage_count g count)) ->
  exists g1, recalcStorageItems count fdone g = fdone g1
    /\ length (storage_items g1) = Z.to_nat (storage_count g count)
    /\ forall (i : nat) e, storage_items g1 !! i = Some (Some e) ->
         0 <= e_column e < column_count (sizing g)
         /\ (e_left e == inject_Z (e_column e * (cols (space (config g)) + item_width (sizing g)))
                         + g_left (sizing g))%Q
         /\ (Z.of_nat i < column_count (sizing g) -> e_column e = Z.of_nat i).
Proof.
  intros Hcc Hh.
  destruct (recalcStorageItems_laid_out g count fdone Hh) as (g1 & Hrun & Hlen & Hl & _).
  exists g1. split; [done|]. split; [done|].
  intros i e He.
  destruct (laid_out_sound g _ _ Hcc Hl) as [Hs _].
  destruct (Hs i) as (e' & He' & (t & h & _ & _ & _ & _ & Hc & Hleft & Hfirst)).
  { apply lookup_lt_Some in He. exact He. }
  rewrite He in He'. injection He' as <-. done.
Qed.

(** In a grid with at least one column, when every record it covers gets
    a height whose sum with the row spacing is positive,
    [recalcStorageItems] runs to its end and every column of the array it
    builds is a stack without gaps: an entry of the first row sits at the
    top padding, and any other entry sits exactly one row spacing below the
    bottom of the latest earlier entry of its column.  (A record that gets
    no height leaves an entry with the bottom [NaN]: such arrays are not
    covered.) *)
Theorem recalcStorageItems_stacks (g : Grid) (count : option Z) (fdone : M unit) :
  1 <= column_count (sizing g) ->
  heights_resolve g (Z.to_nat (storage_count g count)) ->
  exists g1, recalcStorageItems count fdone g = fdone g1
    /\ forall (i : nat) e, storage_items g1 !! i = Some (Some e) ->
         (Z.of_nat i < column_count (sizing g) ->
            e_top e = Num (pad_top (padding (config g))))
         /\ (column_count (sizing g) <= Z.of_nat i ->
               exists k ek bk, (k < i)%nat /\ storage_items g1 !! k = Some (Some ek)
                 /\ e_column ek = e_column e
                 /\ e_bottom ek = Num bk
                 /\ e_top e = Num (bk + rows (space (config g)))
                 /\ forall k' ek', (k < k' < i)%nat ->
                      storage_items g1 !! k' = Some (Some ek') ->
                      e_column ek' <> e_column e).
Proof.
  intros Hcc Hh.
  destruct (recalcStorageItems_laid_out g count fdone Hh) as (g1 & Hrun & Hlen & Hl & _).
  exists g1. split; [done|].
  intros i e He.
  assert (Hi : (i < length (storage_items g1))%nat) by (by apply lookup_lt_Some in He).
  destruct (Hl i Hi) as (e' & He' & Hp).
  rewrite He in He'. injection He' as <-.
  assert (Hsb : sound_below g (storage_items g1) i).
  { apply laid_out_sound; [done|]. apply (laid_out_below_le g _ (length (storage_items g1))).
    - lia.
    - exact Hl. }
  destruct (placed_stacked g _ i e Hcc Hsb Hp) as [H1 H2]. split.
  - intros H. by destruct (H1 H).
  - intros H. destruct (H2 H) as (k & ek & bk & Hk & Hek & Hc & _ & Hb & Ht & Hbetween).
    exists k, ek, bk. done.
Qed.

(** The records of the loaded example grid all resolve to a height. *)
Lemma example_loaded_heights_resolve :
  heights_resolve (example_loaded true)
    (Z.to_nat (storage_count (example_loaded true) None)).
Proof.
  assert (Z.to_nat (storage_count (example_loaded true) None) = 6%nat) as ->.
  { vm_compute. reflexivity. }
  intros i obj Hi.
  do 6 (destruct i as [|i];
        [eexists; split; [vm_compute; reflexivity|vm_compute; reflexivity]|]).
  lia.
Qed.

Lemma example_loaded_columns : 1 <= column_count (sizing (example_loaded true)).
Proof. vm_compute. discriminate. Qed.

Lemma recalcStorageItems_columns_witness :
  exists g1, recalcStorageItems None (ret tt) (example_loaded true) = ret tt g1
    /\ length (storage_items g1) = Z.to_nat (storage_count (example_loaded true) None)
    /\ forall (i : nat) e, storage_items g1 !! i = Some (Some e) ->
         0 <= e_column e < column_count (sizing (example_loaded true))
         /\ (e_left e == inject_Z (e_column e * (cols (space (config (example_loaded true)))
                                                 + item_width (sizing (example_loaded true))))
                         + g_left (sizing (example_loaded true)))%Q
         /\ (Z.of_nat i < column_count (sizing (example_loaded true)) ->
               e_column e = Z.of_nat i).
Proof.
  apply (recalcStorageItems_columns (example_loaded true) None (ret tt)).
  - exact example_loaded_columns.
  - exact example_loaded_heights_resolve.
Defined.

Lemma recalcStorageItems_stacks_witness :
  exists g1, recalcStorageItems None (ret tt) (example_loaded true) = ret tt g1
    /\ forall (i : nat) e, storage_items g1 !! i = Some (Some e) ->
         (Z.of_nat i < column_count (sizing (example_loaded true)) ->
            e_top e = Num (pad_top (padding (config (example_loaded true)))))
         /\ (column_count (sizing (example_loaded true)) <= Z.of_nat i ->
               exists k ek bk, (k < i)%nat /\ storage_items g1 !! k = Some (Some ek)
                 /\ e_column ek = e_column e
                 /\ e_bottom ek = Num bk
                 /\ e_top e = Num (bk + rows (space (config (example_loaded true))))
                 /\ forall k' ek', (k < k' < i)%nat ->
                      storage_items g1 !! k' = Some (Some ek') ->
                      e_column ek' <> e_column e).
Proof.
  apply (recalcStorageItems_stacks (example_loaded true) None (ret tt)).
  - exact example_loaded_columns.
  - exact example_loaded_heights_resolve.
Defined.

(** ** Operations that keep the layout *)

Lemma laid_out_no_holes (g : Grid) (its : list (option Entry)) :
  laid_out g its -> no_holes its.
Proof.
  intros Hl. unfold no_holes. apply Forall_lookup. intros i o Ho.
  destruct (Hl i) as (e & He & _); [by apply lookup_lt_Some in Ho|].
  rewrite Ho in He. injection He as ->. eauto.
Qed.

Lemma laid_out_heights_kept (g : Grid) (its : list (option Entry)) (from : nat) :
  laid_out g its -> heights_kept g its from.
Proof.
  intros Hl i e _ He.
  destruct (Hl i) as (e' & He' & (p & h & _ & -> & Hh)); [by apply lookup_lt_Some in He|].
  rewrite He in He'. injection He' as ->. exists h. done.
Qed.

(** [recalcItems] from [pos], on placed entries below [pos] and heights
    kept from [pos] on: the loop runs to its end and hands over to the
    completion with every entry placed. *)
Lemma recalcItems_laid_out (g : Grid) (pos : Z) (options : RecalcOptions) (fdone : Callback) :
  stateIsNormal check_all g = true -> 0 <= pos -> no_holes (storage_items g) ->
  laid_out_below g (storage_items g) (Z.to_nat pos) ->
  heights_kept g (storage_items g) (Z.to_nat pos) ->
  exists g1,
    recalcItems pos options fdone g
    = (if default (enable (animation_cfg (config g))) (opt_animation options)
       then animation false (CbRecalcItemsDone fdone)
       else run_callback (CbRecalcItemsDone fdone)) g1
    /\ recalc_frame g1 = recalc_frame (set_gridState ABI7_GRID_STATE_BUILD g)
    /\ length (storage_items g1) = length (storage_items g)
    /\ laid_out g (storage_items g1)
    /\ forall j : nat, Z.of_nat j < pos -> storage_items g1 !! j = storage_items g !! j.
Proof.
  intros Hn Hpos Hno Hl Hk.
  unfold recalcItems. rewrite Hn. cbn [negb]. cbv zeta.
  unfold setBuildState, state. rewrite bind_modify.
  set (g0 := set_gridState ABI7_GRID_STATE_BUILD g).
  assert (Hanim : forall (k : unit -> M unit),
            bind (when (default (enable (animation_cfg (config g))) (opt_animation options))
                       (animation true CbUndefined)) k g0 = k tt g0).
  { intros k. unfold bind, when, animation.
    destruct (default _ _); [|reflexivity].
    change (config g0) with (config g). destruct (enable _); reflexivity. }
  rewrite Hanim.
  destruct (recalc_loop_laid_out
              (Z.to_nat (Z.of_nat (length (storage_items g)) - pos)) (Z.to_nat pos)
              options g0) as (g1 & Hrun & Hl1).
  - change (storage_items g0) with (storage_items g). lia.
  - done.
  - intros j Hj. destruct (Hl j Hj) as (e & He & Hp). exists e. split; [done|].
    by apply (placed_ext g).
  - done.
  - rewrite Z2Nat.id in Hrun by done.
    destruct (recalc_loop_completes
                (Z.to_nat (Z.of_nat (length (storage_items g)) - pos)) pos options g0)
      as (g1' & Hrun' & Hlen & _ & Hpre); [done..|].
    rewrite Hrun in Hrun'. injection Hrun' as <-.
    rewrite (bind_ret _ _ _ _ _ Hrun).
    exists g1. split; [done|].
    pose proof (recalc_loop_frame
                  (Z.to_nat (Z.of_nat (length (storage_items g)) - pos)) pos options g0) as H.
    rewrite Hrun in H. split; [exact H|]. split; [done|]. split; [|done].
    intros j Hj. destruct (Hl1 j Hj) as (e & He & Hp). exists e. split; [done|].
    by apply (placed_ext g0).
Qed.

(** Replacing the height of a placed entry leaves it placed. *)
Lemma placed_set_height (g : Grid) (its : list (option Entry)) (i : nat) (e : Entry) (h : Z) :
  placed g its i e -> 0 < h + rows (space (config g)) ->
  placed g its i {| e_left := e_left e; e_top := e_top e; e_height := Some h;
                    e_bottom := num_add (e_top e) (Num h); e_column := e_column e |}.
Proof.
  intros (p & h0 & Hp & -> & _) Hh. exists p, h. done.
Qed.

(** [setSize(null, h)] on a laid-out array, in the normal state. *)
Lemma setSize_layout (g : Grid) (id : nat) (self : ItemView) (h : Z) :
  stateIsNormal check_all g = true -> laid_out g (storage_items g) ->
  views g !! id = Some self -> h <> valHeight self ->
  -1 <= item_index self < Z.of_nat (length (storage_items g)) ->
  0 < h + rows (space (config g)) ->
  exists g', setSize id None (Some h) g = (Ret tt, g')
    /\ length (storage_items g') = length (storage_items g)
    /\ laid_out g (storage_items g')
    /\ (0 <= item_index self ->
        exists e, storage_items g' !! Z.to_nat (item_index self) = Some (Some e)
          /\ e_height e = Some h)
    /\ gridState g' = ABI7_GRID_STATE_NORMAL.
Proof.
  intros Hn Hl Hv Hne Hidx Hh.
  unfold setSize. rewrite Hv.
  unfold when at 1. rewrite (bind_ret _ _ g g tt eq_refl).
  destruct (Z.eqb_spec h (valHeight self)) as [|_]; [done|].
  rewrite bind_modify.
  set (g1 := update_view id (item_set_valHeight h) g).
  change (stateIsNormal check_all g1) with (stateIsNormal check_all g). rewrite Hn.
  rewrite bind_modify.
  change (storage_items g1) with (storage_items g).
  set (g2 := match entry_at (storage_items g) (item_index self) with
             | Some obj => _
             | None => g1
             end).
  assert (Hg2 : config g2 = config g /\ sizing g2 = sizing g
                /\ stateIsNormal check_all g2 = true
                /\ length (storage_items g2) = length (storage_items g)
                /\ laid_out_below g (storage_items g2) (Z.to_nat (item_index self + 1))
                /\ heights_kept g (storage_items g2) (Z.to_nat (item_index self + 1))
                /\ no_holes (storage_items g2)
                /\ (0 <= item_index self ->
                    exists e, storage_items g2 !! Z.to_nat (item_index self) = Some (Some e)
                      /\ e_height e = Some h)).
  { unfold g2. destruct (Z.eq_dec (item_index self) (-1)) as [Hm|Hm].
    - rewrite Hm. cbn [entry_at lookupZ Z.ltb Z.compare].
      split; [done|]. split; [done|]. split; [done|]. split; [done|].
      split; [intros j Hj; simpl in Hj; lia|].
      split; [by apply laid_out_heights_kept|].
      split; [by apply (laid_out_no_holes g)|]. lia.
    - destruct (Hl (Z.to_nat (item_index self)) ltac:(lia)) as (e & He & Hp).
      assert (Hat : entry_at (storage_items g) (item_index self) = Some e).
      { replace (item_index self) with (Z.of_nat (Z.to_nat (item_index self))) by lia.
        by apply entry_at_lookup. }
      rewrite Hat. cbn [config sizing storage_items set_storage_items].
      split; [done|]. split; [done|]. split; [done|].
      split; [by rewrite length_insert|].
      replace (Z.to_nat (item_index self + 1)) with (S (Z.to_nat (item_index self))) by lia.
      split; [|split; [|split]].
      + intros j Hj. destruct (decide (j = Z.to_nat (item_index self))) as [->|Hj'].
        * eexists. split; [apply list_lookup_insert_eq; lia|].
          apply (placed_prefix g (storage_items g)).
          { intros k Hk. symmetry. apply list_lookup_insert_ne. lia. }
          by apply placed_set_height.
        * destruct (Hl j ltac:(lia)) as (ej & Hej & Hpj). exists ej. split.
          { rewrite list_lookup_insert_ne by lia. done. }
          apply (placed_prefix g (storage_items g)); [|done].
          intros k Hk. symmetry. apply list_lookup_insert_ne. lia.
      + intros j ej Hj Hej. rewrite list_lookup_insert_ne in Hej by lia.
        by apply (laid_out_heights_kept g _ 0%nat Hl j ej ltac:(lia)).
      + unfold no_holes. apply Forall_insert; [by apply (laid_out_no_holes g)|eauto].
      + intros _. eexists. split; [apply list_lookup_insert_eq; lia|done]. }
  clearbody g2. destruct Hg2 as (Hc & Hs & Hn2 & Hlen & Hl2 & Hk2 & Hno2 & He2).
  destruct (recalcItems_laid_out g2 (item_index self + 1)
              {| itemsUpdate := true; itemsToSkip := []; opt_animation := Some false |}
              CbUndefined Hn2 ltac:(lia) Hno2) as (g3 & Hrun & _ & Hlen3 & Hl3 & Hpre).
  { intros j Hj. destruct (Hl2 j Hj) as (e & He & Hp). exists e. split; [done|].
    by apply (placed_ext g). }
  { intros j e Hj He. rewrite Hc. by apply (Hk2 j e). }
  rewrite Hrun. cbn [default opt_animation run_callback]. unfold Datatypes.id.
  unfold setBuildState, state. rewrite bind_modify.
  eexists. split; [reflexivity|].
  cbn [storage_items gridState set_gridState].
  split; [lia|]. split.
  { intros j Hj. destruct (Hl3 j Hj) as (e & He & Hp). exists e. split; [done|].
    by apply (placed_ext g2). }
  split; [|done].
  intros H0. destruct (He2 H0) as (e & He & Hhe). exists e. split; [|done].
  rewrite Hpre by lia. done.
Qed.

(** Giving an item a new height in the normal state keeps the layout: the
    call returns, the layout array keeps its length, every entry is again
    where [findNextPos] puts it, the entry of the item has the new height,
    and the grid is back in the normal state. *)
Theorem setSize_keeps_layout (g : Grid) (id : nat) (self : ItemView) (h : Z) :
  stateIsNormal check_all g = true -> laid_out g (storage_items g) ->
  views g !! id = Some self -> h <> valHeight self ->
  -1 <= item_index self < Z.of_nat (length (storage_items g)) ->
  0 < h + rows (space (config g)) ->
  exists g', setSize id None (Some h) g = (Ret tt, g')
    /\ length (storage_items g') = length (storage_items g)
    /\ laid_out g (storage_items g')
    /\ (0 <= item_index self ->
        exists e, storage_items g' !! Z.to_nat (item_index self) = Some (Some e)
          /\ e_height e = Some h)
    /\ gridState g' = ABI7_GRID_STATE_NORMAL.
Proof. apply setSize_layout. Qed.

Lemma example_loaded_laid_out :
  laid_out (example_loaded true) (storage_items (example_loaded true)).
Proof.
  unfold laid_out.
  assert (length (storage_items (example_loaded true)) = 6%nat) as ->.
  { vm_compute. reflexivity. }
  intros i Hi.
  do 6 (destruct i as [|i];
        [eexists; split; [vm_compute; reflexivity|];
         eexists _, _; split; [vm_compute; reflexivity|];
         split; [f_equal; vm_compute; reflexivity|vm_compute; reflexivity]|]).
  lia.
Qed.

Lemma setSize_keeps_layout_witness :
  exists g', setSize 1 None (Some 80) (example_loaded true) = (Ret tt, g')
    /\ length (storage_items g') = length (storage_items (example_loaded true))
    /\ laid_out (example_loaded true) (storage_items g')
    /\ (0 <= 1 ->
        exists e, storage_items g' !! Z.to_nat 1 = Some (Some e) /\ e_height e = Some 80)
    /\ gridState g' = ABI7_GRID_STATE_NORMAL.
Proof.
  apply (setSize_keeps_layout (example_loaded true) 1
           {| item_index := 1; loadIndex := 1; item_x := 1010 # 2; item_y := Num 0;
              item_column := 1; valHeight := 50; valWidth := 250 |} 80).
  - vm_compute. reflexivity.
  - exact example_loaded_laid_out.
  - vm_compute. reflexivity.
  - discriminate.
  - vm_compute. split; [discriminate|reflexivity].
  - vm_compute. reflexivity.
Defined.

Lemma item_remove_before_recalc_sizing (id : nat) (self : ItemView) (g : Grid) :
  sizing (item_remove_before_recalc id self g) = sizing g.
Proof.
  unfold item_remove_before_recalc.
  cbn [sizing set_gridState set_heap update_view set_views set_storage_items].
  by rewrite (foldr_update_view_frame sizing).
Qed.

(** Removing a bound item keeps the layout: the layout array loses the
    entry of the item, the entries before it stay as they are, and every
    entry left is where [findNextPos] puts it. *)
Theorem item_remove_keeps_layout (g : Grid) (id : nat) (self : ItemView) :
  stateIsNormal check_all g = true -> laid_out g (storage_items g) ->
  views g !! id = Some self ->
  0 <= item_index self < Z.of_nat (length (storage_items g)) ->
  let its := storage_items (item_remove id g).2 in
  S (length its) = length (storage_items g)
  /\ laid_out g its
  /\ forall j : nat, Z.of_nat j < item_index self -> its !! j = storage_items g !! j.
Proof.
  intros Hn Hl Hv Hidx. cbv zeta.
  rewrite (item_remove_unfold id self g Hn Hv).
  destruct (item_remove_before_recalc_frame id self g) as (Hc & _ & _ & _ & Hn' & Hst).
  pose proof (item_remove_before_recalc_sizing id self g) as Hs.
  set (pre := item_remove_before_recalc id self g) in *.
  assert (Hnorm : stateIsNormal check_all pre = true).
  { rewrite Hn'. unfold stateIsNormal in Hn |- *.
    cbn [gridState ready visible inScroll set_gridState GridState_eqb].
    apply andb_true_iff in Hn as [_ ->]. done. }
  destruct (lookup_lt_is_Some_2 (storage_items g) (Z.to_nat (item_index self)) ltac:(lia))
    as [o Ho].
  pose proof (Array_splice1_at (item_index self) (storage_items g) o ltac:(lia) Ho) as Hsp.
  assert (Hst' : storage_items pre = delete (Z.to_nat (item_index self)) (storage_items g)).
  { rewrite Hst, Hsp. done. }
  assert (Hlen : S (length (storage_items pre)) = length (storage_items g)).
  { rewrite Hst', length_delete by eauto. lia. }
  destruct (recalcItems_laid_out pre (item_index self) remove_options
              (CbItemDelete (Array_splice1 (item_index self) (cache_records g)).2
                 (item_index self)) Hnorm ltac:(lia))
    as (g1 & Hrun & _ & Hlen1 & Hl1 & Hpre).
  - rewrite Hst. apply Array_splice1_no_holes. by apply (laid_out_no_holes g).
  - intros j Hj. destruct (Hl j ltac:(lia)) as (e & He & Hp). exists e. split.
    + rewrite Hst'. rewrite list_lookup_delete_lt by lia. done.
    + apply (placed_ext g); [done..|].
      apply (placed_prefix g (storage_items g)); [|done].
      intros k Hk. rewrite Hst'. symmetry. apply list_lookup_delete_lt. lia.
  - intros j e Hj He. rewrite Hst', list_lookup_delete_ge in He by lia.
    rewrite Hc. by apply (laid_out_heights_kept g _ 0%nat Hl (S j) e ltac:(lia)).
  - rewrite Hrun.
    assert (Hfin : storage_items
                     ((if default (enable (animation_cfg (config pre)))
                            (opt_animation remove_options)
                       then animation false (CbRecalcItemsDone
                              (CbItemDelete (Array_splice1 (item_index self) (cache_records g)).2
                                 (item_index self)))
                       else run_callback (CbRecalcItemsDone
                              (CbItemDelete (Array_splice1 (item_index self) (cache_records g)).2
                                 (item_index self)))) g1).2
                   = storage_items g1).
    { destruct (default _ _); [apply animation_storage|].
      apply (run_callback_storage (CbRecalcItemsDone _)). }
    rewrite Hfin. split; [lia|]. split.
    + intros j Hj. destruct (Hl1 j Hj) as (e & He & Hp). exists e. split; [done|].
      by apply (placed_ext pre).
    + intros j Hj. rewrite Hpre by done. rewrite Hst'. apply list_lookup_delete_lt. lia.
Qed.

Lemma item_remove_keeps_layout_witness :
  S (length (storage_items (item_remove 1 (example_loaded true)).2))
  = length (storage_items (example_loaded true))
  /\ laid_out (example_loaded true) (storage_items (item_remove 1 (example_loaded true)).2)
  /\ forall j : nat, Z.of_nat j < 1 ->
       storage_items (item_remove 1 (example_loaded true)).2 !! j
       = storage_items (example_loaded true) !! j.
Proof.
  apply (item_remove_keeps_layout (example_loaded true) 1
           {| item_index := 1; loadIndex := 1; item_x := 1010 # 2; item_y := Num 0;
              item_column := 1; valHeight := 50; valWidth := 250 |}).
  - vm_compute. reflexivity.
  - exact example_loaded_laid_out.
  - vm_compute. reflexivity.
  - vm_compute. split; [discriminate|reflexivity].
Defined.


(** ** Loading a dataset *)

Lemma hoare_bind {A B : Type} (P : Grid -> Prop) (m : M A) (k : A -> M B)
    (Q : A -> Grid -> Prop) (R : B -> Grid -> Prop) (E : Grid -> Prop) :
  hoare P m Q E -> (forall a, hoare (Q a) (k a) R E) -> hoare P (bind m k) R E.
Proof.
  intros Hm Hk g Hg. unfold bind. specialize (Hm g Hg).
  destruct (m g) as [[a|e] g']; [|done]. by apply Hk.
Qed.

Lemma hoare_ret {A : Type} (P : Grid -> Prop) (a : A) (Q : A -> Grid -> Prop)
    (E : Grid -> Prop) :
  (forall g, P g -> Q a g) -> hoare P (ret a) Q E.
Proof. intros H g Hg. by apply H. Qed.

Lemma hoare_throw {A : Type} (P : Grid -> Prop) (e : Exn) (Q : A -> Grid -> Prop)
    (E : Grid -> Prop) :
  (forall g, P g -> E g) -> hoare P (throw e) Q E.
Proof. intros H g Hg. by apply H. Qed.

Lemma hoare_modify (P : Grid -> Prop) (f : Grid -> Grid) (Q : unit -> Grid -> Prop)
    (E : Grid -> Prop) :
  (forall g, P g -> Q tt (f g)) -> hoare P (modify f) Q E.
Proof. intros H g Hg. by apply H. Qed.

Lemma hoare_lift {A : Type} (P : Grid -> Prop) (o : outcome A) (Q : A -> Grid -> Prop)
    (E : Grid -> Prop) :
  (forall g a, P g -> Q a g) -> (forall g, P g -> E g) -> hoare P (lift o) Q E.
Proof. intros H1 H2 g Hg. unfold lift. destruct o; [by apply H1|by apply H2]. Qed.

Lemma hoare_fun {A : Type} (P : Grid -> Prop) (m : Grid -> M A) (Q : A -> Grid -> Prop)
    (E : Grid -> Prop) :
  (forall g0, P g0 -> hoare (fun g => g = g0) (m g0) Q E) -> hoare P (fun g => m g g) Q E.
Proof. intros H g Hg. by apply (H g Hg g). Qed.

Lemma hoare_pre {A : Type} (P P' : Grid -> Prop) (m : M A) (Q : A -> Grid -> Prop)
    (E : Grid -> Prop) :
  (forall g, P g -> P' g) -> hoare P' m Q E -> hoare P m Q E.
Proof. intros H Hm g Hg. apply Hm. by apply H. Qed.

(** An operation that respects a relation keeps what the relation keeps. *)
Lemma hoare_preserves {A : Type} (R : relation Grid) (P : Grid -> Prop) (m : M A)
    (Q : Grid -> Prop) :
  preserves R m -> (forall g g', P g -> R g g' -> Q g') ->
  hoare P m (fun _ => Q) Q.
Proof.
  intros Hm H g Hg. specialize (Hm g). specialize (H g (m g).2 Hg Hm).
  destruct (m g) as [[a|e] g']; exact H.
Qed.

(** In the [BUILD] state [setSize] writes to the item only. *)
Lemma setSize_build (id : nat) (width height : option Z) (g : Grid) :
  gridState g = ABI7_GRID_STATE_BUILD ->
  exists v, setSize id width height g = (Ret tt, set_views v g).
Proof.
  intros Hb. unfold setSize.
  assert (Hid : forall g0 : Grid, set_views (views g0) g0 = g0) by (by intros []).
  destruct (views g !! id) as [self|]; [|exists (views g); by rewrite Hid].
  unfold bind at 1.
  assert (Hw : exists v, when (match width with
                               | Some w => negb (w =? valWidth self)
                               | None => false
                               end)
                           (modify (update_view id (item_set_valWidth (default 0 width)))) g
                         = (Ret tt, set_views v g)).
  { destruct (match width with Some w => _ | None => _ end).
    - eexists. reflexivity.
    - exists (views g). by rewrite Hid. }
  destruct Hw as [v ->].
  destruct height as [h|]; [|by exists v].
  destruct (h =? valHeight self); [by exists v|].
  rewrite bind_modify.
  rewrite stateIsNormal_build by exact Hb.
  eexists. reflexivity.
Qed.

Lemma setSize_loading (id : nat) (width height : option Z) (its : list (option Entry)) (c : Z) :
  hoare (loading its c) (setSize id width height) (fun _ => loading its c)
    (fun g => exists c', loading its c' g).
Proof.
  intros g (Hb & Hs & Hc).
  destruct (setSize_build id width height g Hb) as [v ->]. done.
Qed.

(** A step of a load that neither writes the layout array nor moves the
    cursor. *)
Ltac loading_step :=
  let g := fresh "g" in
  let Hb := fresh "Hb" in
  let Hs := fresh "Hs" in
  let Hc := fresh "Hc" in
  intros g (Hb & Hs & Hc);
  unfold when, modify, ret, throw, lift, loading, update_view;
  repeat case_match; simplify_eq; simpl; eauto.

(** The loop of [dataFunc] over indices that all have an entry: the layout
    array is left as it is. *)
Lemma dataFunc_loop_loading (n : nat) (i : Z) (data : list JsVal) (cfg : LoadOptions)
    (its : list (option Entry)) (c : Z) :
  no_holes its -> 0 <= c -> c + Z.of_nat n <= Z.of_nat (length its) ->
  hoare (loading its c) (dataFunc_loop n i data cfg)
    (fun _ => loading its (c + Z.of_nat n)) (fun g => exists c', loading its c' g).
Proof.
  intros Hno. revert i c. induction n as [|n IH]; intros i c Hc Hlen.
  - apply hoare_ret. intros g Hg. by rewrite Z.add_0_r.
  - cbn [dataFunc_loop].
    apply (hoare_bind _ _ _ (fun cached g => loading its c g /\ is_Some cached)).
    { intros g (Hb & Hs & Hcp). unfold ret. split; [done|].
      rewrite Hs, Hcp. apply entry_at_present; [done|lia]. }
    intros [e|]; [|intros g [_ [? ?]]; done].
    apply (hoare_pre _ (loading its c)); [by intros g [? _]|].
    apply (hoare_bind _ _ _ (fun _ => loading its c)); [loading_step|intros new_pos].
    apply (hoare_bind _ _ _ (fun _ => loading its c)); [loading_step|intros new_item].
    cbv zeta.
    apply (hoare_bind _ _ _ (fun _ => loading its c)); [loading_step|intros _].
    apply (hoare_bind _ _ _ (fun _ => loading its c)); [loading_step|intros _].
    apply (hoare_bind _ _ _ (fun _ => loading its c)); [loading_step|intros _].
    apply (hoare_bind _ _ _ (fun _ => loading its c)).
    { intros g Hg. by apply setSize_loading. }
    intros _.
    apply (hoare_bind _ _ _ (fun _ => loading its c)); [loading_step|intros clientHeight].
    apply (hoare_bind _ _ _ (fun _ => loading its c)); [loading_step|intros itemHeight].
    apply (hoare_bind _ _ _ (fun _ => loading its c)); [apply setSize_loading|intros _].
    apply (hoare_bind _ _ _ (fun _ => loading its c)).
    { rewrite bool_decide_eq_true_2 by eauto. loading_step. }
    intros _.
    apply (hoare_bind _ _ _ (fun _ => loading its (c + 1))); [loading_step|intros _].
    replace (c + Z.of_nat (S n)) with (c + 1 + Z.of_nat n) by lia.
    apply IH; lia.
Qed.

Lemma hoare_pure {A : Type} (P : Grid -> Prop) (phi : Prop) (m : M A)
    (Q : A -> Grid -> Prop) (E : Grid -> Prop) :
  (phi -> hoare P m Q E) -> hoare (fun g => P g /\ phi) m Q E.
Proof. intros H g [Hg Hphi]. by apply H. Qed.

Lemma Array_slice_length {A : Type} (s e : Z) (l : list A) :
  (length (Array_slice s e l) <= length l)%nat.
Proof.
  unfold Array_slice. rewrite length_take, length_drop. lia.
Qed.

(** The closure [dataFunc] run over indices that all have an entry leaves
    the layout array as it is, whether it returns or throws. *)
Lemma dataFunc_storage (start count : Z) (cfg : LoadOptions) (fdone : Callback)
    (data : list JsVal) (its : list (option Entry)) (c : Z) (g : Grid) :
  loading its c g -> no_holes its -> 0 <= c ->
  c + Z.of_nat (length data) <= Z.of_nat (length its) ->
  storage_items (dataFunc start count cfg fdone data g).2 = its.
Proof.
  intros Hg Hno Hc Hlen.
  assert (H : hoare (loading its c) (dataFunc start count cfg fdone data)
                (fun _ g' => storage_items g' = its) (fun g' => storage_items g' = its)).
  { unfold dataFunc.
    apply (hoare_bind _ _ _ (fun _ => loading its c)).
    { unfold emit. loading_step. }
    intros _.
    apply (hoare_bind _ _ _ (fun cnt g' => loading its c g'
                                           /\ cnt <= Z.of_nat (length data))).
    { intros g0 Hg0. unfold ret. split; [done|]. lia. }
    intros cnt. apply hoare_pure. intros Hcnt.
    apply (hoare_bind _ _ _ (fun _ g' => storage_items g' = its)).
    { intros g0 Hg0.
      pose proof (dataFunc_loop_loading (Z.to_nat cnt) 0 data cfg its c Hno Hc
                    ltac:(lia) g0 Hg0) as H.
      destruct (dataFunc_loop _ _ _ _ g0) as [[[]|e] g'].
      - by destruct H as (_ & ? & _).
      - by destruct H as (c' & _ & ? & _). }
    intros _.
    apply (hoare_preserves (same_on storage_items)).
    - frame. apply run_callback_storage.
    - intros g0 g' H0 H1. unfold same_on in H1. congruence. }
  specialize (H g Hg). destruct (dataFunc _ _ _ _ _ g) as [[a|e] g']; exact H.
Qed.

(** [loadData()] over a complete dataset whose records all have an entry
    leaves the layout array as it is. *)
Lemma loadData_storage (cfg : LoadOptions) (fdone : Callback) (g : Grid) :
  eof_data g = true -> no_holes (storage_items g) ->
  (length (cache_records g) <= length (storage_items g))%nat ->
  storage_items (loadData None None cfg fdone g).2 = storage_items g.
Proof.
  intros Heof Hno Hlen. unfold loadData, setBuildState, state.
  rewrite bind_modify. cbv zeta. cbn [default]. rewrite bind_modify.
  set (g1 := set_cursor_pos (Z.max 0 0) (set_gridState ABI7_GRID_STATE_BUILD g)).
  set (count := Z.min _ _).
  assert (Hex : exists g2,
            (forall (k : unit -> M unit),
               bind (fun g => when (onDataLoadStart (events (config g)))
                                (emit EvDataLoadStart) g) k g1 = k tt g2)
            /\ loading (storage_items g) 0 g2 /\ eof_data g2 = true
            /\ cache_records g2 = cache_records g).
  { unfold bind. destruct (onDataLoadStart (events (config g1))) eqn:E.
    - exists (set_trace (trace g1 ++ [EvDataLoadStart]) g1).
      split; [intros k; reflexivity|]. done.
    - exists g1. split; [intros k; reflexivity|]. done. }
  destruct Hex as (g2 & Hstep & Hload & Heof2 & Hcache). rewrite Hstep.
  unfold must_fetch. rewrite Heof2, orb_true_r. cbn [negb].
  apply (dataFunc_storage _ _ _ _ _ _ 0); [done|done|lia|].
  pose proof (Array_slice_length (Z.max 0 0) (Z.max 0 0 + count) (cache_records g2)).
  rewrite Hcache in *. lia.
Qed.

Lemma initLoadData_storage (fdone : Callback) (g : Grid) :
  eof_data g = true -> no_holes (storage_items g) ->
  (length (cache_records g) <= length (storage_items g))%nat ->
  storage_items (initLoadData fdone g).2 = storage_items g.
Proof.
  intros Heof Hno Hlen. unfold initLoadData. rewrite !bind_modify.
  set (g1 := set_buffer BufferIsItems _).
  assert (H : storage_items g1 = storage_items g /\ eof_data g1 = eof_data g
              /\ cache_records g1 = cache_records g).
  { unfold g1, cache_records. cbn [storage_items eof_data heap cache set_buffer].
    rewrite (foldr_update_view_frame storage_items), (foldr_update_view_frame eof_data),
      (foldr_update_view_frame heap), (foldr_update_view_frame cache); done. }
  destruct H as (Hs & He & Hc).
  rewrite loadData_storage; [done|congruence|by rewrite Hs|by rewrite Hs, Hc].
Qed.

(** [data(array)] in the normal state, on an array whose records all get a
    height: whatever happens while the items are loaded, the layout array
    ends with one entry per record, each where [findNextPos] puts it, and
    satisfies the layout invariant. *)
Theorem data_lays_out_every_record (g : Grid) (ref : nat) (arr : list JsVal)
    (fdone : Callback) :
  stateIsNormal check_all g = true -> heap g !! ref = Some arr ->
  1 <= column_count (sizing g) -> heights_resolve_for g arr ->
  let its := storage_items (data (VArray ref) fdone g).2 in
  length its = length arr /\ laid_out g its /\ layout_invariant its.
Proof.
  intros Hn Href Hcc Hh. cbv zeta.
  unfold data. rewrite Hn. cbn [negb isArray].
  assert (Hex : exists g0,
            (forall (k : unit -> M JsVal),
               bind (when (onDataLoadStart (events (config g))) (emit EvDataLoadStart)) k g
               = k tt g0)
            /\ heap g0 = heap g /\ config g0 = config g /\ sizing g0 = sizing g).
  { destruct (onDataLoadStart (events (config g))).
    - exists (set_trace (trace g ++ [EvDataLoadStart]) g). repeat split; reflexivity.
    - exists g. repeat split; reflexivity. }
  destruct Hex as (g0 & Hstep & Hh0 & Hc0 & Hs0). rewrite Hstep. clear Hstep.
  assert (Hex : exists g2,
            (forall (k : unit -> M JsVal),
               bind initProps (fun _ => bind (setData ref) k) g0 = k tt g2)
            /\ config g2 = config g /\ sizing g2 = sizing g
            /\ cache_records g2 = arr /\ eof_data g2 = true).
  { eexists. split; [intros k; reflexivity|].
    split; [exact Hc0|]. split; [exact Hs0|]. split; [|reflexivity].
    unfold cache_records.
    cbn [heap cache set_eof_data set_cache set_storage_items set_heap set_cursor_end
         set_cursor_begin set_eof set_bof set_cursor_pos set_inScroll set_ready
         set_gridState].
    rewrite fresh_ref_insert_ne with (arr := arr); [done|].
    cbn [heap set_heap set_cache set_gridState set_storage_items set_ready set_inScroll
         set_cursor_pos set_bof set_eof set_eof_data set_cursor_begin set_cursor_end].
    apply (fresh_ref_insert_ne (set_gridState ABI7_GRID_STATE_BUILD g0)).
    cbn [heap set_gridState]. by rewrite Hh0. }
  destruct Hex as (g2 & Hstep & Hc2 & Hs2 & Hcache2 & Heof2). rewrite Hstep. clear Hstep.
  destruct (recalcStorageItems_laid_out g2 None (initLoadData (CbDataLoaded fdone)))
    as (g3 & Hrun & Hlen3 & Hl3 & Hc3 & Hs3 & _ & Hds3).
  { unfold storage_count. rewrite Hcache2, Nat2Z.id.
    intros i obj Hi. rewrite Hcache2, Hc2.
    rewrite (storage_height_ext g g2) by done. by apply Hh. }
  unfold storage_count in Hlen3. rewrite Hcache2, Nat2Z.id in Hlen3.
  apply dataset_eq in Hds3 as (_ & Hheap3 & Hcache3 & Heof3 & _).
  assert (Hfin : storage_items (initLoadData (CbDataLoaded fdone) g3).2 = storage_items g3).
  { apply initLoadData_storage.
    - congruence.
    - by apply (laid_out_no_holes g2).
    - unfold cache_records. rewrite Hheap3, Hcache3. fold (cache_records g2).
      rewrite Hcache2. lia. }
  assert (Hits : storage_items
                   ((run recalcStorageItems None (initLoadData (CbDataLoaded fdone));
                     ret VUndefined) g2).2 = storage_items g3).
  { unfold bind. rewrite Hrun.
    destruct (initLoadData (CbDataLoaded fdone) g3) as [[a|e] g']; exact Hfin. }
  rewrite !Hits.
  assert (Hl : laid_out g (storage_items g3)).
  { intros j Hj. destruct (Hl3 j Hj) as (e & He & Hp). exists e. split; [done|].
    by apply (placed_ext g2). }
  split; [done|]. split; [done|]. by apply (laid_out_invariant g).
Qed.

Lemma data_lays_out_every_record_witness :
  length (storage_items (data (VArray 7) CbUndefined (example_grid true)).2)
  = length example_records
  /\ laid_out (example_grid true)
       (storage_items (data (VArray 7) CbUndefined (example_grid true)).2)
  /\ layout_invariant (storage_items (data (VArray 7) CbUndefined (example_grid true)).2).
Proof.
  apply (data_lays_out_every_record (example_grid true) 7 example_records CbUndefined).
  - vm_compute. reflexivity.
  - vm_compute. reflexivity.
  - vm_compute. discriminate.
  - intros i obj Hi. cbn [length example_records] in Hi.
    do 6 (destruct i as [|i];
          [eexists; split; [vm_compute; reflexivity|vm_compute; reflexivity]|]).
    lia.
Defined.


(** ** Moving the items to their entries *)

Lemma num_eqb_eq (a b : num) : num_eqb a b = true -> a = b.
Proof. destruct a, b; simpl; try done. intros H. apply Z.eqb_eq in H. by subst. Qed.

Lemma item_setPosition_sits (v : ItemView) (obj : Entry) :
  sits_at (item_setPosition (Some (e_left obj)) (Some (e_top obj)) v) obj
  /\ item_index (item_setPosition (Some (e_left obj)) (Some (e_top obj)) v) = item_index v.
Proof.
  unfold item_setPosition, sits_at. cbn [default]. unfold Datatypes.id.
  destruct (negb (Qeq_bool (item_x v) (e_left obj)) || negb (num_eqb (item_y v) (e_top obj)))
    eqn:E.
  - cbn [item_x item_y item_index]. split; [split; reflexivity|reflexivity].
  - apply orb_false_iff in E as [E1 E2].
    apply negb_false_iff in E1, E2. apply Qeq_bool_iff in E1. apply num_eqb_eq in E2. done.
Qed.

Lemma item_setPosition_stays (v : ItemView) (obj : Entry) (x : Q) (y : num) :
  sits_at v obj -> (x == e_left obj)%Q -> y = e_top obj ->
  sits_at (item_setPosition (Some x) (Some y) v) obj.
Proof.
  intros [Hx Hy] Hx' ->. unfold item_setPosition, sits_at. cbn [default]. unfold Datatypes.id.
  destruct (_ || _); cbn [item_x item_y]; done.
Qed.

(** One turn moves its item to its entry and leaves the other items and
    the layout array alone. *)
Lemma place_item_spec (g : Grid) (item : nat) :
  storage_items (place_item g item) = storage_items g
  /\ forall id v, views g !! id = Some v ->
       exists v', views (place_item g item) !! id = Some v'
         /\ item_index v' = item_index v
         /\ forall obj, entry_at (storage_items g) (item_index v) = Some obj ->
              id = item \/ sits_at v obj -> sits_at v' obj.
Proof.
  unfold place_item, index_of.
  destruct (views g !! item) as [vi|] eqn:Hvi; cbn [fmap option_fmap option_map].
  - destruct (entry_at (storage_items g) (item_index vi)) as [obj|] eqn:Hobj.
    + split; [done|]. intros id v Hv. unfold update_view. cbn [views set_views].
      destruct (decide (id = item)) as [->|Hne].
      * rewrite list_lookup_alter_eq, Hvi. cbn [fmap option_fmap option_map].
        assert (v = vi) as -> by congruence.
        destruct (item_setPosition_sits vi obj) as [Hsit Hidx].
        eexists. split; [done|]. split; [done|].
        intros obj' Hobj' _. by assert (obj' = obj) as -> by congruence.
      * rewrite list_lookup_alter_ne by done. exists v. split; [done|]. split; [done|].
        intros obj' _ [|]; done.
    + split; [done|]. intros id v Hv. exists v. split; [done|]. split; [done|].
      intros obj' Hobj' [->|]; [|done]. congruence.
  - split; [done|]. intros id v Hv. exists v. split; [done|]. split; [done|].
    intros obj' Hobj' [->|]; [|done]. congruence.
Qed.

Lemma foldl_place_item_spec (ids : list nat) (g : Grid) :
  storage_items (foldl place_item g ids) = storage_items g
  /\ forall id v, views g !! id = Some v ->
       exists v', views (foldl place_item g ids) !! id = Some v'
         /\ item_index v' = item_index v
         /\ forall obj, entry_at (storage_items g) (item_index v) = Some obj ->
              id ∈ ids \/ sits_at v obj -> sits_at v' obj.
Proof.
  revert g. induction ids as [|item ids IH]; intros g; cbn [foldl].
  - split; [done|]. intros id v Hv. exists v. split; [done|]. split; [done|].
    intros obj _ [H|]; [by apply elem_of_nil in H|done].
  - destruct (place_item_spec g item) as [Hs1 Hv1].
    destruct (IH (place_item g item)) as [Hs2 Hv2].
    split; [congruence|]. intros id v Hv.
    destruct (Hv1 id v Hv) as (v1 & Hv1' & Hi1 & Hsit1).
    destruct (Hv2 id v1 Hv1') as (v2 & Hv2' & Hi2 & Hsit2).
    exists v2. split; [done|]. split; [congruence|].
    intros obj Hobj Hor. apply Hsit2; [by rewrite Hs1, Hi1|].
    destruct Hor as [Hin|Hsit].
    + apply elem_of_cons in Hin as [->|Hin]; [|by left].
      right. apply Hsit1; [done|by left].
    + right. apply Hsit1; [done|by right].
Qed.

Lemma run_callback_views (cb : Callback) :
  preserves (same_on (fun g => (views g, storage_items g))) (run_callback cb).
Proof. induction cb; simpl; frame. Qed.

(** [updateItemsPosition] in the normal state moves every item of the pool
    that is bound to an index with a layout entry to the left offset and
    the top of that entry; the items keep their indices and the layout
    array is not written. *)
Theorem updateItemsPosition_places_items (g : Grid) (fdone : Callback) :
  stateIsNormal check_all g = true ->
  let g' := (updateItemsPosition fdone g).2 in
  storage_items g' = storage_items g
  /\ forall id v obj, id ∈ items g -> views g !! id = Some v ->
       entry_at (storage_items g) (item_index v) = Some obj ->
       exists v', views g' !! id = Some v' /\ item_index v' = item_index v
         /\ sits_at v' obj.
Proof.
  intros Hn. cbv zeta. unfold updateItemsPosition. rewrite Hn. cbn [negb].
  unfold setBuildState, state. rewrite bind_modify.
  set (g0 := set_gridState ABI7_GRID_STATE_BUILD g).
  assert (Hanim : forall (k : unit -> M unit),
            bind (animation true CbUndefined) k g0 = k tt g0).
  { intros k. unfold bind, animation. destruct (enable _); reflexivity. }
  rewrite Hanim. unfold place_items.
  change (bind (fun g1 => modify (fun g2 => foldl
            (fun g3 item =>
               match index_of g3 item with
               | Some k =>
                   match entry_at (storage_items g3) k with
                   | Some obj => update_view item
                       (item_setPosition (Some (e_left obj)) (Some (e_top obj))) g3
                   | None => g3
                   end
               | None => g3
               end) g2 (items g1)) g1)
          (fun _ => animation false (CbUpdateItemsPositionDone fdone)) g0)
    with (animation false (CbUpdateItemsPositionDone fdone)
            (foldl place_item g0 (items g0))).
  destruct (foldl_place_item_spec (items g0) g0) as [Hs Hv].
  set (g1 := foldl place_item g0 (items g0)) in *.
  assert (Hfin : views (animation false (CbUpdateItemsPositionDone fdone) g1).2 = views g1
                 /\ storage_items (animation false (CbUpdateItemsPositionDone fdone) g1).2
                    = storage_items g1).
  { assert (H : preserves (same_on (fun g => (views g, storage_items g)))
                  (animation false (CbUpdateItemsPositionDone fdone))).
    { unfold animation. frame. }
    specialize (H g1). unfold same_on in H. by injection H. }
  destruct Hfin as [-> ->]. split; [done|].
  intros id v obj Hin Hview Hobj.
  destruct (Hv id v Hview) as (v' & Hv' & Hi & Hsit).
  exists v'. split; [done|]. split; [done|]. apply Hsit; [done|by left].
Qed.

Lemma updateItemsPosition_places_items_witness :
  storage_items (updateItemsPosition CbUndefined (example_loaded true)).2
  = storage_items (example_loaded true)
  /\ forall id v obj, id ∈ items (example_loaded true) ->
       views (example_loaded true) !! id = Some v ->
       entry_at (storage_items (example_loaded true)) (item_index v) = Some obj ->
       exists v', views (updateItemsPosition CbUndefined (example_loaded true)).2 !! id
                  = Some v'
         /\ item_index v' = item_index v /\ sits_at v' obj.
Proof.
  apply (updateItemsPosition_places_items (example_loaded true) CbUndefined).
  vm_compute. reflexivity.
Defined.


(** ** Reordering by drag *)

(** Within the array a truthy element is cut out at [a] and put back at
    [b]. *)
Lemma array_move_item_in_range {A : Type} (truthy : A -> bool) (a b : Z) (arr : list A)
    (x : A) :
  0 <= a -> arr !! Z.to_nat a = Some x -> truthy x = true ->
  0 <= b < Z.of_nat (length arr) ->
  array_move_item truthy a b arr
  = take (Z.to_nat b) (delete (Z.to_nat a) arr)
    ++ x :: drop (Z.to_nat b) (delete (Z.to_nat a) arr).
Proof.
  intros Ha Hx Ht Hb. unfold array_move_item.
  rewrite (Array_splice1_at a arr x Ha Hx). cbn [head]. rewrite Ht.
  unfold Array_splice_insert, relative_index.
  assert (Hlen : length (delete (Z.to_nat a) arr) = (length arr - 1)%nat).
  { apply length_delete. eauto. }
  destruct (Z.ltb_spec b 0); [lia|].
  rewrite Hlen, Z.min_l by lia. done.
Qed.

(** Moving an element inside the array: the array keeps its length and its
    elements, the moved element ends at [pos2], and the other elements keep
    their order. *)
Theorem array_move_item_moves {A : Type} (truthy : A -> bool) (pos1 pos2 : Z)
    (arr : list A) (x : A) :
  0 <= pos1 -> arr !! Z.to_nat pos1 = Some x -> truthy x = true ->
  0 <= pos2 < Z.of_nat (length arr) ->
  let r := array_move_item truthy pos1 pos2 arr in
  length r = length arr
  /\ r !! Z.to_nat pos2 = Some x
  /\ delete (Z.to_nat pos2) r = delete (Z.to_nat pos1) arr
  /\ r ≡ₚ arr.
Proof.
  intros Ha Hx Ht Hb. cbv zeta.
  rewrite (array_move_item_in_range truthy pos1 pos2 arr x Ha Hx Ht Hb).
  assert (Hlen : length (delete (Z.to_nat pos1) arr) = (length arr - 1)%nat).
  { apply length_delete. eauto. }
  set (d := delete (Z.to_nat pos1) arr) in *.
  assert (Htk : length (take (Z.to_nat pos2) d) = Z.to_nat pos2).
  { rewrite length_take. lia. }
  split; [|split; [|split]].
  - rewrite length_app, Htk. cbn [length]. rewrite length_drop. lia.
  - rewrite lookup_app_r by lia. by rewrite Htk, Nat.sub_diag.
  - rewrite <- Htk at 1. rewrite delete_middle. apply take_drop.
  - rewrite <- Permutation_middle, take_drop. unfold d.
    symmetry. by apply delete_Permutation.
Qed.

Lemma array_move_item_moves_witness :
  let r := array_move_item JsVal_truthy 0 2 example_records in
  length r = length example_records
  /\ r !! Z.to_nat 2 = Some (record 0 100)
  /\ delete (Z.to_nat 2) r = delete (Z.to_nat 0) example_records
  /\ r ≡ₚ example_records.
Proof.
  apply (array_move_item_moves JsVal_truthy 0 2 example_records (record 0 100)).
  - lia.
  - reflexivity.
  - reflexivity.
  - vm_compute. split; [discriminate|reflexivity].
Defined.

(** The edges of [array_move_item]: a position at or past the end moves
    nothing; an element that is not truthy (a hole of the layout array, a
    record that is [0], [null] or the empty string) is cut out and not put
    back; and a negative position counts from the end, so that [-1] moves
    the last element. *)
Theorem array_move_item_edges {A : Type} (truthy : A -> bool) (pos1 pos2 : Z)
    (arr : list A) :
  (Z.of_nat (length arr) <= pos1 -> array_move_item truthy pos1 pos2 arr = arr)
  /\ (forall x, 0 <= pos1 -> arr !! Z.to_nat pos1 = Some x -> truthy x = false ->
        array_move_item truthy pos1 pos2 arr = delete (Z.to_nat pos1) arr)
  /\ (forall l x, arr = l ++ [x] -> truthy x = true -> 0 <= pos2 <= Z.of_nat (length l) ->
        array_move_item truthy (-1) pos2 arr
        = take (Z.to_nat pos2) l ++ x :: drop (Z.to_nat pos2) l).
Proof.
  split; [|split].
  - intros Hge. unfold array_move_item, Array_splice1, relative_index.
    destruct (Z.ltb_spec pos1 0); [lia|].
    rewrite Z.min_r by lia. rewrite Nat2Z.id.
    rewrite firstn_all, !skipn_all2 by lia. cbn [take head]. by rewrite app_nil_r.
  - intros x Ha Hx Ht. unfold array_move_item.
    rewrite (Array_splice1_at pos1 arr x Ha Hx). cbn [head]. by rewrite Ht.
  - intros l x -> Ht Hb. unfold array_move_item, Array_splice1, relative_index.
    rewrite length_app. cbn [length].
    destruct (Z.ltb_spec (-1) 0); [|lia].
    replace (Z.to_nat (Z.max (Z.of_nat (length l + 1) + -1) 0)) with (length l) by lia.
    rewrite take_app_length, drop_app_length.
    rewrite (drop_app_ge l [x] (S (length l))) by lia.
    replace (S (length l) - length l)%nat with 1%nat by lia.
    cbn [drop take head app]. rewrite Ht, app_nil_r.
    unfold Array_splice_insert, relative_index.
    destruct (Z.ltb_spec pos2 0); [lia|]. by rewrite Z.min_l by lia.
Qed.

(** Where the element at [k] is after the element at [a] went to [b]. *)
Lemma move_lookup {A : Type} (l : list A) (a b k : nat) (x : A) :
  l !! a = Some x -> (b < length l)%nat -> (k < length l)%nat ->
  (take b (delete a l) ++ x :: drop b (delete a l))
    !! (if decide (k = a) then b
        else if decide (a < b)%nat
             then (if decide (a < k <= b)%nat then k - 1 else k)%nat
             else (if decide (b <= k < a)%nat then k + 1 else k)%nat)
  = l !! k.
Proof.
  intros Hx Hb Hk.
  pose proof (lookup_lt_Some _ _ _ Hx) as Ha.
  assert (Hlen : length (delete a l) = (length l - 1)%nat) by (apply length_delete; eauto).
  assert (Htk : length (take b (delete a l)) = b) by (rewrite length_take; lia).
  assert (Hbefore : forall j, (j < b)%nat ->
            (take b (delete a l) ++ x :: drop b (delete a l)) !! j
            = l !! (if decide (j < a)%nat then j else S j)).
  { intros j Hj. rewrite lookup_app_l by lia. rewrite lookup_take_lt by lia.
    apply list_lookup_delete. }
  assert (Hafter : forall j, (b < j)%nat ->
            (take b (delete a l) ++ x :: drop b (delete a l)) !! j
            = l !! (if decide (j - 1 < a)%nat then (j - 1)%nat else j)).
  { intros j Hj. rewrite lookup_app_r by lia. rewrite Htk.
    rewrite lookup_cons_ne_0 by lia.
    rewrite lookup_drop. replace (b + pred (j - b))%nat with (j - 1)%nat by lia.
    rewrite list_lookup_delete. destruct (decide (j - 1 < a)%nat); [done|].
    f_equal. lia. }
  destruct (decide (k = a)) as [->|Hka].
  - rewrite lookup_app_r by lia. by rewrite Htk, Nat.sub_diag.
  - destruct (decide (a < b)%nat) as [Hab|Hab].
    + destruct (decide (a < k <= b)%nat) as [Hin|Hout].
      * rewrite Hbefore by lia. destruct (decide (k - 1 < a)%nat); [lia|]. f_equal. lia.
      * destruct (decide (k < b)%nat).
        -- rewrite Hbefore by lia. destruct (decide (k < a)%nat); [done|lia].
        -- rewrite Hafter by lia. destruct (decide (k - 1 < a)%nat); [lia|done].
    + destruct (decide (b <= k < a)%nat) as [Hin|Hout].
      * rewrite Hafter by lia. destruct (decide (k + 1 - 1 < a)%nat); [|lia]. f_equal. lia.
      * destruct (decide (k < b)%nat).
        -- rewrite Hbefore by lia. destruct (decide (k < a)%nat); [done|lia].
        -- destruct (decide (k = b)) as [->|Hkb]; [lia|].
           rewrite Hafter by lia. destruct (decide (k - 1 < a)%nat); [lia|done].
Qed.

Lemma sortMove_shift_index (elID ovrID : Z) (v : ItemView) :
  item_index (sortMove_shift elID ovrID v)
  = if elID <? ovrID then
      if (elID <? item_index v) && (item_index v <=? ovrID) then item_index v - 1
      else item_index v
    else if ovrID <? elID then
      if (ovrID <=? item_index v) && (item_index v <? elID) then item_index v + 1
      else item_index v
    else item_index v.
Proof. unfold sortMove_shift. repeat case_match; done. Qed.

(** After a move inside the array, the element that was at [k] is at the
    index [sortMove] gives an item bound to [k]. *)
Lemma array_move_item_lookup {A : Type} (truthy : A -> bool) (a b k : Z) (arr : list A)
    (x : A) (v : ItemView) :
  0 <= a -> arr !! Z.to_nat a = Some x -> truthy x = true ->
  0 <= b < Z.of_nat (length arr) -> a <> b ->
  0 <= k < Z.of_nat (length arr) -> item_index v = k ->
  array_move_item truthy a b arr
    !! Z.to_nat (if k =? a then b else item_index (sortMove_shift a b v))
  = arr !! Z.to_nat k.
Proof.
  intros Ha Hx Ht Hb Hab Hk Hv.
  rewrite (array_move_item_in_range truthy a b arr x Ha Hx Ht Hb).
  rewrite <- (move_lookup arr (Z.to_nat a) (Z.to_nat b) (Z.to_nat k) x Hx) by lia.
  f_equal. rewrite sortMove_shift_index, Hv.
  destruct (Z.eqb_spec k a) as [->|Hka].
  - rewrite decide_True by done. done.
  - rewrite decide_False by lia.
    destruct (Z.ltb_spec a b).
    + rewrite decide_True by lia.
      destruct (Z.ltb_spec a k), (Z.leb_spec k b); cbn [andb];
        first [rewrite decide_True by lia | rewrite decide_False by lia]; lia.
    + rewrite decide_False by lia.
      destruct (Z.ltb_spec b a); [|lia].
      destruct (Z.leb_spec b k), (Z.ltb_spec k a); cbn [andb];
        first [rewrite decide_True by lia | rewrite decide_False by lia]; lia.
Qed.

Lemma foldl_update_view_lookup (f : ItemView -> ItemView) (l : list nat) (g : Grid)
    (j : nat) :
  NoDup l ->
  views (foldl (fun g i => update_view i f g) g l) !! j
  = (fun v => if decide (j ∈ l) then f v else v) <$> views g !! j.
Proof.
  revert g. induction l as [|i l IH]; intros g Hnd; cbn [foldl].
  - destruct (views g !! j); cbn [fmap option_fmap option_map]; [|done].
    by rewrite decide_False by apply not_elem_of_nil.
  - apply NoDup_cons in Hnd as [Hni Hnd]. rewrite IH by done.
    unfold update_view. cbn [views set_views].
    destruct (decide (j = i)) as [->|Hne].
    + rewrite list_lookup_alter_eq.
      destruct (views g !! i); cbn [fmap option_fmap option_map]; [|done].
      rewrite decide_False by done. rewrite decide_True by (by left). done.
    + rewrite list_lookup_alter_ne by done.
      destruct (views g !! j); cbn [fmap option_fmap option_map]; [|done].
      destruct (decide (j ∈ l)).
      * rewrite decide_True by (by right). done.
      * rewrite decide_False; [done|]. intros [?|?]%elem_of_cons; done.
Qed.

(** Recomputing positions moves no record and rebinds no item. *)
Lemma recalcItems_indices (pos : Z) (options : RecalcOptions) (fdone : Callback) :
  preserves (same_on (fun g => (heap g, cache g, item_index <$> views g)))
    (recalcItems pos options fdone).
Proof.
  assert (Hloop : forall n i, preserves
            (same_on (fun g => (heap g, cache g, item_index <$> views g)))
            (recalc_loop n i options)).
  { intros n i. apply (preserves_weaken (same_on recalc_frame)); [|apply recalc_loop_frame].
    intros g g' H. apply recalc_frame_eq in H. unfold same_on.
    destruct H as (_ & _ & -> & -> & _ & _ & _ & _ & _ & _ & _ & ->). done. }
  assert (Hcb : forall cb, preserves
            (same_on (fun g => (heap g, cache g, item_index <$> views g)))
            (run_callback cb)).
  { induction cb; simpl; frame. }
  unfold recalcItems. frame; first [apply Hloop | apply Hcb | unfold animation; frame; apply Hcb].
Qed.

(** Dragging an item onto another one reorders the cache with the items:
    once [sortMove] has moved the record of the dragged item to the index
    of the item under it, every item of the pool is bound to the index at
    which its own record now is. *)
Theorem sortMove_reorder_keeps_records (g : Grid) (item overItem : nat)
    (self over : ItemView) (x : JsVal) :
  views g !! item = Some self -> views g !! overItem = Some over ->
  NoDup (items g) ->
  (forall i v, i ∈ items g -> i <> item -> views g !! i = Some v ->
     item_index v <> item_index self) ->
  0 <= item_index self ->
  cache_records g !! Z.to_nat (item_index self) = Some x -> JsVal_truthy x = true ->
  0 <= item_index over < Z.of_nat (length (cache_records g)) ->
  item_index self <> item_index over ->
  let g' := (sortMove_reorder item overItem g).2 in
  forall i v, i ∈ items g \/ i = item -> views g !! i = Some v ->
    0 <= item_index v < Z.of_nat (length (cache_records g)) ->
    exists v', views g' !! i = Some v'
      /\ cache_records g' !! Z.to_nat (item_index v')
         = cache_records g !! Z.to_nat (item_index v).
Proof.
  intros Hself Hover Hnd Huniq Hel Hx Ht Hov Hne. cbv zeta.
  set (elID := item_index self) in *. set (ovrID := item_index over) in *.
  set (g1 := set_heap (<[cache g := array_move_item JsVal_truthy elID ovrID (cache_records g)]>
                         (heap g)) g).
  set (g2 := set_storage_items (array_move_item entry_truthy elID ovrID (storage_items g1)) g1).
  set (g3 := update_view item (item_set_index (-1)) g2).
  set (g4 := foldl (fun g i => update_view i (sortMove_shift elID ovrID) g) g3 (items g3)).
  set (g5 := update_view item (item_set_index ovrID) g4).
  assert (Hmain : forall pos i v, i ∈ items g \/ i = item -> views g !! i = Some v ->
            0 <= item_index v < Z.of_nat (length (cache_records g)) ->
            exists v',
              views (recalcItems pos {| itemsUpdate := true; itemsToSkip := [ovrID];
                                        opt_animation := None |} CbUndefined g5).2 !! i
              = Some v'
              /\ cache_records
                   (recalcItems pos {| itemsUpdate := true; itemsToSkip := [ovrID];
                                       opt_animation := None |} CbUndefined g5).2
                   !! Z.to_nat (item_index v')
                 = cache_records g !! Z.to_nat (item_index v)).
  { intros pos i v Hi Hv Hk.
    pose proof (recalcItems_indices pos {| itemsUpdate := true; itemsToSkip := [ovrID];
                                           opt_animation := None |} CbUndefined g5) as Hfr.
    unfold same_on in Hfr. set (gf := (recalcItems _ _ _ g5).2) in *.
    assert (Hheap := f_equal (fun t => t.1.1) Hfr).
    assert (Hcache := f_equal (fun t => t.1.2) Hfr).
    assert (Hidx := f_equal snd Hfr). cbn [fst snd] in Hheap, Hcache, Hidx.
    assert (Hrec : cache_records gf = array_move_item JsVal_truthy elID ovrID (cache_records g)).
    { unfold cache_records at 1. rewrite Hheap, Hcache.
      unfold g5, g4, update_view. cbn [heap cache set_views].
      rewrite (foldl_frame heap), (foldl_frame cache) by done.
      cbn [heap cache g3 g2 g1 update_view set_views set_storage_items set_heap].
      by rewrite lookup_insert_eq. }
    assert (Hv5 : exists v5, views g5 !! i = Some v5
                    /\ item_index v5 = if item_index v =? elID then ovrID
                                       else item_index (sortMove_shift elID ovrID v)).
    { unfold g5, update_view. cbn [views set_views].
      destruct (decide (i = item)) as [->|Hni].
      - rewrite list_lookup_alter_eq. unfold g4.
        rewrite foldl_update_view_lookup by done.
        unfold g3, update_view. cbn [views set_views]. rewrite list_lookup_alter_eq.
        cbn [views g2 g1 set_storage_items set_heap]. rewrite Hself.
        cbn [fmap option_fmap option_map]. eexists. split; [done|].
        assert (v = self) as -> by congruence.
        fold elID. rewrite Z.eqb_refl. done.
      - rewrite list_lookup_alter_ne by done. unfold g4.
        rewrite foldl_update_view_lookup by done.
        unfold g3, update_view. cbn [views set_views items]. rewrite list_lookup_alter_ne by done.
        cbn [views items g2 g1 set_storage_items set_heap]. rewrite Hv.
        cbn [fmap option_fmap option_map].
        destruct Hi as [Hi|Hi]; [|done].
        rewrite decide_True by done. eexists. split; [done|].
        destruct (Z.eqb_spec (item_index v) elID) as [Heq|_]; [|done].
        exfalso. by apply (Huniq i v). }
    destruct Hv5 as (v5 & Hv5 & Hi5).
    assert (Hvf : exists vf, views gf !! i = Some vf /\ item_index vf = item_index v5).
    { assert (H : (item_index <$> views gf) !! i = (item_index <$> views g5) !! i)
        by (by rewrite Hidx).
      rewrite !list_lookup_fmap, Hv5 in H. cbn [fmap option_fmap option_map] in H.
      destruct (views gf !! i) as [vf|]; [|done]. injection H as H. eauto. }
    destruct Hvf as (vf & Hvf & Hif). exists vf. split; [done|].
    rewrite Hrec, Hif, Hi5.
    by apply (array_move_item_lookup JsVal_truthy elID ovrID (item_index v) _ x v). }
  unfold sortMove_reorder. rewrite Hover, Hself. cbv zeta. fold elID ovrID.
  rewrite !bind_modify. fold g1 g2 g3.
  destruct (Z.ltb_spec elID ovrID).
  - rewrite !bind_modify. fold g4 g5. apply Hmain.
  - destruct (Z.ltb_spec ovrID elID); [|lia].
    rewrite !bind_modify. fold g4 g5. apply Hmain.
Qed.
Lemma sortMove_reorder_keeps_records_witness :
  exists v', views (sortMove_reorder 0 2 (example_loaded true)).2 !! 1%nat = Some v'
    /\ cache_records (sortMove_reorder 0 2 (example_loaded true)).2
         !! Z.to_nat (item_index v')
       = cache_records (example_loaded true) !! Z.to_nat 1.
Proof.
  apply (sortMove_reorder_keeps_records (example_loaded true) 0 2
           {| item_index := 0; loadIndex := 0; item_x := 490 # 2; item_y := Num 0;
              item_column := 0; valHeight := 100; valWidth := 250 |}
           {| item_index := 2; loadIndex := 2; item_x := 1010 # 2; item_y := Num 55;
              item_column := 1; valHeight := 70; valWidth := 250 |}
           (record 0 100) ltac:(vm_compute; reflexivity) ltac:(vm_compute; reflexivity)
           ltac:(apply (bool_decide_unpack _); vm_compute; reflexivity)
           ltac:(intros i v Hin Hne Hv;
                 assert (Hitems : items (example_loaded true) = [0; 1; 2; 3]%nat)
                   by (vm_compute; reflexivity);
                 rewrite Hitems in Hin;
                 repeat (apply elem_of_cons in Hin as [->|Hin]);
                 [congruence
                 |vm_compute in Hv; injection Hv as <-; vm_compute; discriminate
                 |vm_compute in Hv; injection Hv as <-; vm_compute; discriminate
                 |vm_compute in Hv; injection Hv as <-; vm_compute; discriminate
                 |exfalso; revert Hin; apply not_elem_of_nil])
           ltac:(vm_compute; discriminate) ltac:(vm_compute; reflexivity) eq_refl
           ltac:(vm_compute; split; [discriminate|reflexivity])
           ltac:(vm_compute; discriminate)
           1%nat
           {| item_index := 1; loadIndex := 1; item_x := 1010 # 2; item_y := Num 0;
              item_column := 1; valHeight := 50; valWidth := 250 |}).
  - left. assert (Hitems : items (example_loaded true) = [0; 1; 2; 3]%nat)
      by (vm_compute; reflexivity).
    rewrite Hitems. apply elem_of_cons. right. apply elem_of_cons. by left.
  - vm_compute. reflexivity.
  - vm_compute. split; [discriminate|reflexivity].
Defined.

(** ** Refreshing after a resize *)

(** [refresh] in the normal state lays the entries out again for the
    geometry of the current container width: when every record it covers
    gets a height under that geometry, the layout array ends with the number
    of entries it had (or one per record when it was empty), each where
    [findNextPos] puts it under the new geometry, and satisfies the layout
    invariant.  The column count needs no assumption: the geometry
    calculator never returns less than one column. *)
Theorem refresh_lays_out_again (g : Grid) (fdone : Callback) :
  stateIsNormal check_all g = true ->
  let gn := set_sizing (sizing_of (config g) (clientWidth g)) g in
  heights_resolve gn (Z.to_nat (refresh_count g)) ->
  let its := storage_items (refresh fdone g).2 in
  length its = Z.to_nat (refresh_count g) /\ laid_out gn its /\ layout_invariant its.
Proof.
  intros Hn gn Hh. cbv zeta.
  destruct (refresh_layout_pass fdone g Hn) as (g0 & Hc0 & Hz0 & Hr0 & Hs0 & Hsto & _).
  rewrite Hsto.
  destruct (recalcStorage_loop_laid_out (Z.to_nat (refresh_count g)) 0 g0)
    as (g1 & Hrun & Hl).
  - by rewrite Hs0.
  - rewrite Hs0. intros j Hj. simpl in Hj. lia.
  - intros k obj Hk. rewrite Hr0, Hc0.
    rewrite (storage_height_ext gn g0) by done. apply Hh. lia.
  - change (Z.of_nat 0) with 0 in Hrun. rewrite Hrun. cbn [snd].
    assert (Hl' : laid_out gn (storage_items g1)).
    { intros j Hj. destruct (Hl j Hj) as (e & He & Hp). exists e. split; [done|].
      by apply (placed_ext g0). }
    split; [|split; [done|]].
    + apply recalcStorage_loop_length in Hrun. rewrite Hrun, Hs0. simpl. lia.
    + apply (laid_out_invariant gn); [|done].
      apply (sizing_of_spec (config g) (clientWidth g)).
Qed.

Lemma refresh_lays_out_again_witness :
  let its := storage_items (refresh CbUndefined (example_loaded true)).2 in
  length its = Z.to_nat (refresh_count (example_loaded true))
  /\ laid_out (set_sizing (sizing_of (config (example_loaded true))
                             (clientWidth (example_loaded true))) (example_loaded true)) its
  /\ layout_invariant its.
Proof.
  apply (refresh_lays_out_again (example_loaded true) CbUndefined).
  - vm_compute. reflexivity.
  - assert (Z.to_nat (refresh_count (example_loaded true)) = 6%nat) as ->.
    { vm_compute. reflexivity. }
    intros i obj Hi.
    do 6 (destruct i as [|i];
          [eexists; split; [vm_compute; reflexivity|vm_compute; reflexivity]|]).
    lia.
Defined.


(** ** Reloading *)

Lemma initProps_facts (g : Grid) :
  exists g1, initProps g = (Ret tt, g1)
    /\ config g1 = config g /\ clientWidth g1 = clientWidth g /\ sizing g1 = sizing g
    /\ heap g1 = <[fresh_ref g := []]> (heap g) /\ cache g1 = fresh_ref g
    /\ eof_data g1 = false /\ items g1 = items g
    /\ gridState g1 = ABI7_GRID_STATE_BUILD /\ ready g1 = false
    /\ storage_items g1 = [] /\ trace g1 = trace g /\ timers g1 = timers g.
Proof. eexists. repeat split; reflexivity. Qed.

(** [reload] on a grid without a data source (its records came from
    [data(array)]), with a pool of items and the container at the width the
    geometry was computed for: the cache is replaced by a new empty array,
    the load finds nothing cached and calls [config.funcLoadData], which is
    not a function.  The call throws, the caller's array is untouched but no
    longer the cache, and the grid is left in the [BUILD] state and not
    ready, so that [stateIsNormal] is false whatever its options. *)
Theorem reload_without_source_throws (g : Grid) (fdone : Callback) :
  stateIsNormal check_but_visible g = true ->
  funcLoadData (config g) = None ->
  clientWidth g = grid_width (sizing g) ->
  0 < itemsCount (sizing g) -> items g <> [] ->
  exists g', reload fdone g = (Throw (TypeError "config.funcLoadData is not a function"), g')
    /\ cache_records g' = []
    /\ (forall arr, heap g !! cache g = Some arr -> heap g' !! cache g = Some arr)
    /\ gridState g' = ABI7_GRID_STATE_BUILD /\ ready g' = false
    /\ forall cfg, stateIsNormal cfg g' = false.
Proof.
  intros Hn Hsrc Hw Hcnt Hitems.
  unfold reload. rewrite Hn. cbn [negb].
  destruct (initProps_facts g)
    as (g1 & Hip & Hc1 & Hw1 & Hs1 & Hh1 & Hk1 & He1 & Hi1 & Hb1 & Hr1 & _).
  rewrite (bind_ret _ _ _ _ _ Hip).
  assert (Hstep : forall (k : unit -> M unit),
            bind (fun g => when (negb (clientWidth g =? grid_width (sizing g)))
                             initSizingParams g) k g1 = k tt g1).
  { intros k. unfold bind. by rewrite Hw1, Hs1, Hw, Z.eqb_refl. }
  rewrite Hstep. clear Hstep.
  unfold initLoadData. rewrite !bind_modify.
  set (g2 := set_buffer BufferIsItems (foldr (fun i => update_view i item_reset) g1 (items g1))).
  assert (Hf2 : config g2 = config g /\ heap g2 = <[fresh_ref g := []]> (heap g)
                /\ cache g2 = fresh_ref g /\ eof_data g2 = false
                /\ ready g2 = false /\ buffer_list g2 = items g /\ sizing g2 = sizing g).
  { unfold g2, buffer_list.
    cbn [config heap cache eof_data ready buffer items sizing set_buffer].
    rewrite (foldr_update_view_frame config), (foldr_update_view_frame heap),
      (foldr_update_view_frame cache), (foldr_update_view_frame eof_data),
      (foldr_update_view_frame ready), (foldr_update_view_frame items),
      (foldr_update_view_frame sizing) by done.
    repeat split; congruence. }
  clearbody g2. destruct Hf2 as (Hc & Hh & Hk & He & Hr & Hbuf & Hs).
  unfold loadData, setBuildState, state. rewrite bind_modify. cbv zeta. cbn [default].
  rewrite bind_modify.
  set (g3 := set_cursor_pos (Z.max 0 0) (set_gridState ABI7_GRID_STATE_BUILD g2)).
  set (count := Z.min _ _).
  assert (Hcount : 0 < count).
  { unfold count. change (buffer_list (set_gridState ABI7_GRID_STATE_BUILD g2))
      with (buffer_list g2).
    cbn [sizing set_gridState]. rewrite Hbuf, Hs.
    destruct (items g); [done|]. cbn [length]. lia. }
  clearbody count.
  assert (Hex : exists g4,
            (forall (k : unit -> M unit),
               bind (fun g0 => when (onDataLoadStart (events (config g0)))
                                 (emit EvDataLoadStart) g0) k g3 = k tt g4)
            /\ config g4 = config g /\ heap g4 = heap g2 /\ cache g4 = cache g2
            /\ eof_data g4 = false /\ gridState g4 = ABI7_GRID_STATE_BUILD
            /\ ready g4 = false).
  { unfold bind. destruct (onDataLoadStart (events (config g3))) eqn:E.
    - exists (set_trace (trace g3 ++ [EvDataLoadStart]) g3).
      split; [intros k; reflexivity|]. repeat split; done.
    - exists g3. split; [intros k; reflexivity|]. repeat split; done. }
  destruct Hex as (g4 & Hstep & Hc4 & Hh4 & Hk4 & He4 & Hb4 & Hr4). rewrite Hstep.
  assert (Hrec : cache_records g4 = []).
  { unfold cache_records. by rewrite Hh4, Hk4, Hh, Hk, lookup_insert_eq. }
  assert (Hmf : must_fetch g4 (Z.max 0 0) count = true).
  { apply must_fetch_iff. rewrite Hrec. split; [|done]. cbn [length]. lia. }
  rewrite Hmf, Hc4, Hsrc.
  eexists. split; [reflexivity|].
  split; [done|]. split.
  { intros arr Harr. rewrite Hh4, Hh. by apply fresh_ref_insert_ne. }
  split; [done|]. split; [done|].
  intros cfg. unfold stateIsNormal. by rewrite Hb4.
Qed.

Lemma reload_without_source_throws_witness :
  exists g', reload CbUndefined (example_loaded true)
             = (Throw (TypeError "config.funcLoadData is not a function"), g')
    /\ cache_records g' = []
    /\ (forall arr, heap (example_loaded true) !! cache (example_loaded true) = Some arr ->
          heap g' !! cache (example_loaded true) = Some arr)
    /\ gridState g' = ABI7_GRID_STATE_BUILD /\ ready g' = false
    /\ forall cfg, stateIsNormal cfg g' = false.
Proof.
  apply (reload_without_source_throws (example_loaded true) CbUndefined).
  - vm_compute. reflexivity.
  - vm_compute. reflexivity.
  - vm_compute. reflexivity.
  - vm_compute. reflexivity.
  - vm_compute. discriminate.
Defined.


(** ** Animation switched off *)

(** With [animation.enable] false, [animation] runs nothing, not even the
    completion it is given: [updateItemsPosition] in the normal state moves
    the items and returns with the grid still in the [BUILD] state, without
    calling [fdone], without a timeout pending and without a handler called,
    so that nothing will bring the grid back to the normal state. *)
Theorem updateItemsPosition_animation_disabled (g : Grid) (fdone : Callback) :
  stateIsNormal check_all g = true ->
  enable (animation_cfg (config g)) = false ->
  exists g', updateItemsPosition fdone g = (Ret tt, g')
    /\ gridState g' = ABI7_GRID_STATE_BUILD
    /\ timers g' = timers g /\ trace g' = trace g
    /\ stateIsNormal check_all g' = false.
Proof.
  intros Hn Hoff. unfold updateItemsPosition. rewrite Hn. cbn [negb].
  unfold setBuildState, state. rewrite bind_modify.
  set (g0 := set_gridState ABI7_GRID_STATE_BUILD g).
  assert (Ha : forall v cb (g1 : Grid), config g1 = config g ->
            animation v cb g1 = (Ret tt, g1)).
  { intros v cb g1 Hc. unfold animation. by rewrite Hc, Hoff. }
  rewrite (bind_ret _ _ _ _ _ (Ha true CbUndefined g0 eq_refl)).
  assert (Hp : forall (k : unit -> M unit),
            bind (fun g => place_items (items g) g) k g0
            = k tt (foldl place_item g0 (items g0))) by reflexivity.
  rewrite Hp. clear Hp.
  set (g1 := foldl place_item g0 (items g0)).
  assert (Hfr : config g1 = config g /\ gridState g1 = ABI7_GRID_STATE_BUILD
                /\ timers g1 = timers g /\ trace g1 = trace g).
  { assert (Hstep : forall {T : Type} (f : Grid -> T),
              (forall v g2, f (set_views v g2) = f g2) -> f g1 = f g0).
    { intros T f Hf. unfold g1. apply (foldl_frame f). intros g2 i.
      unfold place_item, update_view. repeat case_match; done. }
    rewrite (Hstep _ config), (Hstep _ gridState), (Hstep _ timers), (Hstep _ trace) by done.
    done. }
  destruct Hfr as (Hc & Hb & Ht & Htr).
  rewrite (Ha false _ g1 Hc).
  exists g1. split; [done|]. split; [done|]. split; [done|]. split; [done|].
  by apply stateIsNormal_build.
Qed.

Lemma updateItemsPosition_animation_disabled_witness :
  exists g', updateItemsPosition CbUndefined (example_loaded false) = (Ret tt, g')
    /\ gridState g' = ABI7_GRID_STATE_BUILD
    /\ timers g' = timers (example_loaded false) /\ trace g' = trace (example_loaded false)
    /\ stateIsNormal check_all g' = false.
Proof.
  apply (updateItemsPosition_animation_disabled (example_loaded false) CbUndefined).
  - vm_compute. reflexivity.
  - vm_compute. reflexivity.
Defined.


(** ** Inserting a record *)

Lemma Array_set_length (i : nat) (x : Entry) (l : list (option Entry)) :
  (length l <= i)%nat -> length (Array_set i x l) = S i.
Proof.
  intros H. unfold Array_set. destruct (Nat.ltb_spec i (length l)); [lia|].
  rewrite !length_app, length_replicate. cbn [length]. lia.
Qed.

Ltac filling_step :=
  let g := fresh "g" in
  let Hb := fresh "Hb" in
  let Hc := fresh "Hc" in
  let H0 := fresh "H0" in
  let Hl := fresh "Hl" in
  intros g (Hb & Hc & H0 & Hl);
  unfold when, modify, ret, throw, lift, filling, update_view;
  repeat case_match; simplify_eq; simpl; repeat split; eauto; lia.

Lemma setSize_filling (id : nat) (width height : option Z) (c : Z) (b : nat) :
  (Z.to_nat c <= b)%nat ->
  hoare (filling c) (setSize id width height) (fun _ => filling c)
    (fun g => (length (storage_items g) <= b)%nat).
Proof.
  intros Hcb g (Hb & Hc & H0 & Hl).
  destruct (setSize_build id width height g Hb) as [v ->]. done.
Qed.

(** The loop of [dataFunc] started on a layout array that ends before the
    cursor adds at most one entry per turn. *)
Lemma dataFunc_loop_filling (n : nat) (i : Z) (data : list JsVal) (cfg : LoadOptions)
    (c : Z) :
  hoare (filling c) (dataFunc_loop n i data cfg)
    (fun _ => filling (c + Z.of_nat n))
    (fun g => (length (storage_items g) <= Z.to_nat (c + Z.of_nat n))%nat).
Proof.
  revert i c. induction n as [|n IH]; intros i c.
  - apply hoare_ret. intros g Hg. by rewrite Z.add_0_r.
  - cbn [dataFunc_loop].
    apply (hoare_bind _ _ _ (fun _ => filling c)); [filling_step|intros cached].
    apply (hoare_bind _ _ _ (fun _ => filling c)); [filling_step|intros new_pos].
    apply (hoare_bind _ _ _ (fun _ => filling c)); [filling_step|intros new_item].
    cbv zeta.
    apply (hoare_bind _ _ _ (fun _ => filling c)); [filling_step|intros _].
    apply (hoare_bind _ _ _ (fun _ => filling c)); [filling_step|intros _].
    apply (hoare_bind _ _ _ (fun _ => filling c)); [filling_step|intros _].
    apply (hoare_bind _ _ _ (fun _ => filling c)).
    { intros g Hg. assert (Hc0 : 0 <= c) by (by destruct Hg as (_ & _ & ? & _)).
      apply setSize_filling; [lia|done]. }
    intros _.
    apply (hoare_bind _ _ _ (fun _ => filling c)); [filling_step|intros clientHeight].
    apply (hoare_bind _ _ _ (fun _ => filling c)); [filling_step|intros itemHeight].
    apply (hoare_bind _ _ _ (fun _ => filling c)).
    { intros g Hg. assert (Hc0 : 0 <= c) by (by destruct Hg as (_ & _ & ? & _)).
      apply setSize_filling; [lia|done]. }
    intros _.
    apply (hoare_bind _ _ _ (fun _ g => gridState g = ABI7_GRID_STATE_BUILD
                                        /\ cursor_pos g = c /\ 0 <= c
                                        /\ (length (storage_items g) <= S (Z.to_nat c))%nat)).
    { intros g (Hb & Hc & H0 & Hl). unfold when, modify, ret.
      destruct (negb _); cbn [storage_items gridState cursor_pos set_storage_items].
      - rewrite Hc, Array_set_length by done. done.
      - repeat split; try done. lia. }
    intros _.
    apply (hoare_bind _ _ _ (fun _ => filling (c + 1))).
    { intros g (Hb & Hc & H0 & Hl). unfold modify, filling.
      cbn [storage_items gridState cursor_pos set_cursor_pos]. repeat split; try done; lia. }
    intros _.
    replace (c + Z.of_nat (S n)) with (c + 1 + Z.of_nat n) by lia.
    apply IH.
Qed.

(** [dataFunc] started on an empty layout array leaves at most one entry
    per item of the buffer. *)
Lemma dataFunc_fills (start count : Z) (cfg : LoadOptions) (fdone : Callback)
    (data : list JsVal) (g : Grid) :
  filling 0 g ->
  (length (storage_items (dataFunc start count cfg fdone data g).2)
   <= length (buffer_list g))%nat.
Proof.
  intros Hg.
  assert (H : hoare (fun g0 => filling 0 g0 /\ buffer_list g0 = buffer_list g)
                (dataFunc start count cfg fdone data)
                (fun _ g' => (length (storage_items g') <= length (buffer_list g))%nat)
                (fun g' => (length (storage_items g') <= length (buffer_list g))%nat)).
  { unfold dataFunc.
    apply (hoare_bind _ _ _ (fun _ g0 => filling 0 g0 /\ buffer_list g0 = buffer_list g)).
    { intros g0 [(Hb & Hc & H0 & Hl) Hbuf]. unfold when, emit, modify, ret, filling.
      destruct (onDataLoadEnd _); done. }
    intros _.
    apply (hoare_bind _ _ _ (fun cnt g0 => filling 0 g0
                                           /\ cnt <= Z.of_nat (length (buffer_list g)))).
    { intros g0 [Hf Hbuf]. unfold ret. split; [done|]. rewrite Hbuf. lia. }
    intros cnt. apply hoare_pure. intros Hcnt.
    apply (hoare_bind _ _ _
             (fun _ g' => (length (storage_items g') <= length (buffer_list g))%nat)).
    { intros g0 Hg0.
      pose proof (dataFunc_loop_filling (Z.to_nat cnt) 0 data cfg 0 g0 Hg0) as H.
      destruct (dataFunc_loop _ _ _ _ g0) as [[[]|e] g'].
      - destruct H as (_ & _ & _ & H). lia.
      - lia. }
    intros _.
    apply (hoare_preserves (same_on storage_items)).
    - frame. apply run_callback_storage.
    - intros g0 g' H0 H1. unfold same_on in H1. by rewrite H1. }
  specialize (H g (conj Hg eq_refl)).
  destruct (dataFunc _ _ _ _ _ g) as [[a|e] g']; exact H.
Qed.

(** [itemInsert(data)] with an object, in the normal state on a complete
    dataset: the record goes to the front of the array the grid holds as its
    cache, in place; and the layout array is rebuilt from nothing and holds
    at most one entry per item of the pool, whatever happens while the items
    are loaded. *)
Theorem itemInsert_prepends (g : Grid) (data : JsVal) (fdone : Callback) :
  stateIsNormal check_all g = true -> typeof data = TyObject -> eof_data g = true ->
  let g' := (itemInsert data fdone g).2 in
  cache g' = cache g
  /\ cache_records g' = data :: cache_records g
  /\ (length (storage_items g') <= length (items g))%nat.
Proof.
  intros Hn Hty Heof. cbv zeta. unfold itemInsert. rewrite Hn, Hty. cbn [negb JsType_eqb].
  rewrite !bind_modify.
  set (g1 := set_items _ _).
  assert (Hf : cache g1 = cache g
               /\ heap g1 = <[cache g := data :: cache_records g]> (heap g)
               /\ eof_data g1 = true /\ buffer_list g1 = items g1
               /\ length (items g1) = length (items g) /\ storage_items g1 = []).
  { unfold g1, buffer_list.
    cbn [cache heap eof_data buffer items storage_items set_items set_buffer
         set_storage_items set_heap].
    repeat split; try done.
    apply Permutation_length, Array_sort_perm. }
  clearbody g1. destruct Hf as (Hk & Hh & He & Hbuf & Hlen & Hs).
  pose proof (loadData_kept None None {| setX := false; setY := true; reset := false |}
                (CbItemInsertLoaded data fdone) g1 He) as (_ & Hk' & Hh').
  split; [congruence|]. split.
  { unfold cache_records. rewrite Hk', Hh', Hk, Hh. by rewrite lookup_insert_eq. }
  unfold loadData, setBuildState, state. rewrite bind_modify. cbv zeta. cbn [default].
  rewrite bind_modify.
  set (g2 := set_cursor_pos (Z.max 0 0) (set_gridState ABI7_GRID_STATE_BUILD g1)).
  set (count := Z.min _ _).
  assert (Hex : exists g3,
            (forall (k : unit -> M unit),
               bind (fun g0 => when (onDataLoadStart (events (config g0)))
                                 (emit EvDataLoadStart) g0) k g2 = k tt g3)
            /\ filling 0 g3 /\ eof_data g3 = true /\ buffer_list g3 = buffer_list g1).
  { unfold bind. destruct (onDataLoadStart (events (config g2))) eqn:E.
    - exists (set_trace (trace g2 ++ [EvDataLoadStart]) g2).
      split; [intros k; reflexivity|]. unfold filling.
      cbn [gridState cursor_pos storage_items set_trace g2 set_cursor_pos set_gridState].
      rewrite Hs. repeat split; done.
    - exists g2. split; [intros k; reflexivity|]. unfold filling.
      cbn [gridState cursor_pos storage_items g2 set_cursor_pos set_gridState].
      rewrite Hs. repeat split; done. }
  destruct Hex as (g3 & Hstep & Hfill & He3 & Hbuf3). rewrite Hstep.
  unfold must_fetch. rewrite He3, orb_true_r. cbn [negb].
  etrans; [apply dataFunc_fills; exact Hfill|]. rewrite Hbuf3, Hbuf. lia.
Qed.

Lemma itemInsert_prepends_witness :
  let g' := (itemInsert (record 9 40) CbUndefined (example_loaded true)).2 in
  cache g' = cache (example_loaded true)
  /\ cache_records g' = record 9 40 :: cache_records (example_loaded true)
  /\ (length (storage_items g') <= length (items (example_loaded true)))%nat.
Proof.
  apply (itemInsert_prepends (example_loaded true) (record 9 40) CbUndefined).
  - vm_compute. reflexivity.
  - reflexivity.
  - vm_compute. reflexivity.
Defined.


(** ** The items around the viewport *)

Lemma Qle_bool_false (a b : Q) : Qle_bool a b = false -> (b < a)%Q.
Proof.
  intros H. apply Qnot_le_lt. intros Hle. apply Qle_bool_iff in Hle. congruence.
Qed.

Lemma consecutive_run_step (g : Grid) (prev : Z) (l : list nat) :
  (forall a, consecutive_run g prev l !! 0%nat = Some a -> data_id g a = prev + 1)
  /\ (forall k a b, consecutive_run g prev l !! k = Some a ->
        consecutive_run g prev l !! S k = Some b -> data_id g b = data_id g a + 1).
Proof.
  revert prev. induction l as [|x l IH]; intros prev; cbn [consecutive_run].
  - split; intros; done.
  - destruct (Z.eqb_spec (data_id g x) (prev + 1)) as [Heq|Hne]; [|split; intros; done].
    destruct (IH (data_id g x)) as [IH0 IHk]. split.
    + intros a [= <-]. done.
    + intros [|k] a b Ha Hb; cbn [lookup list_lookup] in Ha, Hb.
      * injection Ha as <-. by apply IH0.
      * by apply (IHk k).
Qed.

Lemma consecutive_run_subseteq (g : Grid) (prev : Z) (l : list nat) (x : nat) :
  x ∈ consecutive_run g prev l -> x ∈ l.
Proof.
  revert prev. induction l as [|y l IH]; intros prev; cbn [consecutive_run]; [done|].
  destruct (_ =? _); [|intros H; by apply elem_of_nil in H].
  intros [->|H]%elem_of_cons; [by left|]. right. by apply (IH (data_id g y)).
Qed.

Lemma elem_of_List_filter {A : Type} (f : A -> bool) (l : list A) (x : A) :
  x ∈ List.filter f l <-> x ∈ l /\ f x = true.
Proof. rewrite !list_elem_of_In. apply filter_In. Qed.

(** The items [getItems] reports as [off1] lie above the viewport (their
    bottom is at or above the top of the scroll box) and are bound to
    consecutive indices in ascending order: the list is cut at the first
    gap, so an item above the viewport whose index does not follow is in
    neither [off1] nor [off_all].  [off_all] is [off1] followed by
    [off2]. *)
Theorem getItems_off1_consecutive (screenTop screenBottom : Q) (rect : nat -> Rect)
    (g : Grid) :
  let r := getItems screenTop screenBottom rect g in
  (forall k a b, gi_off1 r !! k = Some a -> gi_off1 r !! S k = Some b ->
     data_id g b = data_id g a + 1)
  /\ (forall id, id ∈ gi_off1 r ->
        id ∈ items g /\ (rect_bottom (rect id) <= screenTop)%Q)
  /\ gi_off_all r = gi_off1 r ++ gi_off2 r.
Proof.
  cbv zeta. unfold getItems. cbn [gi_off1 gi_off2 gi_off_all].
  set (sorted := Array_sort (sortFwd g) _).
  split; [|split; [|done]].
  - unfold cut_at_gap. destruct sorted as [|x l]; [done|].
    destruct (consecutive_run_step g (data_id g x) l) as [H0 Hk].
    intros [|k] a b Ha Hb; cbn [lookup list_lookup] in Ha, Hb.
    + injection Ha as <-. by apply H0.
    + by apply (Hk k).
  - intros id Hid.
    assert (Hin : id ∈ sorted).
    { unfold cut_at_gap in Hid. destruct sorted as [|x l]; [done|].
      apply elem_of_cons in Hid as [->|Hid]; [by left|].
      right. by apply (consecutive_run_subseteq g (data_id g x)). }
    unfold sorted in Hin. rewrite Array_sort_perm in Hin.
    apply elem_of_List_filter in Hin as [Hin Hb]. split; [done|].
    by apply Qle_bool_iff.
Qed.

(** With rectangles of positive height and a scroll box of positive
    height, [getItems] sorts every item of the pool into exactly one of
    three groups: above the viewport, [off2] (below it), or [screen_all]
    (meeting it); and the items fully inside ([screen]) are among those
    meeting it. *)
Theorem getItems_partition (screenTop screenBottom : Q) (rect : nat -> Rect) (g : Grid) :
  (screenTop < screenBottom)%Q ->
  (forall id, id ∈ items g -> (rect_top (rect id) < rect_bottom (rect id))%Q) ->
  let r := getItems screenTop screenBottom rect g in
  (forall id, id ∈ items g ->
     ((rect_bottom (rect id) <= screenTop)%Q
      /\ (id ∉ gi_off2 r) /\ (id ∉ gi_screen_all r))
     \/ ((screenTop < rect_bottom (rect id))%Q
         /\ (id ∈ gi_off2 r) /\ (id ∉ gi_screen_all r))
     \/ ((screenTop < rect_bottom (rect id))%Q
         /\ (id ∉ gi_off2 r) /\ (id ∈ gi_screen_all r)))
  /\ (forall id, id ∈ gi_screen r -> id ∈ gi_screen_all r).
Proof.
  intros Hscreen Hrect. cbv zeta. unfold getItems.
  cbn [gi_off2 gi_screen_all gi_screen]. split.
  - intros id Hid. specialize (Hrect id Hid).
    rewrite !elem_of_List_filter. unfold Qlt_bool.
    set (t := rect_top (rect id)) in *. set (b := rect_bottom (rect id)) in *.
    destruct (Qle_bool b screenTop) eqn:E1;
      [apply Qle_bool_iff in E1|apply Qle_bool_false in E1];
    (destruct (Qle_bool screenBottom t) eqn:E2;
      [apply Qle_bool_iff in E2|apply Qle_bool_false in E2]);
    (destruct (Qle_bool screenTop t) eqn:E3;
      [apply Qle_bool_iff in E3|apply Qle_bool_false in E3]);
    (destruct (Qle_bool b screenBottom) eqn:E4;
      [apply Qle_bool_iff in E4|apply Qle_bool_false in E4]);
    (destruct (Qle_bool t screenTop) eqn:E5;
      [apply Qle_bool_iff in E5|apply Qle_bool_false in E5]);
    (destruct (Qle_bool screenBottom b) eqn:E6;
      [apply Qle_bool_iff in E6|apply Qle_bool_false in E6]);
    cbn [negb andb orb]; try lra.
    all: first
      [ left; split; [lra|]; split; intros [_ H]; discriminate H
      | right; left; split; [lra|]; split; [by split|intros [_ H]; discriminate H]
      | right; right; split; [lra|]; split; [intros [_ H]; discriminate H|by split] ].
  - intros id. rewrite !elem_of_List_filter. intros [Hid H]. split; [done|].
    apply andb_true_iff in H as [H1 H2].
    specialize (Hrect id Hid). unfold Qlt_bool. rewrite H1. cbn [andb].
    destruct (Qle_bool screenBottom (rect_top (rect id))) eqn:E; [|done].
    exfalso. apply Qle_bool_iff in E, H1, H2. lra.
Qed.

Lemma getItems_partition_witness :
  let r := getItems 0 120 example_rect (example_loaded true) in
  (forall id, id ∈ items (example_loaded true) ->
     ((rect_bottom (example_rect id) <= 0)%Q
      /\ (id ∉ gi_off2 r) /\ (id ∉ gi_screen_all r))
     \/ ((0 < rect_bottom (example_rect id))%Q
         /\ (id ∈ gi_off2 r) /\ (id ∉ gi_screen_all r))
     \/ ((0 < rect_bottom (example_rect id))%Q
         /\ (id ∉ gi_off2 r) /\ (id ∈ gi_screen_all r)))
  /\ (forall id, id ∈ gi_screen r -> id ∈ gi_screen_all r).
Proof.
  apply (getItems_partition 0 120 example_rect (example_loaded true)).
  - reflexivity.
  - intros id Hid.
    assert (Hitems : items (example_loaded true) = [0; 1; 2; 3]%nat)
      by (vm_compute; reflexivity).
    rewrite Hitems in Hid.
    repeat (apply elem_of_cons in Hid as [->|Hid]); [reflexivity..|].
    exfalso. revert Hid. apply not_elem_of_nil.
Defined.

Lemma foldl_min_spec (f : nat -> Z) (l : list nat) (m0 : Z) :
  foldl (fun m id => Z.min m (f id)) m0 l <= m0
  /\ (forall x, x ∈ l -> foldl (fun m id => Z.min m (f id)) m0 l <= f x).
Proof.
  revert m0. induction l as [|y l IH]; intros m0; cbn [foldl].
  - split; [lia|]. intros x Hx. by apply elem_of_nil in Hx.
  - destruct (IH (Z.min m0 (f y))) as [H1 H2]. split; [lia|].
    intros x [->|Hx]%elem_of_cons; [lia|by apply H2].
Qed.

Lemma foldl_max_spec (f : nat -> Z) (l : list nat) (m0 : Z) :
  m0 <= foldl (fun m id => Z.max m (f id)) m0 l
  /\ (forall x, x ∈ l -> f x <= foldl (fun m id => Z.max m (f id)) m0 l).
Proof.
  revert m0. induction l as [|y l IH]; intros m0; cbn [foldl].
  - split; [lia|]. intros x Hx. by apply elem_of_nil in Hx.
  - destruct (IH (Z.max m0 (f y))) as [H1 H2]. split; [lia|].
    intros x [->|Hx]%elem_of_cons; [lia|by apply H2].
Qed.

(** What [getItems] reports of the indices on screen: with nothing on
    screen both [min_screen_id] and [max_screen_id] are 0, as they are when
    record 0 alone is on screen; otherwise, the indices on screen being
    safe integers, every one of them lies between the two.  And [center] is
    empty unless at least two items are fully inside the viewport. *)
Theorem getItems_screen_ids (screenTop screenBottom : Q) (rect : nat -> Rect) (g : Grid) :
  let r := getItems screenTop screenBottom rect g in
  (gi_screen_all r = [] -> gi_min_screen_id r = 0 /\ gi_max_screen_id r = 0)
  /\ (forall id, id ∈ gi_screen_all r ->
        (forall j, j ∈ gi_screen_all r ->
           MIN_SAFE_INTEGER < data_id g j < MAX_SAFE_INTEGER) ->
        gi_min_screen_id r <= data_id g id <= gi_max_screen_id r)
  /\ ((length (gi_screen r) <= 1)%nat -> gi_center r = None).
Proof.
  cbv zeta. unfold getItems.
  cbn [gi_screen_all gi_min_screen_id gi_max_screen_id gi_screen gi_center].
  set (sa := List.filter _ (items g)). set (sc := List.filter _ (items g)).
  split; [|split].
  - intros ->. cbn [foldl]. done.
  - intros id Hid Hsafe.
    destruct (foldl_min_spec (data_id g) sa MAX_SAFE_INTEGER) as [_ Hmin].
    destruct (foldl_max_spec (data_id g) sa MIN_SAFE_INTEGER) as [_ Hmax].
    pose proof (Hmin id Hid). pose proof (Hmax id Hid). pose proof (Hsafe id Hid).
    destruct (Z.eqb_spec (foldl (fun m id0 => Z.min m (data_id g id0)) MAX_SAFE_INTEGER sa)
                MAX_SAFE_INTEGER); [lia|].
    destruct (Z.eqb_spec (foldl (fun m id0 => Z.max m (data_id g id0)) MIN_SAFE_INTEGER sa)
                MIN_SAFE_INTEGER); lia.
  - intros Hlen. destruct sc as [|x [|y sc]]; cbn [fmap list_fmap]; [done|done|].
    cbn [length] in Hlen. lia.
Qed.


(** ** Setting the height of an item *)

Lemma recalcItems_sizing (pos : Z) (options : RecalcOptions) :
  preserves (same_on sizing) (recalcItems pos options CbUndefined).
Proof.
  assert (Hloop : forall n i, preserves (same_on sizing) (recalc_loop n i options)).
  { intros n i. apply (preserves_weaken (same_on recalc_frame)); [|apply recalc_loop_frame].
    intros g g' H. apply recalc_frame_eq in H. unfold same_on. by destruct H as (_ & -> & _). }
  unfold recalcItems. frame; first [apply Hloop | unfold animation; frame].
Qed.

Lemma setSize_frame (id : nat) (width height : option Z) :
  preserves (same_on (fun g => (sizing g, item_index <$> views g)))
    (setSize id width height).
Proof.
  assert (Hrec : forall pos options, preserves
            (same_on (fun g => (sizing g, item_index <$> views g)))
            (recalcItems pos options CbUndefined)).
  { intros pos options g. unfold same_on.
    pose proof (recalcItems_sizing pos options g) as H1.
    pose proof (recalcItems_indices pos options CbUndefined g) as H2.
    unfold same_on in H1, H2. rewrite H1. f_equal. exact (f_equal snd H2). }
  unfold setSize. frame; try apply Hrec.
  all: unfold same_on, update_view; cbn [sizing views set_views set_storage_items];
    rewrite ?alter_item_index by done; try done.
  all: repeat case_match; cbn [sizing views set_views set_storage_items];
    rewrite ?alter_item_index by done; done.
Qed.

(** [item.height(h)] with a new positive height, on a bound item whose
    record is an object without a usable aspect ratio, in a grid without a
    fixed item height: the call returns, the layout entry of the item
    carries the height [h], the record of the item carries the hint [h], and
    a later layout pass over that record resolves to the same height [h]; the
    entries are again where [findNextPos] puts them. *)
Theorem item_height_round_trip (g : Grid) (id : nat) (self : ItemView) (h : Z) (r : Rec) :
  stateIsNormal check_all g = true -> laid_out g (storage_items g) ->
  views g !! id = Some self -> h <> valHeight self ->
  0 <= item_index self < Z.of_nat (length (storage_items g)) ->
  0 < h -> 0 < h + rows (space (config g)) ->
  cache_records g !! Z.to_nat (item_index self) = Some (VObject r) ->
  truthy (item_height (sizing g)) = false ->
  positive_ratio (abi7aspectRatio r) = None ->
  exists g' e r',
    item_height_op id (VNumber h) g = (Ret VUndefined, g')
    /\ storage_items g' !! Z.to_nat (item_index self) = Some (Some e)
    /\ e_height e = Some h
    /\ cache_records g' !! Z.to_nat (item_index self) = Some (VObject r')
    /\ abi7height r' = Some h
    /\ (forall obj, storage_height g' obj (VObject r') = Ret (Some h))
    /\ laid_out g (storage_items g').
Proof.
  intros Hn Hl Hv Hne Hidx Hpos Hh Hrec Hfix Hratio.
  unfold item_height_op. rewrite Hv.
  destruct (setSize_layout g id self h Hn Hl Hv Hne ltac:(lia) Hh)
    as (g1 & Hrun & Hlen & Hl1 & He1 & Hst1).
  rewrite (bind_ret _ _ _ _ _ Hrun).
  destruct (He1 ltac:(lia)) as (e & He & Hhe).
  pose proof (setSize_dataset id None (Some h) g) as Hds. rewrite Hrun in Hds.
  apply dataset_eq in Hds as (Hc & Hheap & Hcache & _ & _). cbn [snd] in *.
  pose proof (setSize_frame id None (Some h) g) as Hfr. rewrite Hrun in Hfr.
  unfold same_on in Hfr. cbn [snd] in Hfr.
  assert (Hs := f_equal fst Hfr). assert (Hix := f_equal snd Hfr). cbn [fst snd] in Hs, Hix.
  assert (Hv1 : exists self1, views g1 !! id = Some self1
                  /\ item_index self1 = item_index self).
  { assert (H : (item_index <$> views g1) !! id = (item_index <$> views g) !! id)
      by (by rewrite Hix).
    rewrite !list_lookup_fmap, Hv in H. cbn [fmap option_fmap option_map] in H.
    destruct (views g1 !! id) as [self1|]; [|done]. injection H as H. eauto. }
  destruct Hv1 as (self1 & Hv1 & Hi1).
  assert (Hrec1 : cache_records g1 = cache_records g).
  { unfold cache_records. by rewrite Hheap, Hcache. }
  unfold bind at 1. unfold item_data_abi7height. rewrite Hv1, Hi1, Hrec1.
  unfold lookupZ. destruct (Z.ltb_spec (item_index self) 0); [lia|].
  rewrite Hrec. cbn [set_abi7height]. unfold modify, ret.
  set (r' := {| abi7height := Some h; abi7aspectRatio := abi7aspectRatio r;
                payload := payload r |}).
  eexists _, e, r'. split; [reflexivity|].
  cbn [storage_items set_heap].
  split; [done|]. split; [done|]. split.
  { unfold cache_records at 1. cbn [heap cache set_heap]. rewrite lookup_insert_eq.
    cbn [default]. unfold Datatypes.id. rewrite Hrec1.
    apply list_lookup_insert_eq. by apply lookup_lt_Some in Hrec. }
  split; [done|]. split; [|done].
  intros obj. unfold storage_height.
  cbn [get_abi7height get_abi7aspectRatio abi7height abi7aspectRatio r' config sizing set_heap].
  rewrite Hs, Hfix, Hratio. unfold positive_hint.
  destruct (Z.ltb_spec 0 h); [done|lia].
Qed.

Lemma item_height_round_trip_witness :
  exists g' e r',
    item_height_op 1 (VNumber 80) (example_loaded true) = (Ret VUndefined, g')
    /\ storage_items g' !! Z.to_nat 1 = Some (Some e)
    /\ e_height e = Some 80
    /\ cache_records g' !! Z.to_nat 1 = Some (VObject r')
    /\ abi7height r' = Some 80
    /\ (forall obj, storage_height g' obj (VObject r') = Ret (Some 80))
    /\ laid_out (example_loaded true) (storage_items g').
Proof.
  apply (item_height_round_trip (example_loaded true) 1
           {| item_index := 1; loadIndex := 1; item_x := 1010 # 2; item_y := Num 0;
              item_column := 1; valHeight := 50; valWidth := 250 |} 80
           {| abi7height := Some 50; abi7aspectRatio := None; payload := 1 |}).
  - vm_compute. reflexivity.
  - exact example_loaded_laid_out.
  - vm_compute. reflexivity.
  - discriminate.
  - vm_compute. split; [discriminate|reflexivity].
  - reflexivity.
  - vm_compute. reflexivity.
  - vm_compute. reflexivity.
  - vm_compute. reflexivity.
  - reflexivity.
Defined.


(** [item.height(h)] on an item that is bound to no record (index [-1], as
    [remove] leaves it): the height is set and the layout recomputed from
    the start, and then the write of the hint throws a [TypeError], since
    [storage.cache[-1]] is [undefined]; the cache is as it was. *)
Theorem item_height_unbound_throws (g : Grid) (id : nat) (self : ItemView) (h : Z) :
  stateIsNormal check_all g = true -> laid_out g (storage_items g) ->
  views g !! id = Some self -> item_index self = -1 -> h <> valHeight self ->
  0 < h + rows (space (config g)) ->
  exists msg g',
    item_height_op id (VNumber h) g = (Throw (TypeError msg), g')
    /\ cache_records g' = cache_records g
    /\ laid_out g (storage_items g').
Proof.
  intros Hn Hl Hv Hidx Hne Hh.
  unfold item_height_op. rewrite Hv.
  destruct (setSize_layout g id self h Hn Hl Hv Hne ltac:(lia) Hh)
    as (g1 & Hrun & Hlen & Hl1 & _ & _).
  rewrite (bind_ret _ _ _ _ _ Hrun).
  pose proof (setSize_dataset id None (Some h) g) as Hds. rewrite Hrun in Hds.
  apply dataset_eq in Hds as (_ & Hheap & Hcache & _ & _). cbn [snd] in *.
  pose proof (setSize_frame id None (Some h) g) as Hfr. rewrite Hrun in Hfr.
  unfold same_on in Hfr. cbn [snd] in Hfr.
  assert (Hix := f_equal snd Hfr). cbn [fst snd] in Hix.
  assert (Hv1 : exists self1, views g1 !! id = Some self1
                  /\ item_index self1 = item_index self).
  { assert (H : (item_index <$> views g1) !! id = (item_index <$> views g) !! id)
      by (by rewrite Hix).
    rewrite !list_lookup_fmap, Hv in H. cbn [fmap option_fmap option_map] in H.
    destruct (views g1 !! id) as [self1|]; [|done]. injection H as H. eauto. }
  destruct Hv1 as (self1 & Hv1 & Hi1).
  unfold bind at 1. unfold item_data_abi7height. rewrite Hv1, Hi1, Hidx.
  cbn [lookupZ Z.ltb Z.compare set_abi7height]. unfold throw.
  eexists _, g1. split; [reflexivity|]. split; [|done].
  unfold cache_records. by rewrite Hheap, Hcache.
Qed.

Lemma item_height_unbound_throws_witness :
  exists msg g',
    item_height_op 1 (VNumber 80) after_first_remove = (Throw (TypeError msg), g')
    /\ cache_records g' = cache_records after_first_remove
    /\ laid_out after_first_remove (storage_items g').
Proof.
  apply (item_height_unbound_throws after_first_remove 1
           (default new_item (views after_first_remove !! 1%nat)) 80).
  - vm_compute. reflexivity.
  - unfold laid_out.
    assert (length (storage_items after_first_remove) = 5%nat) as ->.
    { vm_compute. reflexivity. }
    intros i Hi.
    do 5 (destruct i as [|i];
          [eexists; split; [vm_compute; reflexivity|];
           eexists _, _; split; [vm_compute; reflexivity|];
           split; [f_equal; vm_compute; reflexivity|vm_compute; reflexivity]|]).
    lia.
  - vm_compute. reflexivity.
  - vm_compute. reflexivity.
  - vm_compute. discriminate.
  - vm_compute. reflexivity.
Defined.


(** ** Overlap of two elements *)

Lemma Qmax_spec (a b : Q) : (Qmax a b == a /\ b <= a)%Q \/ (Qmax a b == b /\ a <= b)%Q.
Proof.
  unfold Qmax. destruct (Qle_bool a b) eqn:E.
  - right. apply Qle_bool_iff in E. split; [reflexivity|done].
  - left. apply Qle_bool_false in E. split; [reflexivity|]. by apply Qlt_le_weak.
Qed.

Lemma Qmin_spec (a b : Q) : (Qmin a b == a /\ a <= b)%Q \/ (Qmin a b == b /\ b <= a)%Q.
Proof.
  unfold Qmin. destruct (Qle_bool a b) eqn:E.
  - left. apply Qle_bool_iff in E. split; [reflexivity|done].
  - right. apply Qle_bool_false in E. split; [reflexivity|]. by apply Qlt_le_weak.
Qed.

(** Naming a minimum or a maximum and splitting on which side it is. *)
Ltac qsplit t :=
  let m := fresh "m" in
  let H := fresh "H" in
  lazymatch t with
  | Qmax ?a ?b => pose proof (Qmax_spec a b) as H
  | Qmin ?a ?b => pose proof (Qmin_spec a b) as H
  end;
  set (m := t) in *; clearbody m; destruct H as [[? ?]|[? ?]].

(** The extent two intervals share, as [calcOverlapArea] computes it on
    each axis. *)
Lemma shared_extent_nonneg (l1 h1 l2 h2 : Q) :
  (0 <= Qmax 0 (Qmin h1 h2 - Qmax l1 l2))%Q.
Proof. qsplit (Qmax 0 (Qmin h1 h2 - Qmax l1 l2)%Q); lra. Qed.

Lemma shared_extent_sym (l1 h1 l2 h2 : Q) :
  (Qmax 0 (Qmin h1 h2 - Qmax l1 l2) == Qmax 0 (Qmin h2 h1 - Qmax l2 l1))%Q.
Proof.
  qsplit (Qmax 0 (Qmin h1 h2 - Qmax l1 l2)%Q);
    qsplit (Qmax 0 (Qmin h2 h1 - Qmax l2 l1)%Q);
    qsplit (Qmin h1 h2); qsplit (Qmax l1 l2); qsplit (Qmin h2 h1); qsplit (Qmax l2 l1);
    lra.
Qed.

Lemma shared_extent_le (l1 h1 l2 h2 : Q) :
  (l1 <= h1)%Q -> (Qmax 0 (Qmin h1 h2 - Qmax l1 l2) <= h1 - l1)%Q.
Proof.
  intros Hw.
  qsplit (Qmax 0 (Qmin h1 h2 - Qmax l1 l2)%Q); qsplit (Qmin h1 h2); qsplit (Qmax l1 l2); lra.
Qed.

Lemma shared_extent_disjoint (l1 h1 l2 h2 : Q) :
  (h1 <= l2)%Q -> (Qmax 0 (Qmin h1 h2 - Qmax l1 l2) == 0)%Q.
Proof.
  intros Hd.
  qsplit (Qmax 0 (Qmin h1 h2 - Qmax l1 l2)%Q); qsplit (Qmin h1 h2); qsplit (Qmax l1 l2); lra.
Qed.

Lemma shared_extent_self (l h : Q) :
  (l <= h)%Q -> (Qmax 0 (Qmin h h - Qmax l l) == h - l)%Q.
Proof.
  intros Hw.
  qsplit (Qmax 0 (Qmin h h - Qmax l l)%Q); qsplit (Qmin h h); qsplit (Qmax l l); lra.
Qed.

Lemma calcOverlapArea_nonneg (r1 r2 : DOMRect) : (0 <= calcOverlapArea r1 r2)%Q.
Proof.
  unfold calcOverlapArea. cbv zeta.
  apply Qmult_le_0_compat; apply shared_extent_nonneg.
Qed.

Lemma calcOverlapArea_sym (r1 r2 : DOMRect) :
  (calcOverlapArea r1 r2 == calcOverlapArea r2 r1)%Q.
Proof.
  unfold calcOverlapArea. cbv zeta.
  rewrite (shared_extent_sym (dr_left r1) (dr_right r1) (dr_left r2) (dr_right r2)).
  rewrite (shared_extent_sym (dr_top r1) (dr_bottom r1) (dr_top r2) (dr_bottom r2)).
  reflexivity.
Qed.

Lemma calcOverlapArea_disjoint (r1 r2 : DOMRect) :
  (dr_right r1 <= dr_left r2)%Q \/ (dr_bottom r1 <= dr_top r2)%Q ->
  (calcOverlapArea r1 r2 == 0)%Q.
Proof.
  unfold calcOverlapArea. cbv zeta. intros [Hd|Hd].
  - rewrite (shared_extent_disjoint _ _ _ _ Hd). apply Qmult_0_l.
  - rewrite (shared_extent_disjoint (dr_top r1) _ _ _ Hd). apply Qmult_0_r.
Qed.

(** The area [calcOverlapArea] gives two rectangles: it is not negative,
    the same whichever rectangle comes first, and zero when the first
    rectangle ends where the second starts or before; and for a rectangle
    whose sides are in order it is at most the area of that rectangle, and
    the whole area for the rectangle and itself. *)
Theorem calcOverlapArea_bounds (r1 r2 : DOMRect) :
  (dr_left r1 <= dr_right r1)%Q -> (dr_top r1 <= dr_bottom r1)%Q ->
  (0 <= calcOverlapArea r1 r2)%Q
  /\ (calcOverlapArea r1 r2 == calcOverlapArea r2 r1)%Q
  /\ (calcOverlapArea r1 r2 <= dr_height r1 * dr_width r1)%Q
  /\ (calcOverlapArea r1 r1 == dr_height r1 * dr_width r1)%Q
  /\ ((dr_right r1 <= dr_left r2)%Q \/ (dr_bottom r1 <= dr_top r2)%Q ->
      (calcOverlapArea r1 r2 == 0)%Q).
Proof.
  intros Hx1 Hy1.
  split; [apply calcOverlapArea_nonneg|].
  split; [apply calcOverlapArea_sym|].
  split; [|split; [|apply calcOverlapArea_disjoint]].
  - unfold calcOverlapArea, dr_height, dr_width. cbv zeta.
    pose proof (shared_extent_nonneg (dr_left r1) (dr_right r1) (dr_left r2) (dr_right r2))
      as X0.
    pose proof (shared_extent_le (dr_left r1) (dr_right r1) (dr_left r2) (dr_right r2) Hx1)
      as Xl.
    pose proof (shared_extent_le (dr_top r1) (dr_bottom r1) (dr_top r2) (dr_bottom r2) Hy1)
      as Yl.
    set (xo := Qmax 0 _) in *. set (yo := Qmax 0 _) in *.
    rewrite (Qmult_comm (dr_bottom r1 - dr_top r1)).
    apply Qle_trans with (xo * (dr_bottom r1 - dr_top r1))%Q.
    + rewrite !(Qmult_comm xo). by apply Qmult_le_compat_r.
    + apply Qmult_le_compat_r; [done|lra].
  - unfold calcOverlapArea, dr_height, dr_width. cbv zeta.
    rewrite (shared_extent_self _ _ Hx1), (shared_extent_self _ _ Hy1).
    apply Qmult_comm.
Qed.

Lemma calcOverlapArea_bounds_witness :
  let r1 := {| dr_left := 0; dr_top := 0; dr_right := 250; dr_bottom := 100 |} in
  let r2 := {| dr_left := 100; dr_top := 40; dr_right := 350; dr_bottom := 90 |} in
  (0 <= calcOverlapArea r1 r2)%Q
  /\ (calcOverlapArea r1 r2 == calcOverlapArea r2 r1)%Q
  /\ (calcOverlapArea r1 r2 <= dr_height r1 * dr_width r1)%Q
  /\ (calcOverlapArea r1 r1 == dr_height r1 * dr_width r1)%Q
  /\ ((dr_right r1 <= dr_left r2)%Q \/ (dr_bottom r1 <= dr_top r2)%Q ->
      (calcOverlapArea r1 r2 == 0)%Q).
Proof.
  apply (calcOverlapArea_bounds
           {| dr_left := 0; dr_top := 0; dr_right := 250; dr_bottom := 100 |}
           {| dr_left := 100; dr_top := 40; dr_right := 350; dr_bottom := 90 |});
    vm_compute; discriminate.
Defined.

Lemma Qle_bool_ext (a a' b b' : Q) :
  (a == a')%Q -> (b == b')%Q -> Qle_bool a b = Qle_bool a' b'.
Proof.
  intros Ha Hb.
  destruct (Qle_bool a b) eqn:E1, (Qle_bool a' b') eqn:E2; try done.
  - apply Qle_bool_iff in E1. apply Qle_bool_false in E2. lra.
  - apply Qle_bool_iff in E2. apply Qle_bool_false in E1. lra.
Qed.

Lemma Qmin_comm (a b : Q) : (Qmin a b == Qmin b a)%Q.
Proof. qsplit (Qmin a b); qsplit (Qmin b a); lra. Qed.

(** The test [sortMove] applies to the element under the dragged one does
    not depend on which of the two rectangles is the dragged one, and two
    rectangles whose sides are in order and that do not meet never pass
    it. *)
Theorem overlaps_by_half_symmetric (r1 r2 : DOMRect) :
  overlaps_by_half r1 r2 = overlaps_by_half r2 r1
  /\ ((dr_left r1 <= dr_right r1)%Q -> (dr_top r1 <= dr_bottom r1)%Q ->
      (dr_left r2 <= dr_right r2)%Q -> (dr_top r2 <= dr_bottom r2)%Q ->
      (dr_right r1 <= dr_left r2)%Q \/ (dr_bottom r1 <= dr_top r2)%Q ->
      overlaps_by_half r1 r2 = false).
Proof.
  unfold overlaps_by_half, Qlt_bool. cbv zeta. split.
  - f_equal. apply Qle_bool_ext; [apply calcOverlapArea_sym|].
    unfold Qdiv. by rewrite Qmin_comm.
  - intros Hx1 Hy1 Hx2 Hy2 Hd. apply negb_false_iff, Qle_bool_iff.
    rewrite (calcOverlapArea_disjoint r1 r2 Hd).
    assert (H1 : (0 <= dr_height r1 * dr_width r1)%Q).
    { apply Qmult_le_0_compat; unfold dr_height, dr_width; lra. }
    assert (H2 : (0 <= dr_height r2 * dr_width r2)%Q).
    { apply Qmult_le_0_compat; unfold dr_height, dr_width; lra. }
    set (a1 := (dr_height r1 * dr_width r1)%Q) in *.
    set (a2 := (dr_height r2 * dr_width r2)%Q) in *.
    unfold Qdiv. change (/ 2)%Q with (1 # 2)%Q.
    qsplit (Qmin a1 a2); lra.
Qed.

Lemma overlaps_by_half_symmetric_witness :
  let r1 := {| dr_left := 0; dr_top := 0; dr_right := 250; dr_bottom := 100 |} in
  let r2 := {| dr_left := 260; dr_top := 0; dr_right := 510; dr_bottom := 90 |} in
  overlaps_by_half r1 r2 = overlaps_by_half r2 r1
  /\ overlaps_by_half r1 r2 = false.
Proof.
  pose proof (overlaps_by_half_symmetric
           {| dr_left := 0; dr_top := 0; dr_right := 250; dr_bottom := 100 |}
           {| dr_left := 260; dr_top := 0; dr_right := 510; dr_bottom := 90 |})
    as [Hs Hd].
  split; [exact Hs|].
  apply Hd; [vm_compute; discriminate ..|left; vm_compute; discriminate].
Defined.

